(** * houdini-mcp: the command relay and dispatch protocol

    A shallow embedding of the two Python programs of the repository:

    - [server.py], the back end living inside Houdini: the poll loop
      [_process_server], the dispatcher [execute_command] /
      [_execute_command_internal] and the command handlers;
    - [houdini_mcp_server.py], the stdio-facing front end: the
      [HoudiniConnection] client with [connect], [disconnect] and
      [send_command].

    Python code that raises is embedded in a state-and-exception monad; the
    Houdini scripting API ([hou]), the [json] module and the sockets are the
    environment and appear as an interface the code is parameterised over. *)

From Stdlib Require Import List Strings.String Strings.Ascii Strings.Byte ZArith NArith Bool Lia.
From Stdlib Require Import Floats.SpecFloat Numbers.DecimalString.
Import ListNotations.
Local Open Scope list_scope.
Local Open Scope string_scope.
Set Warnings "-register-all".

(* ====================================================================== *)
(** * Python values *)
(* ====================================================================== *)

Module Py.

(** The values [json.loads] produces: [None], [bool], [int], [float], [str],
    [list] and [dict] with string keys.  A [dict] keeps its insertion order,
    so it is an association list.  A Python [str] is represented by its
    UTF-8 encoding. *)
Inductive json : Type :=
| JNull
| JBool (b : bool)
| JInt (z : Z)
| JFloat (f : spec_float)
| JStr (s : string)
| JList (l : list json)
| JDict (d : list (string * json)).

(** Exception classes the two programs raise, catch or can meet.  Every
    class here derives from [Exception]; [except Exception] catches all of
    them.  The exceptions that do not derive from [Exception] are
    [base_exception] below. *)
Inductive exn_class : Type :=
| PlainException
| ValueError
| TypeError
| RuntimeError
| AttributeError
| KeyError
| IndexError
| OSError
| ConnectionError
| BlockingIOError
| SocketTimeout
| JSONDecodeError
| UnicodeDecodeError
| HostError (name : string).

(** An exception object: its class and [str(e)]. *)
Record exn : Type := mkExn { exn_class_of : exn_class; exn_str : string }.

Definition exn_class_eqb (a b : exn_class) : bool :=
  match a, b with
  | PlainException, PlainException => true
  | ValueError, ValueError => true
  | TypeError, TypeError => true
  | RuntimeError, RuntimeError => true
  | AttributeError, AttributeError => true
  | KeyError, KeyError => true
  | IndexError, IndexError => true
  | OSError, OSError => true
  | ConnectionError, ConnectionError => true
  | BlockingIOError, BlockingIOError => true
  | SocketTimeout, SocketTimeout => true
  | JSONDecodeError, JSONDecodeError => true
  | UnicodeDecodeError, UnicodeDecodeError => true
  | HostError n, HostError m => String.eqb n m
  | _, _ => false
  end.

(** [except C:] for one of the leaf classes the programs name. *)
Definition is_class (c : exn_class) (e : exn) : bool :=
  exn_class_eqb (exn_class_of e) c.

(** ** Exceptions outside [Exception]

    [SystemExit], [KeyboardInterrupt] and [GeneratorExit] derive from
    [BaseException] only, and so can a class that running code defines.
    The two programs raise none of them and name none in an [except]
    clause; the text handed to [exec] can raise them. *)
Inductive base_exception : Type :=
| SystemExit (code : json)
| KeyboardInterrupt
| GeneratorExit
| OtherBaseException (name : string).

(** Whatever a [raise] can throw. *)
Inductive thrown : Type :=
| Ordinary (e : exn)
| Outside (b : base_exception).

(** Whether the class of what was thrown derives from [Exception]. *)
Definition derives_from_Exception (t : thrown) : bool :=
  match t with
  | Ordinary _ => true
  | Outside _ => false
  end.

(** [except Exception:], asked of an exception object of one of the
    classes of [exn_class]. *)
Definition is_Exception (e : exn) : bool :=
  derives_from_Exception (Ordinary e).

(** The result of running a piece of Python that runs no foreign text: it
    returns or it raises an exception deriving from [Exception]. *)
Inductive outcome (A : Type) : Type :=
| Returned (a : A)
| Raised (e : exn).
Arguments Returned {A} a.
Arguments Raised {A} e.

(** The result of running a piece of Python that may run foreign text: as
    above, or it is left by an exception outside [Exception]. *)
Inductive completion (A : Type) : Type :=
| Normal (o : outcome A)
| Exits (b : base_exception).
Arguments Normal {A} o.
Arguments Exits {A} b.

(** ** Truthiness, [bool(x)] *)
Definition truthy (j : json) : bool :=
  match j with
  | JNull => false
  | JBool b => b
  | JInt z => negb (Z.eqb z 0)
  | JFloat (S754_zero _) => false
  | JFloat _ => true
  | JStr s => negb (String.eqb s "")
  | JList l => match l with [] => false | _ => true end
  | JDict d => match d with [] => false | _ => true end
  end.

(** ** Code points of a [str]

    A byte of the form 10xxxxxx continues a code point; every other byte
    starts one. *)
Definition is_continuation (c : ascii) : bool :=
  let n := N_of_ascii c in (128 <=? n)%N && (n <=? 191)%N.

(** [utf8_chars_aux cur s]: the code points of [s], [cur] being the bytes
    of the code point under construction, in reverse. *)
Fixpoint utf8_chars_aux (cur : option string) (s : string) : list string :=
  match s with
  | EmptyString => match cur with None => [] | Some c => [c] end
  | String a r =>
      if is_continuation a then
        match cur with
        | Some c => utf8_chars_aux (Some (c ++ String a EmptyString)) r
        | None => utf8_chars_aux (Some (String a EmptyString)) r
        end
      else
        match cur with
        | Some c => c :: utf8_chars_aux (Some (String a EmptyString)) r
        | None => utf8_chars_aux (Some (String a EmptyString)) r
        end
  end.

Definition utf8_chars (s : string) : list string := utf8_chars_aux None s.

(** ** Errors raised by the Python runtime itself

    Their class is fixed by the language; their message text is not the
    repository's and differs between interpreter versions, so it is left to
    the runtime ([rt_message] below). *)
Inductive runtime_error : Type :=
| NoAttribute (receiver : json) (attr : string)   (* x.get / x.items on a non-dict *)
| Unhashable (key : json)                         (* list or dict as a dict key *)
| NotAMapping (callee : string) (arg : json)      (* keyword call with a non-dict *)
| BadKeywords (callee : string) (kw : list string)(* keywords do not fit the signature *)
| NoLen (x : json)                                (* len(x) *)
| NotSubscriptable (x : json)                     (* x[i] *)
| IndexOutOfRange (x : json) (i : nat)            (* x[i] *)
| MissingKey (i : nat).                           (* d[i], d a dict *)

Definition runtime_error_class (r : runtime_error) : exn_class :=
  match r with
  | NoAttribute _ _ => AttributeError
  | Unhashable _ => TypeError
  | NotAMapping _ _ => TypeError
  | BadKeywords _ _ => TypeError
  | NoLen _ => TypeError
  | NotSubscriptable _ => TypeError
  | IndexOutOfRange _ _ => IndexError
  | MissingKey _ => KeyError
  end.

(** What the programs take from the Python runtime and its [json] module. *)
Record Runtime : Type := {
  (** [str(x)] / [f"{x}"] of a float, a list or a dict. *)
  rt_repr : json -> string;
  (** [str(e)] of an exception the runtime raises. *)
  rt_message : runtime_error -> string;
  (** [json.loads(text)]: the value, [JSONDecodeError], or another
      exception (e.g. [RecursionError] on deep nesting). *)
  json_loads : string -> outcome json;
  (** [json.dumps(value)], total on values built from JSON types. *)
  json_dumps : json -> string
}.

Definition string_of_Z (z : Z) : string := NilZero.string_of_int (Z.to_int z).

Section WithRuntime.
Variable rt : Runtime.

Definition rt_raise (r : runtime_error) : exn :=
  mkExn (runtime_error_class r) (rt_message rt r).

(** [str(x)], as used by f-strings. *)
Definition py_str (j : json) : string :=
  match j with
  | JNull => "None"
  | JBool true => "True"
  | JBool false => "False"
  | JInt z => string_of_Z z
  | JStr s => s
  | JFloat _ | JList _ | JDict _ => rt_repr rt j
  end.

(** [len(x)] *)
Definition py_len (j : json) : outcome nat :=
  match j with
  | JStr s => Returned (List.length (utf8_chars s))
  | JList l => Returned (List.length l)
  | JDict d => Returned (List.length d)
  | _ => Raised (rt_raise (NoLen j))
  end.

(** [x[i]] for a non-negative literal index [i]. *)
Definition py_getitem (j : json) (i : nat) : outcome json :=
  match j with
  | JStr s =>
      match nth_error (utf8_chars s) i with
      | Some c => Returned (JStr c)
      | None => Raised (rt_raise (IndexOutOfRange j i))
      end
  | JList l =>
      match nth_error l i with
      | Some x => Returned x
      | None => Raised (rt_raise (IndexOutOfRange j i))
      end
  | JDict _ => Raised (rt_raise (MissingKey i))
  | _ => Raised (rt_raise (NotSubscriptable j))
  end.

(** [x != s] where [s] is a [str]. *)
Definition py_ne_str (j : json) (s : string) : bool :=
  match j with
  | JStr t => negb (String.eqb t s)
  | _ => true
  end.

End WithRuntime.

(** [l.append(x)] *)
Definition append {A : Type} (l : list A) (x : A) : list A := List.app l [x].

(** Lookup in a [dict] with string keys. *)
Fixpoint assoc {A : Type} (k : string) (d : list (string * A)) : option A :=
  match d with
  | [] => None
  | (k', v) :: r => if String.eqb k k' then Some v else assoc k r
  end.

(** [d.get(k, default)] on a dict. *)
Definition dict_get (d : list (string * json)) (k : string) (default : json)
  : json :=
  match assoc k d with
  | Some v => v
  | None => default
  end.

(** Whether a value can be a dict key: lists and dicts cannot. *)
Definition hashable (j : json) : bool :=
  match j with
  | JList _ | JDict _ => false
  | _ => true
  end.

(** ** Bytes

    [bytes.decode('utf-8')] in strict mode accepts exactly the well-formed
    UTF-8 byte sequences (Unicode, table 3-7). *)
Definition between (lo hi : N) (b : byte) : bool :=
  let n := Byte.to_N b in (lo <=? n)%N && (n <=? hi)%N.

Definition cont : byte -> bool := between 128 191.

Fixpoint valid_utf8 (bs : list byte) : bool :=
  match bs with
  | [] => true
  | b0 :: r0 =>
      if between 0 127 b0 then valid_utf8 r0
      else
        match r0 with
        | [] => false
        | b1 :: r1 =>
            if between 194 223 b0 then cont b1 && valid_utf8 r1
            else
              match r1 with
              | [] => false
              | b2 :: r2 =>
                  if between 224 224 b0 then
                    between 160 191 b1 && cont b2 && valid_utf8 r2
                  else if between 225 236 b0 || between 238 239 b0 then
                    cont b1 && cont b2 && valid_utf8 r2
                  else if between 237 237 b0 then
                    between 128 159 b1 && cont b2 && valid_utf8 r2
                  else
                    match r2 with
                    | [] => false
                    | b3 :: r3 =>
                        if between 240 240 b0 then
                          between 144 191 b1 && cont b2 && cont b3
                          && valid_utf8 r3
                        else if between 241 243 b0 then
                          cont b1 && cont b2 && cont b3 && valid_utf8 r3
                        else if between 244 244 b0 then
                          between 128 143 b1 && cont b2 && cont b3
                          && valid_utf8 r3
                        else false
                    end
              end
        end
  end.

(** [data.decode('utf-8')] *)
Definition decode_utf8 (bs : list byte) : outcome string :=
  if valid_utf8 bs then Returned (string_of_list_byte bs)
  else Raised (mkExn UnicodeDecodeError
                 "'utf-8' codec can't decode bytes").

(** [text.encode('utf-8')] *)
Definition encode_utf8 (s : string) : list byte := list_byte_of_string s.

End Py.

(* ====================================================================== *)
(** * Python control flow: state and exceptions *)
(* ====================================================================== *)

Module Exc.
Import Py.

(** A computation over a mutable state [S] that returns an [A] or raises.
    The state survives a raise: what was mutated before stays mutated. *)
Definition M (S A : Type) : Type := S -> outcome A * S.

Definition ret {S A : Type} (a : A) : M S A := fun s => (Returned a, s).

Definition raise {S A : Type} (e : exn) : M S A := fun s => (Raised e, s).

Definition bind {S A B : Type} (m : M S A) (k : A -> M S B) : M S B :=
  fun s =>
    match m s with
    | (Returned a, s') => k a s'
    | (Raised e, s') => (Raised e, s')
    end.

Definition get {S : Type} : M S S := fun s => (Returned s, s).

Definition modify {S : Type} (f : S -> S) : M S unit :=
  fun s => (Returned tt, f s).

(** A pure runtime operation that may raise ([len(x)], [x[0]], ...). *)
Definition lift {S A : Type} (o : outcome A) : M S A := fun s => (o, s).

(** [try: body / except C1: h1 / except C2 as e: h2 ...]: the first clause
    whose class test accepts the exception handles it; with no such clause
    the exception propagates. *)
Definition try_except {S A : Type} (body : M S A)
    (clauses : list ((exn -> bool) * (exn -> M S A))) : M S A :=
  fun s =>
    match body s with
    | (Returned a, s') => (Returned a, s')
    | (Raised e, s') =>
        match find (fun c => fst c e) clauses with
        | Some c => snd c e s'
        | None => (Raised e, s')
        end
    end.

(** [for x in xs: body], the loop carrying the locals [acc] it updates. *)
Fixpoint for_each {S A B : Type} (xs : list A) (acc : B)
    (body : A -> B -> M S B) : M S B :=
  match xs with
  | [] => ret acc
  | x :: r => bind (body x acc) (fun acc' => for_each r acc' body)
  end.

(** ** Code that may run foreign text

    The same combinators over [completion].  An exception outside
    [Exception] leaves every statement it passes: a sequence stops, and no
    [try] statement of the two programs holds it, since each of their
    [except] clauses names [Exception] or a class deriving from it and
    none has a [finally]. *)
Definition X (S A : Type) : Type := S -> completion A * S.

Module Wide.

Definition ret {S A : Type} (a : A) : X S A :=
  fun s => (Normal (Returned a), s).

Definition raise {S A : Type} (e : exn) : X S A :=
  fun s => (Normal (Raised e), s).

Definition bind {S A B : Type} (m : X S A) (k : A -> X S B) : X S B :=
  fun s =>
    match m s with
    | (Normal (Returned a), s') => k a s'
    | (Normal (Raised e), s') => (Normal (Raised e), s')
    | (Exits b, s') => (Exits b, s')
    end.

Definition get {S : Type} : X S S := fun s => (Normal (Returned s), s).

Definition modify {S : Type} (f : S -> S) : X S unit :=
  fun s => (Normal (Returned tt), f s).

(** A pure runtime operation, or the answer of a socket. *)
Definition lift {S A : Type} (o : outcome A) : X S A :=
  fun s => (Normal o, s).

(** A piece of code that runs no foreign text. *)
Definition ordinary {S A : Type} (m : M S A) : X S A :=
  fun s => (Normal (fst (m s)), snd (m s)).

(** [try: body / except C1: h1 / ...]: the clauses see the exceptions
    deriving from [Exception]; one outside [Exception] propagates. *)
Definition try_except {S A : Type} (body : X S A)
    (clauses : list ((exn -> bool) * (exn -> X S A))) : X S A :=
  fun s =>
    match body s with
    | (Normal (Returned a), s') => (Normal (Returned a), s')
    | (Normal (Raised e), s') =>
        match find (fun c => fst c e) clauses with
        | Some c => snd c e s'
        | None => (Normal (Raised e), s')
        end
    | (Exits b, s') => (Exits b, s')
    end.

End Wide.

Module Notations.
Declare Scope py_scope.
Delimit Scope py_scope with py.
Notation "x <- m ;; k" := (bind m (fun x => k))
  (at level 61, m at next level, right associativity) : py_scope.
Notation "m ;; k" := (bind m (fun _ => k))
  (at level 61, right associativity) : py_scope.
Declare Scope wide_scope.
Delimit Scope wide_scope with wide.
Notation "x <- m ;; k" := (Wide.bind m (fun x => k))
  (at level 61, m at next level, right associativity) : wide_scope.
Notation "m ;; k" := (Wide.bind m (fun _ => k))
  (at level 61, right associativity) : wide_scope.
End Notations.

End Exc.

(* ====================================================================== *)
(** * The back end, [server.py] *)
(* ====================================================================== *)

Module Server.
Import Py Exc Exc.Notations.
Local Open Scope py_scope.

(** ** The Houdini scripting API, [hou]

    The scene is the state [world]; every call into [hou] may mutate it and
    may raise.  A [hou.Node] / [hou.Parm] object is truthy, a lookup that
    finds nothing returns [None]. *)
Record HouAPI : Type := {
  world : Type;
  node : Type;
  parm : Type;
  (** [getattr(hou.session, "houdinimcp_use_assetlib", False)] *)
  session_use_assetlib : world -> json;
  (** [hou.node(path)] *)
  hou_node : json -> M world (option node);
  (** [n.name()], [n.path()] *)
  node_name : node -> M world string;
  node_path : node -> M world string;
  (** [n.type().name()], [n.type().category().name()] *)
  node_type_name : node -> M world string;
  node_category_name : node -> M world string;
  (** [list(n.position())] *)
  node_position : node -> M world json;
  (** [n.setName(name)], [n.setPosition([x, y])], [n.destroy()] *)
  node_setName : node -> json -> M world unit;
  node_setPosition : node -> json -> json -> M world unit;
  node_destroy : node -> M world unit;
  (** [n.node(name)], [n.children()], [n.createNode(type, name)] *)
  node_node : node -> json -> M world (option node);
  node_children : node -> M world (list node);
  node_createNode : node -> json -> json -> M world node;
  (** [n.isDisplayFlagSet()], [n.setFirstInput(m)], [n.setDisplayFlag(b)],
      [n.setRenderFlag(b)] *)
  node_isDisplayFlagSet : node -> M world bool;
  node_setFirstInput : node -> node -> M world unit;
  node_setDisplayFlag : node -> bool -> M world unit;
  node_setRenderFlag : node -> bool -> M world unit;
  (** [n.parm(name)], [p.eval()], [p.set(v)] *)
  node_parm : node -> string -> M world (option parm);
  parm_eval : parm -> M world json;
  parm_set : parm -> json -> M world unit;
  (** [exec(code, {"hou": hou})]: it runs the text it is given, which can
      raise anything, also an exception outside [Exception] *)
  py_exec : json -> X world unit;
  (** The bodies of [get_scene_info] and [get_node_info]: walks over the
      scene that build a report; the dispatcher only calls them. *)
  get_scene_info : M world json;
  get_node_info : json -> M world json
}.

Section Handlers.
Variable rt : Runtime.
Variable hou : HouAPI.

Local Abbreviation W := (world hou).

(** ** Pieces shared by the handlers *)

(** [x.items()] *)
Definition py_items (j : json) : outcome (list (string * json)) :=
  match j with
  | JDict d => Returned d
  | _ => Raised (rt_raise rt (NoAttribute j "items"))
  end.

(** [if position and len(position) >= 2:
       node.setPosition([position[0], position[1]])]
    answering whether the branch was taken. *)
Definition set_position_if_given (n : node hou) (position : json)
  : M W bool :=
  if truthy position then
    len <- lift (py_len rt position) ;;
    if (2 <=? len)%nat then
      p0 <- lift (py_getitem rt position 0) ;;
      p1 <- lift (py_getitem rt position 1) ;;
      node_setPosition hou n p0 p1 ;;
      ret true
    else ret false
  else ret false.

(** [if parameters:
       for k, v in parameters.items():
           p = node.parm(k)
           if p: p.set(v)] *)
Definition set_parms_if_given (n : node hou) (parameters : json)
  : M W unit :=
  if truthy parameters then
    items <- lift (py_items parameters) ;;
    for_each items tt (fun kv _ =>
      p <- node_parm hou n (fst kv) ;;
      match p with
      | Some p => parm_set hou p (snd kv)
      | None => ret tt
      end)
  else ret tt.

(** ** [get_asset_lib_status] *)
Definition get_asset_lib_status : M W json :=
  w <- get ;;
  let use_assetlib := session_use_assetlib hou w in
  let msg := if truthy use_assetlib
             then "Asset library usage is enabled."
             else "Asset library usage is disabled." in
  ret (JDict [("enabled", use_assetlib); ("message", JStr msg)]).

(** ** [create_node] *)
Definition create_node (node_type parent_path name position parameters : json)
  : M W json :=
  try_except
    (parent <- hou_node hou parent_path ;;
     match parent with
     | None =>
         raise (mkExn ValueError
                  ("Parent path not found: " ++ py_str rt parent_path))
     | Some parent =>
         n <- node_createNode hou parent node_type name ;;
         set_position_if_given n position ;;
         set_parms_if_given n parameters ;;
         nm <- node_name hou n ;;
         pth <- node_path hou n ;;
         ty <- node_type_name hou n ;;
         pos <- node_position hou n ;;
         ret (JDict [("name", JStr nm); ("path", JStr pth);
                     ("type", JStr ty); ("position", pos)])
     end)
    [(is_Exception, fun e =>
        raise (mkExn PlainException
                 ("Failed to create node: " ++ exn_str e)))].

(** ** [modify_node] *)

(** One round of the parameter loop: [changes] is the log so far. *)
Definition modify_parm (n : node hou) (kv : string * json)
    (changes : list string) : M W (list string) :=
  let p_name := fst kv in
  let p_val := snd kv in
  p <- node_parm hou n p_name ;;
  match p with
  | Some p =>
      old_val <- parm_eval hou p ;;
      parm_set hou p p_val ;;
      ret (append changes ("Parameter " ++ p_name ++ " changed from "
                             ++ py_str rt old_val ++ " to "
                             ++ py_str rt p_val))
  | None => ret changes
  end.

Definition modify_node (path parameters position name : json) : M W json :=
  n <- hou_node hou path ;;
  match n with
  | None => raise (mkExn ValueError ("Node not found: " ++ py_str rt path))
  | Some n =>
      let changes := [] in
      old_name <- node_name hou n ;;
      changes <-
        (if truthy name && py_ne_str name old_name then
           node_setName hou n name ;;
           ret (append changes ("Renamed from " ++ old_name ++ " to "
                                  ++ py_str rt name))
         else ret changes) ;;
      moved <- set_position_if_given n position ;;
      let changes :=
        if moved
        then append changes ("Position set to " ++ py_str rt position)
        else changes in
      changes <-
        (if truthy parameters then
           items <- lift (py_items parameters) ;;
           for_each items changes (modify_parm n)
         else ret changes) ;;
      pth <- node_path hou n ;;
      ret (JDict [("path", JStr pth);
                  ("changes", JList (map JStr changes))])
  end.

(** ** [delete_node] *)
Definition delete_node (path : json) : M W json :=
  n <- hou_node hou path ;;
  match n with
  | None => raise (mkExn ValueError ("Node not found: " ++ py_str rt path))
  | Some n =>
      node_path_ <- node_path hou n ;;
      node_name_ <- node_name hou n ;;
      node_destroy hou n ;;
      ret (JDict [("deleted", JStr node_path_); ("name", JStr node_name_)])
  end.

(** ** [execute_code]

    The one handler that runs foreign text. *)
Definition execute_code (code : json) : X W json :=
  Wide.try_except
    (py_exec hou code ;;
     Wide.ret (JDict [("executed", JBool true)]))%wide
    [(is_Exception, fun e =>
        Wide.raise (mkExn PlainException
                      ("Code execution error: " ++ exn_str e)))].

(** ** [set_material] *)

(** [for c in geo_sop.children():
       if c.isDisplayFlagSet(): first_sop = c; break] *)
Fixpoint first_displayed (cs : list (node hou)) : M W (option (node hou)) :=
  match cs with
  | [] => ret None
  | c :: r =>
      shown <- node_isDisplayFlagSet hou c ;;
      if shown then ret (Some c) else first_displayed r
  end.

(** The [try] block of [set_material]. *)
Definition set_material_try
    (node_path_ material_type name parameters : json) : M W json :=
  target_node <- hou_node hou node_path_ ;;
  match target_node with
  | None =>
      raise (mkExn ValueError ("Node not found: " ++ py_str rt node_path_))
  | Some target_node =>
      category <- node_category_name hou target_node ;;
      if negb (String.eqb category "Object") then
        raise (mkExn ValueError
                 ("Node " ++ py_str rt node_path_
                  ++ " is not an OBJ-level node and cannot accept direct materials."))
      else
        mat_context <- hou_node hou (JStr "/mat") ;;
        mat_context <-
          match mat_context with
          | Some c => ret c
          | None =>
              shop <- hou_node hou (JStr "/shop") ;;
              match shop with
              | Some c => ret c
              | None =>
                  raise (mkExn RuntimeError
                    "No /mat or /shop context found to create materials.")
              end
          end ;;
        let mat_name :=
          if truthy name then name
          else JStr (py_str rt material_type ++ "_auto") in
        mat_node <- node_node hou mat_context mat_name ;;
        mat_node <-
          match mat_node with
          | Some m => ret m
          | None => node_createNode hou mat_context material_type mat_name
          end ;;
        set_parms_if_given mat_node parameters ;;
        mat_parm <- node_parm hou target_node "shop_materialpath" ;;
        match mat_parm with
        | Some mat_parm =>
            mp <- node_path hou mat_node ;;
            parm_set hou mat_parm (JStr mp)
        | None =>
            geo_sop <- node_node hou target_node (JStr "geometry") ;;
            match geo_sop with
            | None =>
                raise (mkExn RuntimeError
                  "No 'geometry' node found inside OBJ to apply material to.")
            | Some geo_sop =>
                material_sop <- node_node hou geo_sop (JStr "material1") ;;
                material_sop <-
                  match material_sop with
                  | Some m => ret m
                  | None =>
                      m <- node_createNode hou geo_sop (JStr "material")
                             (JStr "material1") ;;
                      cs <- node_children hou geo_sop ;;
                      first_sop <- first_displayed cs ;;
                      match first_sop with
                      | Some f => node_setFirstInput hou m f
                      | None => ret tt
                      end ;;
                      node_setDisplayFlag hou m true ;;
                      node_setRenderFlag hou m true ;;
                      ret m
                  end ;;
                mat_sop_parm <- node_parm hou material_sop
                                  "shop_materialpath1" ;;
                match mat_sop_parm with
                | Some q =>
                    mp <- node_path hou mat_node ;;
                    parm_set hou q (JStr mp)
                | None =>
                    raise (mkExn RuntimeError
                      "No shop_materialpath1 on Material SOP to assign the material.")
                end
            end
        end ;;
        material_node <- node_path hou mat_node ;;
        applied_to <- node_path hou target_node ;;
        ret (JDict [("status", JStr "ok");
                    ("material_node", JStr material_node);
                    ("applied_to", JStr applied_to)])
  end.

(** The [except Exception as e:] clause of [set_material]. *)
Definition set_material_error (node_path_ : json) (e : exn) : json :=
  JDict [("status", JStr "error"); ("message", JStr (exn_str e));
         ("node", node_path_)].

Definition set_material
    (node_path_ material_type name parameters : json) : M W json :=
  try_except
    (set_material_try node_path_ material_type name parameters)
    [(is_Exception, fun e => ret (set_material_error node_path_ e))].

(** ** Placeholder asset library methods *)
Definition get_asset_categories : M W json :=
  ret (JDict [("error", JStr "get_asset_categories not implemented")]).

Definition search_assets : M W json :=
  ret (JDict [("error", JStr "search_assets not implemented")]).

Definition import_asset : M W json :=
  ret (JDict [("error", JStr "import_asset not implemented")]).

(** ** Calling a handler with keyword arguments

    What [def] declares: the parameters without a default and those with
    one ([self] is bound already). *)
Record signature : Type := {
  sig_name : string;
  sig_required : list string;
  sig_optional : list (string * json)
}.

Definition mem (k : string) (l : list string) : bool :=
  existsb (String.eqb k) l.

Definition parameters_of (sg : signature) : list string :=
  (sig_required sg ++ map fst (sig_optional sg))%list.

(** The keyword part of the call [handler( **params )]: [params] must be a
    dict, each of its keys a parameter of the handler and each parameter
    without default among its keys; otherwise the call raises [TypeError]
    before the body runs. *)
Definition bind_keywords (sg : signature) (params : json)
  : outcome (list (string * json)) :=
  match params with
  | JDict kw =>
      let given := map fst kw in
      if forallb (fun k => mem k (parameters_of sg)) given
         && forallb (fun r => mem r given) (sig_required sg)
      then Returned kw
      else Raised (rt_raise rt (BadKeywords (sig_name sg) given))
  | _ => Raised (rt_raise rt (NotAMapping (sig_name sg) params))
  end.

(** The value a parameter is bound to: the keyword given, or the default. *)
Definition argument (sg : signature) (kw : list (string * json))
    (name : string) : json :=
  match assoc name kw with
  | Some v => v
  | None =>
      match assoc name (sig_optional sg) with
      | Some v => v
      | None => JNull
      end
  end.

(** A bound method: what its [def] declares and its body, which reads
    its parameters by name.  A body may run foreign text ([execute_code]
    does); the others are [Wide.ordinary]. *)
Record method : Type := {
  method_sig : signature;
  method_body : (string -> json) -> X W json
}.

(** The call [handler( **params )]. *)
Definition call (h : method) (params : json) : X W json :=
  (kw <- Wide.lift (bind_keywords (method_sig h) params) ;;
   method_body h (argument (method_sig h) kw))%wide.

Definition no_parameters (name : string) : signature :=
  {| sig_name := name; sig_required := []; sig_optional := [] |}.

Definition self_get_scene_info : method :=
  {| method_sig := no_parameters "get_scene_info";
     method_body := fun _ => Wide.ordinary (get_scene_info hou) |}.

Definition self_create_node : method :=
  {| method_sig :=
       {| sig_name := "create_node";
          sig_required := ["node_type"];
          sig_optional := [("parent_path", JStr "/obj"); ("name", JNull);
                           ("position", JNull); ("parameters", JNull)] |};
     method_body := fun a =>
       Wide.ordinary
         (create_node (a "node_type") (a "parent_path") (a "name")
            (a "position") (a "parameters")) |}.

Definition self_modify_node : method :=
  {| method_sig :=
       {| sig_name := "modify_node";
          sig_required := ["path"];
          sig_optional := [("parameters", JNull); ("position", JNull);
                           ("name", JNull)] |};
     method_body := fun a =>
       Wide.ordinary
         (modify_node (a "path") (a "parameters") (a "position")
            (a "name")) |}.

Definition self_delete_node : method :=
  {| method_sig :=
       {| sig_name := "delete_node"; sig_required := ["path"];
          sig_optional := [] |};
     method_body := fun a => Wide.ordinary (delete_node (a "path")) |}.

Definition self_get_node_info : method :=
  {| method_sig :=
       {| sig_name := "get_node_info"; sig_required := ["path"];
          sig_optional := [] |};
     method_body := fun a =>
       Wide.ordinary (get_node_info hou (a "path")) |}.

Definition self_execute_code : method :=
  {| method_sig :=
       {| sig_name := "execute_code"; sig_required := ["code"];
          sig_optional := [] |};
     method_body := fun a => execute_code (a "code") |}.

Definition self_set_material : method :=
  {| method_sig :=
       {| sig_name := "set_material";
          sig_required := ["node_path"];
          sig_optional := [("material_type", JStr "principledshader");
                           ("name", JNull); ("parameters", JNull)] |};
     method_body := fun a =>
       Wide.ordinary
         (set_material (a "node_path") (a "material_type") (a "name")
            (a "parameters")) |}.

Definition self_get_asset_lib_status : method :=
  {| method_sig := no_parameters "get_asset_lib_status";
     method_body := fun _ => Wide.ordinary get_asset_lib_status |}.

Definition self_get_asset_categories : method :=
  {| method_sig := no_parameters "get_asset_categories";
     method_body := fun _ => Wide.ordinary get_asset_categories |}.

Definition self_search_assets : method :=
  {| method_sig := no_parameters "search_assets";
     method_body := fun _ => Wide.ordinary search_assets |}.

Definition self_import_asset : method :=
  {| method_sig := no_parameters "import_asset";
     method_body := fun _ => Wide.ordinary import_asset |}.

(** ** The dispatch table *)

(** [handlers = { ... }], the always-available handlers. *)
Definition base_handlers : list (string * method) :=
  [ ("get_scene_info", self_get_scene_info);
    ("create_node", self_create_node);
    ("modify_node", self_modify_node);
    ("delete_node", self_delete_node);
    ("get_node_info", self_get_node_info);
    ("execute_code", self_execute_code);
    ("set_material", self_set_material);
    ("get_asset_lib_status", self_get_asset_lib_status) ].

(** [asset_handlers = { ... }] *)
Definition asset_handlers : list (string * method) :=
  [ ("get_asset_categories", self_get_asset_categories);
    ("search_assets", self_search_assets);
    ("import_asset", self_import_asset) ].

(** The table as [_execute_command_internal] builds it: the asset
    handlers are added when the toggle on [hou.session] is truthy. *)
Definition handlers (w : W) : list (string * method) :=
  if truthy (session_use_assetlib hou w)
  then (base_handlers ++ asset_handlers)%list
  else base_handlers.

(** [command.get(key, default)] *)
Definition py_get (command : json) (key : string) (default : json)
  : outcome json :=
  match command with
  | JDict d => Returned (dict_get d key default)
  | _ => Raised (rt_raise rt (NoAttribute command "get"))
  end.

(** [handlers.get(cmd_type)]: a list or dict cannot be hashed; any other
    value that is not a [str] equals no key. *)
Definition handlers_get (table : list (string * method)) (cmd_type : json)
  : outcome (option method) :=
  match cmd_type with
  | JStr k => Returned (assoc k table)
  | JList _ | JDict _ => Raised (rt_raise rt (Unhashable cmd_type))
  | _ => Returned None
  end.

(** Whether [cmd_type] is one of the keys of the table. *)
Definition is_key (table : list (string * method)) (cmd_type : json)
  : bool :=
  match cmd_type with
  | JStr k => match assoc k table with Some _ => true | None => false end
  | _ => false
  end.

(** ** [_execute_command_internal] and [execute_command] *)

Definition success_envelope (result : json) : json :=
  JDict [("status", JStr "success"); ("result", result)].

Definition error_envelope (message : string) : json :=
  JDict [("status", JStr "error"); ("message", JStr message)].

Definition _execute_command_internal (command : json) : X W json :=
  (cmd_type <- Wide.lift (py_get command "type" JNull) ;;
   params <- Wide.lift (py_get command "params" (JDict [])) ;;
   w <- Wide.get ;;
   h <- Wide.lift (handlers_get (handlers w) cmd_type) ;;
   match h with
   | None =>
       Wide.ret
         (error_envelope ("Unknown command type: " ++ py_str rt cmd_type))
   | Some h =>
       result <- call h params ;;
       Wide.ret (success_envelope result)
   end)%wide.

Definition execute_command (command : json) : X W json :=
  Wide.try_except (_execute_command_internal command)
    [(is_Exception, fun e => Wide.ret (error_envelope (exn_str e)))].

End Handlers.

(** ** Reading a change log

    What the parameter loop of [modify_node] did with one entry of
    [parameters]: the entry, the scene the lookup [node.parm(k)] ran in,
    and the old value when the name resolved to a parameter. *)
Section ChangeLog.
Variable rt : Runtime.
Variable hou : HouAPI.

Record parm_step : Type := {
  step_key : string;
  step_value : json;
  step_scene : world hou;
  step_old : option json
}.

(** The log line of a step: one line when the parameter resolved, none
    when it did not. *)
Definition step_entry (s : parm_step) : list string :=
  match step_old s with
  | Some old =>
      ["Parameter " ++ step_key s ++ " changed from " ++ py_str rt old
         ++ " to " ++ py_str rt (step_value s)]
  | None => []
  end.

(** The step tells what happened on node [n]. *)
Definition step_on (n : node hou) (s : parm_step) : Prop :=
  match step_old s with
  | Some old =>
      exists p w1 w2,
        node_parm hou n (step_key s) (step_scene s) = (Returned (Some p), w1)
        /\ parm_eval hou p w1 = (Returned old, w2)
  | None =>
      exists w1,
        node_parm hou n (step_key s) (step_scene s) = (Returned None, w1)
  end.

(** The entries of the [parameters] argument in the caller's order; a
    falsy argument has none. *)
Definition entries_of (parameters : json) : list (string * json) :=
  match parameters with
  | JDict d => d
  | _ => []
  end.

(** Whether [position] is a sequence of length two or more. *)
Definition position_given (position : json) : bool :=
  match py_len rt position with
  | Returned len => truthy position && (2 <=? len)%nat
  | Raised _ => false
  end.

(** The rename line, present when a truthy name other than the old one
    was given. *)
Definition rename_entry (name : json) (old_name : string) : list string :=
  if truthy name && py_ne_str name old_name
  then ["Renamed from " ++ old_name ++ " to " ++ py_str rt name]
  else [].

(** The position line, present when a position was given. *)
Definition position_entry (position : json) : list string :=
  if position_given position
  then ["Position set to " ++ py_str rt position]
  else [].

(** A change log in the order rename, position, parameters. *)
Definition change_log (name : json) (old_name : string) (position : json)
    (steps : list parm_step) : list string :=
  List.app (rename_entry name old_name)
    (List.app (position_entry position) (flat_map step_entry steps)).

End ChangeLog.

Arguments step_key {hou} _.
Arguments step_value {hou} _.
Arguments step_scene {hou} _.
Arguments step_old {hou} _.
Arguments method_sig {hou} _.
Arguments method_body {hou} _.
Arguments is_key {hou} table cmd_type.

(** ** The poll loop *)

(** The fields of [HoudiniMCPServer] the loop uses.  A socket object is
    named by a number; [None] is [None]. *)
Record server : Type := {
  running : bool;
  socket : option nat;
  client : option nat;
  buffer : list byte
}.

(** What the sockets answer during one timer tick.  The loop makes at most
    one [accept], [setblocking], [recv] and [sendall] per tick, and up to
    two [close] calls. *)
Record tick_io : Type := {
  io_accept : outcome nat;
  io_setblocking : outcome unit;
  io_recv : outcome (list byte);
  io_sendall : outcome unit;
  io_close : list (outcome unit)
}.

(** What a tick does to the outside. *)
Inductive event : Type :=
| Accepted (c : nat)
| Executed (command : json)
| SendAll (c : nat) (data : list byte)
| Closed (c : nat).

Definition would_block : exn :=
  mkExn BlockingIOError "Resource temporarily unavailable".

(** A tick in which [data] arrives from the client, no connection is
    waiting to be accepted, and sending and closing succeed. *)
Definition receive (data : list byte) : tick_io :=
  {| io_accept := Raised would_block;
     io_setblocking := Returned tt;
     io_recv := Returned data;
     io_sendall := Returned tt;
     io_close := [] |}.

(** [self.buffer = buf] *)
Definition with_buffer (s : server) (buf : list byte) : server :=
  {| running := running s; socket := socket s; client := client s;
     buffer := buf |}.

(** [self.client = None; self.buffer = b''] *)
Definition without_client (s : server) : server :=
  {| running := running s; socket := socket s; client := None;
     buffer := [] |}.

Section PollLoop.
Variable rt : Runtime.
Variable hou : HouAPI.

(** The tick dispatches commands, so it runs over [completion]: in this
    section [ret], [bind], [lift], [try_except] and the sequence notation
    are the ones of [Wide]. *)
Import Wide.
Local Open Scope wide_scope.

(** The state one tick runs in: the server object, the scene, what is
    left of the sockets' answers, and the events so far. *)
Record proc : Type := {
  self : server;
  scene : world hou;
  env : tick_io;
  trace : list event
}.

Definition set_self (f : server -> server) : X proc unit :=
  modify (fun p => {| self := f (self p); scene := scene p;
                      env := env p; trace := trace p |}).

Definition set_client (c : option nat) : X proc unit :=
  set_self (fun s => {| running := running s; socket := socket s;
                        client := c; buffer := buffer s |}).

Definition set_buffer (b : list byte) : X proc unit :=
  set_self (fun s => {| running := running s; socket := socket s;
                        client := client s; buffer := b |}).

Definition emit (e : event) : X proc unit :=
  modify (fun p => {| self := self p; scene := scene p; env := env p;
                      trace := append (trace p) e |}).

(** [self.socket.accept()] *)
Definition socket_accept : X proc nat :=
  p <- get ;;
  c <- lift (io_accept (env p)) ;;
  emit (Accepted c) ;;
  ret c.

(** [self.client.setblocking(False)] *)
Definition client_setblocking : X proc unit :=
  p <- get ;; lift (io_setblocking (env p)).

(** [self.client.recv(8192)] *)
Definition client_recv : X proc (list byte) :=
  p <- get ;; lift (io_recv (env p)).

(** [self.client.sendall(data)] *)
Definition client_sendall (c : nat) (data : list byte) : X proc unit :=
  emit (SendAll c data) ;;
  p <- get ;; lift (io_sendall (env p)).

(** [self.client.close()] *)
Definition client_close (c : nat) : X proc unit :=
  emit (Closed c) ;;
  p <- get ;;
  match io_close (env p) with
  | [] => ret tt
  | r :: rest =>
      modify (fun p =>
        {| self := self p; scene := scene p;
           env := {| io_accept := io_accept (env p);
                     io_setblocking := io_setblocking (env p);
                     io_recv := io_recv (env p);
                     io_sendall := io_sendall (env p);
                     io_close := rest |};
           trace := trace p |}) ;;
      lift r
  end.

(** [self.execute_command(command)], run on the scene. *)
Definition self_execute_command (command : json) : X proc json :=
  emit (Executed command) ;;
  fun p =>
    let '(r, w') := execute_command rt hou command (scene p) in
    (r, {| self := self p; scene := w'; env := env p; trace := trace p |}).

(** [self.client.close(); self.client = None; self.buffer = b''] *)
Definition drop_client (c : nat) : X proc unit :=
  client_close c ;;
  set_client None ;;
  set_buffer [].

Definition is_empty (data : list byte) : bool :=
  match data with [] => true | _ => false end.

(** [json.loads(self.buffer.decode('utf-8'))] *)
Definition parse_buffer (buf : list byte) : outcome json :=
  match decode_utf8 buf with
  | Returned text => json_loads rt text
  | Raised e => Raised e
  end.

(** The first block of [_process_server]: accept a new connection when
    there is no client. *)
Definition accept_connection : X proc unit :=
  p <- get ;;
  match client (self p), socket (self p) with
  | None, Some _ =>
      try_except
        (c <- socket_accept ;;
         set_client (Some c) ;;
         client_setblocking)
        [(is_class BlockingIOError, fun _ => ret tt);
         (is_Exception, fun _ => ret tt)]
  | _, _ => ret tt
  end.

(** The second block: process data from the existing client [c]. *)
Definition process_client (c : nat) : X proc unit :=
  try_except
    (data <- client_recv ;;
     if negb (is_empty data) then
       p <- get ;;
       set_buffer (buffer (self p) ++ data)%list ;;
       try_except
         (p <- get ;;
          (* Attempt to parse JSON *)
          command <- lift (parse_buffer (buffer (self p))) ;;
          (* If successful, clear the buffer and process *)
          set_buffer [] ;;
          response <- self_execute_command command ;;
          let response_json := json_dumps rt response in
          client_sendall c (encode_utf8 response_json))
         [(is_class JSONDecodeError, fun _ => ret tt)]
     else
       (* Connection closed by client *)
       drop_client c)
    [(is_class BlockingIOError, fun _ => ret tt);
     (is_Exception, fun _ => drop_client c)].

(** [_process_server], the timer callback. *)
Definition _process_server : X proc unit :=
  p <- get ;;
  if negb (running (self p)) then ret tt
  else
    try_except
      (accept_connection ;;
       p <- get ;;
       match client (self p) with
       | Some c => process_client c
       | None => ret tt
       end)
      [(is_Exception, fun _ => ret tt)].

(** How the timer callback ends: it returns, or an exception outside
    [Exception] leaves it for the event loop of Qt. *)
Definition tick_completion (io : tick_io) (s : server) (w : world hou)
  : completion unit :=
  fst (_process_server {| self := s; scene := w; env := io; trace := [] |}).

(** One timer tick, seen from outside: the server object, the scene and
    the events it leaves behind, however it ends. *)
Definition tick (io : tick_io) (s : server) (w : world hou)
  : server * world hou * list event :=
  let p := snd (_process_server
                  {| self := s; scene := w; env := io; trace := [] |}) in
  (self p, scene p, trace p).

(** A run of the timer: one [tick_io] per tick. *)
Fixpoint run (ios : list tick_io) (s : server) (w : world hou)
  : server * world hou * list event :=
  match ios with
  | [] => (s, w, [])
  | io :: rest =>
      let '(s1, w1, t1) := tick io s w in
      let '(s2, w2, t2) := run rest s1 w1 in
      (s2, w2, (t1 ++ t2)%list)
  end.

(** ** Reading a tick *)

(** The client the second block of the tick reads from: the one already
    connected, or the one the first block accepts. *)
Definition receiving_client (io : tick_io) (s : server) : option nat :=
  match client s, socket s with
  | Some c, _ => Some c
  | None, Some _ =>
      match io_accept io with
      | Returned c => Some c
      | Raised _ => None
      end
  | None, None => None
  end.

(** An event that is a dispatch or a write to the client. *)
Definition is_output (e : event) : bool :=
  match e with
  | Executed _ | SendAll _ _ => true
  | Accepted _ | Closed _ => false
  end.

(** Along a run, the buffer accumulated at a tick that receives bytes
    never parses as a JSON document. *)
Fixpoint never_parses (ios : list tick_io) (s : server) (w : world hou)
  : Prop :=
  match ios with
  | [] => True
  | io :: rest =>
      (forall c data command,
          running s = true ->
          receiving_client io s = Some c ->
          io_recv io = Returned data ->
          data <> [] ->
          parse_buffer (buffer s ++ data)%list <> Returned command)
      /\ never_parses rest (fst (fst (tick io s w))) (snd (fst (tick io s w)))
  end.

End PollLoop.

Arguments self {hou} _.
Arguments scene {hou} _.
Arguments env {hou} _.
Arguments trace {hou} _.

End Server.

(* ====================================================================== *)
(** * The front end, [houdini_mcp_server.py] *)
(* ====================================================================== *)

Module Client.
Import Py Exc Exc.Notations.
Local Open Scope py_scope.

(** The dataclass [HoudiniConnection]; a socket object is named by a
    number. *)
Record HoudiniConnection : Type := {
  host : string;
  port : Z;
  sock : option nat
}.

(** What the network answers during one call of [send_command]: the call
    creates and connects at most one socket, sends once, sets the timeout
    once and closes at most once; [io_recv] lists what the successive
    [recv] calls answer, and once the peer has said all of that it stays
    silent, so the next [recv] times out. *)
Record call_io : Type := {
  io_socket : outcome nat;
  io_connect : outcome unit;
  io_sendall : outcome unit;
  io_settimeout : outcome unit;
  io_recv : list (outcome (list byte));
  io_close : outcome unit
}.

(** What a call does to the outside. *)
Inductive event : Type :=
| NewSocket
| Connect (s : nat) (h : string) (p : Z)
| SendAll (s : nat) (data : list byte)
| Recv (s : nat)
| Close (s : nat).

(** The state a method runs in: the connection object and the events so
    far. *)
Record cstate : Type := {
  this : HoudiniConnection;
  trace : list event
}.

Definition set_sock (s : option nat) : M cstate unit :=
  modify (fun st =>
    {| this := {| host := host (this st); port := port (this st);
                  sock := s |};
       trace := trace st |}).

Definition emit (e : event) : M cstate unit :=
  modify (fun st => {| this := this st; trace := append (trace st) e |}).

Definition timed_out : exn := mkExn SocketTimeout "timed out".

(** The socket a call of [send_command] works with when [connect()]
    answers [True]: the one already there, or the one it opens. *)
Definition socket_in_use (io : call_io) (c : HoudiniConnection)
  : option nat :=
  match sock c with
  | Some s => Some s
  | None =>
      match io_socket io, io_connect io with
      | Returned s, Returned _ => Some s
      | _, _ => None
      end
  end.

(** The events of opening the connection: none when it is open already. *)
Definition opening (c : HoudiniConnection) (s : nat) : list event :=
  match sock c with
  | Some _ => []
  | None => [NewSocket; Connect s (host c) (port c)]
  end.

Definition is_recv (e : event) : bool :=
  match e with
  | Recv _ => true
  | _ => false
  end.

Section Methods.
Variable rt : Runtime.
Variable io : call_io.

(** [connect] *)
Definition connect : M cstate bool :=
  st <- get ;;
  match sock (this st) with
  | Some _ => ret true
  | None =>
      try_except
        (emit NewSocket ;;
         s <- lift (io_socket io) ;;
         set_sock (Some s) ;;
         emit (Connect s (host (this st)) (port (this st))) ;;
         lift (io_connect io) ;;
         ret true)
        [(is_Exception, fun _ => set_sock None ;; ret false)]
  end.

(** [disconnect] *)
Definition disconnect : M cstate unit :=
  st <- get ;;
  match sock (this st) with
  | Some s =>
      try_except
        (emit (Close s) ;; lift (io_close io))
        [(is_Exception, fun _ => ret tt)] ;;
      set_sock None
  | None => ret tt
  end.

(** The [while True:] loop of [send_command]; it ends by [return parsed]
    ([Some parsed]) or by [break] ([None]). *)
Fixpoint read_loop (s : nat) (answers : list (outcome (list byte)))
    (chunks : list (list byte)) : M cstate (option json) :=
  match answers with
  | [] => emit (Recv s) ;; raise timed_out
  | a :: rest =>
      emit (Recv s) ;;
      chunk <- lift a ;;
      match chunk with
      | [] => ret None
      | _ =>
          let chunks := append chunks chunk in
          parsed <-
            try_except
              (let combined := List.concat chunks in
               text <- lift (decode_utf8 combined) ;;
               parsed <- lift (json_loads rt text) ;;
               ret (Some parsed))
              [(is_class JSONDecodeError, fun _ => ret None)] ;;
          match parsed with
          | Some parsed => ret (Some parsed)
          | None => read_loop s rest chunks
          end
      end
  end.

(** [self.sock.sendall(data)] and what follows in the [try] block; when
    [self.sock] is [None] the attribute access raises. *)
Definition send_command_try (data : list byte) : M cstate json :=
  st <- get ;;
  match sock (this st) with
  | None =>
      raise (rt_raise rt (NoAttribute JNull "sendall"))
  | Some s =>
      emit (SendAll s data) ;;
      lift (io_sendall io) ;;
      lift (io_settimeout io) ;;
      parsed <- read_loop s (io_recv io) [] ;;
      match parsed with
      | Some parsed => ret parsed
      | None =>
          raise (mkExn PlainException
                   "No (or incomplete) data from Houdini; EOF reached.")
      end
  end.

(** [json.dumps({"type": cmd_type, "params": params or {}})
       .encode("utf-8")] *)
Definition data_out (cmd_type params : json) : list byte :=
  let command :=
    JDict [("type", cmd_type);
           ("params", if truthy params then params else JDict [])] in
  encode_utf8 (json_dumps rt command).

(** [send_command] *)
Definition send_command (cmd_type params : json) : M cstate json :=
  ok <- connect ;;
  if negb ok then
    raise (mkExn ConnectionError "Could not connect to Houdini on port 9876.")
  else
    try_except
      (send_command_try (data_out cmd_type params))
      [(is_Exception, fun e => disconnect ;; raise e)].

End Methods.

End Client.

(* ====================================================================== *)
(** * A small concrete environment

    A runtime and a scene on which the embedded code can be run: the scene
    is a set of node paths with parameter values; the serialiser writes
    compact JSON and the parser knows the commands listed in
    [known_commands]. *)
(* ====================================================================== *)

Module Demo.
Import Py Exc Exc.Notations.
Local Open Scope py_scope.

Definition quote : string := String (ascii_of_nat 34) EmptyString.

Fixpoint dumps (j : json) : string :=
  match j with
  | JNull => "null"
  | JBool true => "true"
  | JBool false => "false"
  | JInt z => string_of_Z z
  | JFloat _ => "0.0"
  | JStr s => quote ++ s ++ quote
  | JList l =>
      "[" ++ (fix items (l : list json) : string :=
                match l with
                | [] => ""
                | [x] => dumps x
                | x :: r => dumps x ++ ", " ++ items r
                end) l ++ "]"
  | JDict d =>
      "{" ++ (fix items (d : list (string * json)) : string :=
                match d with
                | [] => ""
                | [(k, v)] => quote ++ k ++ quote ++ ": " ++ dumps v
                | (k, v) :: r =>
                    quote ++ k ++ quote ++ ": " ++ dumps v ++ ", " ++ items r
                end) d ++ "}"
  end.

(** A command whose text holds a character outside ASCII. *)
Definition cafe : string :=
  "caf" ++ String (ascii_of_nat 195) (String (ascii_of_nat 169) EmptyString).

Definition known_commands : list json :=
  [ JDict [("type", JStr "get_asset_lib_status")];
    JDict [("type", JStr "bogus"); ("params", JDict [])];
    JDict [("type", JStr "delete_node");
           ("params", JDict [("path", JStr "/obj/missing")])];
    JDict [("type", JStr cafe)];
    JDict [("type", JStr "execute_code");
           ("params", JDict [("code", JStr "raise SystemExit(3)")])] ].

Definition loads (text : string) : outcome json :=
  match find (fun c => String.eqb (dumps c) text) known_commands with
  | Some c => Returned c
  | None => Raised (mkExn JSONDecodeError "Expecting value")
  end.

Definition runtime : Runtime :=
  {| rt_repr := dumps;
     rt_message := fun r =>
       match r with
       | NoAttribute _ a => "object has no attribute " ++ a
       | Unhashable _ => "unhashable type"
       | NotAMapping f _ => f ++ "() argument after ** must be a mapping"
       | BadKeywords f _ => f ++ "() got unexpected or missing arguments"
       | NoLen _ => "object has no len()"
       | NotSubscriptable _ => "object is not subscriptable"
       | IndexOutOfRange _ _ => "index out of range"
       | MissingKey i => string_of_Z (Z.of_nat i)
       end;
     json_loads := loads;
     json_dumps := dumps |}.

(** The scene: node paths, parameter values by node path and name, and the
    session attribute. *)
Record scene : Type := {
  paths : list string;
  values : list (string * string * json);
  use_assetlib : json
}.

Definition has_path (p : string) (w : scene) : bool :=
  existsb (String.eqb p) (paths w).

Definition same_parm (p q : string * string) : bool :=
  String.eqb (fst p) (fst q) && String.eqb (snd p) (snd q).

Definition read_parm (p : string * string) (w : scene) : option json :=
  match find (fun e => same_parm (fst e) p) (values w) with
  | Some e => Some (snd e)
  | None => None
  end.

Definition write_parm (p : string * string) (v : json) (w : scene) : scene :=
  {| paths := paths w;
     values := map (fun e => if same_parm (fst e) p then (fst e, v) else e)
                   (values w);
     use_assetlib := use_assetlib w |}.

Definition add_path (p : string) (w : scene) : scene :=
  {| paths := append (paths w) p; values := values w;
     use_assetlib := use_assetlib w |}.

Definition remove_path (p : string) (w : scene) : scene :=
  {| paths := filter (fun q => negb (String.eqb p q)) (paths w);
     values := values w; use_assetlib := use_assetlib w |}.

Definition operation_failed (msg : string) : exn :=
  mkExn (HostError "OperationFailed") msg.

(** The part of a path after its last slash. *)
Fixpoint basename_aux (acc : string) (s : string) : string :=
  match s with
  | EmptyString => acc
  | String a r =>
      if Ascii.eqb a "/"%char then basename_aux EmptyString r
      else basename_aux (acc ++ String a EmptyString) r
  end.

Definition basename : string -> string := basename_aux EmptyString.

Definition child (n : string) (name : json) : M scene (option string) :=
  match name with
  | JStr c =>
      w <- get ;;
      let p := n ++ "/" ++ c in
      ret (if has_path p w then Some p else None)
  | _ => raise (mkExn TypeError "expected a string")
  end.

Definition houdini : Server.HouAPI :=
  {| Server.world := scene;
     Server.node := string;
     Server.parm := string * string;
     Server.session_use_assetlib := use_assetlib;
     Server.hou_node := fun path =>
       match path with
       | JStr p => w <- get ;; ret (if has_path p w then Some p else None)
       | _ => raise (mkExn TypeError "expected a string")
       end;
     Server.node_name := fun n => ret (basename n);
     Server.node_path := fun n => ret n;
     Server.node_type_name := fun _ => ret "geo";
     Server.node_category_name := fun n =>
       ret (if String.prefix "/obj/" n then "Object" else "Sop");
     Server.node_position := fun _ => ret (JList [JInt 0; JInt 0]);
     Server.node_setName := fun _ name =>
       match name with
       | JStr _ => ret tt
       | _ => raise (mkExn TypeError "expected a string")
       end;
     Server.node_setPosition := fun _ x y =>
       match x, y with
       | JInt _, JInt _ | JInt _, JFloat _
       | JFloat _, JInt _ | JFloat _, JFloat _ => ret tt
       | _, _ => raise (mkExn TypeError "expected two numbers")
       end;
     Server.node_destroy := fun n => modify (remove_path n);
     Server.node_node := child;
     Server.node_children := fun _ => ret [];
     Server.node_createNode := fun n ty name =>
       match name with
       | JStr c =>
           let p := n ++ "/" ++ c in
           w <- get ;;
           if has_path p w then raise (operation_failed "Invalid node name")
           else modify (add_path p) ;; ret p
       | _ => raise (operation_failed "Invalid node name")
       end;
     Server.node_isDisplayFlagSet := fun _ => ret false;
     Server.node_setFirstInput := fun _ _ => ret tt;
     Server.node_setDisplayFlag := fun _ _ => ret tt;
     Server.node_setRenderFlag := fun _ _ => ret tt;
     Server.node_parm := fun n name =>
       w <- get ;;
       ret (match read_parm (n, name) w with
            | Some _ => Some (n, name)
            | None => None
            end);
     Server.parm_eval := fun p =>
       w <- get ;;
       match read_parm p w with
       | Some v => ret v
       | None => raise (operation_failed "Invalid parameter")
       end;
     Server.parm_set := fun p v => modify (write_parm p v);
     Server.py_exec := fun code =>
       match code with
       | JStr "raise SystemExit(3)" =>
           fun w => (Exits (SystemExit (JInt 3)), w)
       | JStr _ => Wide.ret tt
       | _ => Wide.raise (mkExn TypeError "exec() arg 1 must be a string")
       end;
     Server.get_scene_info :=
       w <- get ;;
       ret (JDict [("name", JStr "Untitled");
                   ("node_count", JInt (Z.of_nat (List.length (paths w))))]);
     Server.get_node_info := fun path =>
       match path with
       | JStr p =>
           w <- get ;;
           if has_path p w then ret (JDict [("path", JStr p)])
           else raise (mkExn ValueError ("Node not found: " ++ p))
       | _ => raise (mkExn TypeError "expected a string")
       end |}.

(** The bytes of a command with [cafe] as its type, as a client that does
    not escape non-ASCII characters sends them, and the two chunks they
    arrive in when the stream is cut between the two bytes of the last
    character. *)
Definition cafe_command : json := JDict [("type", JStr cafe)].

Definition cafe_bytes : list byte := encode_utf8 (dumps cafe_command).

Definition cafe_head : list byte := firstn 14 cafe_bytes.

Definition cafe_tail : list byte := skipn 14 cafe_bytes.

(** A scene with one geometry object carrying two parameters. *)
Definition start : scene :=
  {| paths := ["/obj"; "/mat"; "/obj/geo1"];
     values := [(("/obj/geo1", "tx"), JInt 0);
                (("/obj/geo1", "scale"), JInt 1);
                (("/obj/geo1", "shop_materialpath"), JStr "")];
     use_assetlib := JBool false |}.

(** A server that listens and has client 7 connected. *)
Definition connected : Server.server :=
  {| Server.running := true; Server.socket := Some 3%nat;
     Server.client := Some 7%nat; Server.buffer := [] |}.

(** A connection object that has not connected yet, and two peers: one
    that sends the first byte of an answer and closes, one that never
    answers. *)
Definition idle : Client.HoudiniConnection :=
  {| Client.host := "localhost"; Client.port := 9876;
     Client.sock := None |}.

Definition fresh : Client.cstate :=
  {| Client.this := idle; Client.trace := [] |}.

Definition peer_closes : Client.call_io :=
  {| Client.io_socket := Returned 5%nat;
     Client.io_connect := Returned tt;
     Client.io_sendall := Returned tt;
     Client.io_settimeout := Returned tt;
     Client.io_recv := [Returned [x7b]; Returned []];
     Client.io_close := Returned tt |}.

Definition peer_silent : Client.call_io :=
  {| Client.io_socket := Returned 5%nat;
     Client.io_connect := Returned tt;
     Client.io_sendall := Returned tt;
     Client.io_settimeout := Returned tt;
     Client.io_recv := [];
     Client.io_close := Returned tt |}.

End Demo.

(* ====================================================================== *)
(** * The back end's life cycle: [__init__], [start], [stop] *)
(* ====================================================================== *)

Module Lifecycle.
Import Py Exc Exc.Notations Server.
Local Open Scope py_scope.

(** The [HoudiniMCPServer] object with the fields the poll loop does not
    use: where it listens and its [QTimer]. *)
Record instance : Type := {
  host : string;
  port : Z;
  core : server;
  timer : option nat
}.

(** [HoudiniMCPServer(host, port)] *)
Definition init (h : string) (p : Z) : instance :=
  {| host := h; port := p;
     core := {| running := false; socket := None; client := None;
                buffer := [] |};
     timer := None |}.

(** What the operating system and Qt answer to [start] and [stop]. *)
Record life_io : Type := {
  io_socket : outcome nat;
  io_setsockopt : outcome unit;
  io_bind : outcome unit;
  io_listen : outcome unit;
  io_setblocking : outcome unit;
  io_new_timer : outcome nat;
  io_timer_connect : outcome unit;
  io_timer_start : outcome unit;
  io_timer_stop : outcome unit;
  io_close_socket : outcome unit;
  io_close_client : outcome unit
}.

Inductive life_event : Type :=
| Bind (s : nat) (h : string) (p : Z)
| Listen (s : nat)
| TimerStart (t : nat) (msec : Z)
| TimerStop (t : nat)
| CloseSocket (s : nat)
| CloseClient (c : nat).

Record life : Type := {
  this : instance;
  log : list life_event
}.

Definition set_core (f : server -> server) : M life unit :=
  modify (fun l =>
    {| this := {| host := host (this l); port := port (this l);
                  core := f (core (this l)); timer := timer (this l) |};
       log := log l |}).

Definition set_running (b : bool) : M life unit :=
  set_core (fun s => {| running := b; socket := socket s;
                        client := client s; buffer := buffer s |}).

Definition set_socket (k : option nat) : M life unit :=
  set_core (fun s => {| running := running s; socket := k;
                        client := client s; buffer := buffer s |}).

Definition set_client (k : option nat) : M life unit :=
  set_core (fun s => {| running := running s; socket := socket s;
                        client := k; buffer := buffer s |}).

Definition set_timer (t : option nat) : M life unit :=
  modify (fun l =>
    {| this := {| host := host (this l); port := port (this l);
                  core := core (this l); timer := t |};
       log := log l |}).

Definition emit (e : life_event) : M life unit :=
  modify (fun l => {| this := this l; log := append (log l) e |}).

Section Methods.
Variable io : life_io.

(** [stop] *)
Definition stop : M life unit :=
  set_running false ;;
  l <- get ;;
  match timer (this l) with
  | Some t =>
      emit (TimerStop t) ;;
      lift (io_timer_stop io) ;;
      set_timer None
  | None => ret tt
  end ;;
  l <- get ;;
  match socket (core (this l)) with
  | Some s => emit (CloseSocket s) ;; lift (io_close_socket io)
  | None => ret tt
  end ;;
  l <- get ;;
  match client (core (this l)) with
  | Some c => emit (CloseClient c) ;; lift (io_close_client io)
  | None => ret tt
  end ;;
  set_socket None ;;
  set_client None.

(** [start] *)
Definition start : M life unit :=
  set_running true ;;
  s <- lift (io_socket io) ;;
  set_socket (Some s) ;;
  lift (io_setsockopt io) ;;
  try_except
    (l <- get ;;
     emit (Bind s (host (this l)) (port (this l))) ;;
     lift (io_bind io) ;;
     emit (Listen s) ;;
     lift (io_listen io) ;;
     lift (io_setblocking io) ;;
     (* Create a timer in the main thread to process server events *)
     t <- lift (io_new_timer io) ;;
     set_timer (Some t) ;;
     lift (io_timer_connect io) ;;
     emit (TimerStart t 100) ;;
     lift (io_timer_start io))
    [(is_Exception, fun _ => stop)].

End Methods.

(** An environment in which every call succeeds, giving socket [s] and
    timer [t]. *)
Definition all_fine (s t : nat) : life_io :=
  {| io_socket := Returned s;
     io_setsockopt := Returned tt;
     io_bind := Returned tt;
     io_listen := Returned tt;
     io_setblocking := Returned tt;
     io_new_timer := Returned t;
     io_timer_connect := Returned tt;
     io_timer_start := Returned tt;
     io_timer_stop := Returned tt;
     io_close_socket := Returned tt;
     io_close_client := Returned tt |}.

(** The same, except that the port is taken: [bind] raises. *)
Definition port_taken (s t : nat) : life_io :=
  {| io_socket := Returned s;
     io_setsockopt := Returned tt;
     io_bind := Raised (mkExn OSError "Address already in use");
     io_listen := Returned tt;
     io_setblocking := Returned tt;
     io_new_timer := Returned t;
     io_timer_connect := Returned tt;
     io_timer_start := Returned tt;
     io_timer_stop := Returned tt;
     io_close_socket := Returned tt;
     io_close_client := Returned tt |}.

(** The state invariant of the poll loop: without client, no pending
    bytes. *)
Definition no_orphan_bytes (s : server) : Prop :=
  client s = None -> buffer s = [].

End Lifecycle.

(* ====================================================================== *)
(** * The front end's tools *)
(* ====================================================================== *)

Module Tools.
Import Py Exc Exc.Notations Client.
Local Open Scope py_scope.

(** The process state of the front end: the global [_houdini_connection],
    which is [None] or the one connection object every tool works on, and
    the events so far. *)
Record front : Type := {
  connection : option HoudiniConnection;
  events : list event
}.

(** A method call on the object the global refers to: the object is
    mutated in place. *)
Definition on_connection {A : Type} (m : M cstate A) : M front A :=
  fun f =>
    match connection f with
    | Some c =>
        let '(r, st) := m {| this := c; trace := events f |} in
        (r, {| connection := Some (this st); events := trace st |})
    | None =>
        (Raised (mkExn AttributeError
                   "'NoneType' object has no attribute"), f)
    end.

Definition set_connection (c : option HoudiniConnection) : M front unit :=
  modify (fun f => {| connection := c; events := events f |}).

(** [x == s] where [s] is a [str]. *)
Definition py_eq_str (j : json) (s : string) : bool := negb (py_ne_str j s).

Section WithEnvironment.
Variable rt : Runtime.
(** [json.dumps(value, indent=2)] *)
Variable dumps_indent : json -> string.
Variable io : call_io.

(** [get_houdini_connection]: it returns the global object, so the caller
    goes on with [on_connection]. *)
Definition get_houdini_connection : M front unit :=
  f <- get ;;
  match connection f with
  | Some _ => ret tt
  | None =>
      set_connection
        (Some {| host := "localhost"; port := 9876; sock := None |}) ;;
      ok <- on_connection (connect io) ;;
      if negb ok then
        raise (mkExn RuntimeError
                 "Could not connect to Houdini on localhost:9876. Is the plugin running?")
      else ret tt
  end.

(** The start-up half of [server_lifespan]. *)
Definition startup : M front unit :=
  try_except get_houdini_connection [(is_Exception, fun _ => ret tt)].

(** The shut-down half of [server_lifespan]. *)
Definition shutdown : M front unit :=
  f <- get ;;
  match connection f with
  | Some _ =>
      on_connection (disconnect io) ;;
      set_connection None
  | None => ret tt
  end.

(** The tool [get_scene_info]. *)
Definition get_scene_info : M front string :=
  try_except
    (get_houdini_connection ;;
     response <- on_connection (send_command rt io (JStr "get_scene_info")
                                  JNull) ;;
     status <- lift (Server.py_get rt response "status" JNull) ;;
     if py_eq_str status "error" then
       message <- lift (Server.py_get rt response "message" JNull) ;;
       ret ("Houdini error: " ++ py_str rt message)
     else
       result <- lift (Server.py_get rt response "result" JNull) ;;
       ret (dumps_indent result))
    [(is_Exception, fun e =>
        ret ("Error retrieving scene info: " ++ exn_str e))].

(** The [params] the tool [create_node] builds. *)
Definition create_node_params (node_type parent_path name : json) : json :=
  let params := [("node_type", node_type); ("parent_path", parent_path)] in
  if truthy name then JDict (append params ("name", name))
  else JDict params.

(** The tool [create_node]. *)
Definition create_node (node_type parent_path name : json) : M front string :=
  try_except
    (get_houdini_connection ;;
     let params := create_node_params node_type parent_path name in
     response <- on_connection (send_command rt io (JStr "create_node")
                                  params) ;;
     status <- lift (Server.py_get rt response "status" JNull) ;;
     if py_eq_str status "error" then
       message <- lift (Server.py_get rt response "message" JNull) ;;
       ret ("Error: " ++ py_str rt message)
     else
       result <- lift (Server.py_get rt response "result" JNull) ;;
       ret ("Node created: " ++ dumps_indent result))
    [(is_Exception, fun e => ret ("Error creating node: " ++ exn_str e))].

(** The tool [execute_houdini_code]. *)
Definition execute_houdini_code (code : json) : M front string :=
  try_except
    (get_houdini_connection ;;
     response <- on_connection (send_command rt io (JStr "execute_code")
                                  (JDict [("code", code)])) ;;
     status <- lift (Server.py_get rt response "status" JNull) ;;
     if py_eq_str status "error" then
       message <- lift (Server.py_get rt response "message" JNull) ;;
       ret ("Error: " ++ py_str rt message)
     else ret "Code executed successfully in Houdini.")
    [(is_Exception, fun e => ret ("Error executing code: " ++ exn_str e))].

End WithEnvironment.

(** The back end accepts a command of this type with these params: the
    type is a key of its table and the params bind to the parameters of
    the handler. *)
Definition accepted (rt : Runtime) (hou : Server.HouAPI)
    (w : Server.world hou) (cmd_type : string) (params : json) : Prop :=
  exists h kw,
    assoc cmd_type (Server.handlers rt hou w) = Some h
    /\ params = JDict kw
    /\ Server.bind_keywords rt (Server.method_sig h) params = Returned kw.

(** [params or {}], as [send_command] puts them on the wire. *)
Definition sent (params : json) : json :=
  if truthy params then params else JDict [].

(** A front end that has not been used yet. *)
Definition unused : front := {| connection := None; events := [] |}.

(** A network on which nothing can be opened. *)
Definition houdini_down : call_io :=
  {| io_socket := Returned 5%nat;
     io_connect := Raised (mkExn ConnectionError "Connection refused");
     io_sendall := Returned tt;
     io_settimeout := Returned tt;
     io_recv := [];
     io_close := Returned tt |}.

(** A network on which everything succeeds and the peer answers [reply]
    in one piece. *)
Definition houdini_answers (reply : list byte) : call_io :=
  {| io_socket := Returned 5%nat;
     io_connect := Returned tt;
     io_sendall := Returned tt;
     io_settimeout := Returned tt;
     io_recv := [Returned reply];
     io_close := Returned tt |}.

End Tools.

(* ====================================================================== *)
(** * The back end's reports: [get_scene_info], [get_node_info] *)
(* ====================================================================== *)

Module Inspect.
Import Py Exc Exc.Notations Server.
Local Open Scope py_scope.

(** What the two reports call in [hou] beyond the calls of the other
    handlers.  [W], [N] and [P] are the scene, the nodes and the
    parameters of the [HouAPI] at hand. *)
Record SceneAPI (W N P : Type) : Type := {
  (** what [n.outputConnections()] lists *)
  node_connection : Type;
  (** [hou.hipFile.name()], [os.path.basename(p)] *)
  hipFile_name : M W string;
  basename : string -> string;
  (** [n.allSubChildren()] *)
  node_allSubChildren : N -> M W (list N);
  (** [hou.fps()], [hou.playbar.frameRange()] *)
  hou_fps : M W json;
  playbar_frameRange : M W json;
  (** [n.color()]: the components of the colour, or [None] *)
  node_color : N -> M W (option (list json));
  (** [n.isBypassed()] *)
  node_isBypassed : N -> M W json;
  (** [getattr(n, name, lambda: None)()] *)
  node_flag : N -> string -> M W json;
  (** [n.parms()], [n.inputs()], [n.outputConnections()] *)
  node_parms : N -> M W (list P);
  node_inputs : N -> M W (list (option N));
  node_outputConnections : N -> M W (list node_connection);
  (** [p.name()], [p.label()], [p.rawValue()],
      [p.parmTemplate().type().name()] *)
  parm_name : P -> M W string;
  parm_label : P -> M W string;
  parm_rawValue : P -> M W json;
  parm_type_name : P -> M W string;
  (** [c.outputNode()], [c.inputIndex()] *)
  conn_outputNode : node_connection -> M W N;
  conn_inputIndex : node_connection -> M W json
}.
Arguments node_connection {W N P} _.
Arguments hipFile_name {W N P} _.
Arguments basename {W N P} _.
Arguments node_allSubChildren {W N P} _.
Arguments hou_fps {W N P} _.
Arguments playbar_frameRange {W N P} _.
Arguments node_color {W N P} _.
Arguments node_isBypassed {W N P} _.
Arguments node_flag {W N P} _.
Arguments node_parms {W N P} _.
Arguments node_inputs {W N P} _.
Arguments node_outputConnections {W N P} _.
Arguments parm_name {W N P} _.
Arguments parm_label {W N P} _.
Arguments parm_rawValue {W N P} _.
Arguments parm_type_name {W N P} _.
Arguments conn_outputNode {W N P} _.
Arguments conn_inputIndex {W N P} _.

(** How one round of a loop with a [break] ends. *)
Inductive round (B : Type) : Type :=
| Next (acc : B)
| Break (acc : B).
Arguments Next {B} acc.
Arguments Break {B} acc.

(** [for x in xs: body] where the body can [break]. *)
Fixpoint for_each_break {S A B : Type} (xs : list A) (acc : B)
    (body : A -> B -> M S (round B)) : M S B :=
  match xs with
  | [] => ret acc
  | x :: r =>
      bind (body x acc)
        (fun o =>
           match o with
           | Next acc' => for_each_break r acc' body
           | Break acc' => ret acc'
           end)
  end.

(** [enumerate(xs)] *)
Definition enumerate {A : Type} (xs : list A) : list (nat * A) :=
  combine (seq 0 (List.length xs)) xs.

(** [len(l)] and an index, as JSON numbers. *)
Definition py_int (n : nat) : json := JInt (Z.of_nat n).

Section Reports.
Variable rt : Runtime.
Variable hou : HouAPI.
Variable api : SceneAPI (world hou) (node hou) (parm hou).

Local Abbreviation W := (world hou).

(** A method call on what [hou.node(...)] gave: [None] has no methods. *)
Definition on_node {A : Type} (o : option (node hou)) (attr : string)
    (k : node hou -> M W A) : M W A :=
  match o with
  | Some n => k n
  | None => raise (rt_raise rt (NoAttribute JNull attr))
  end.

Definition contexts : list string :=
  ["obj"; "shop"; "out"; "ch"; "vex"; "stage"].

(** The entry of [top_nodes] for one node. *)
Definition top_node (ctx_name : string) (n : node hou) : M W json :=
  name <- node_name hou n ;;
  path <- node_path hou n ;;
  type <- node_type_name hou n ;;
  ret (JDict [("name", JStr name); ("path", JStr path);
              ("type", JStr type); ("category", JStr ctx_name)]).

(** [for node in children:] *)
Definition collect_children (ctx_name : string) (children : list (node hou))
    (top_nodes : list json) : M W (list json) :=
  for_each_break children top_nodes
    (fun n top_nodes =>
       if (10 <=? List.length top_nodes)%nat then ret (Break top_nodes)
       else
         entry <- top_node ctx_name n ;;
         ret (Next (append top_nodes entry))).

(** [for ctx_name in contexts:] *)
Definition collect_contexts (root : option (node hou))
    : M W (list json) :=
  for_each_break contexts []
    (fun ctx_name top_nodes =>
       ctx_node <- on_node root "node"
                     (fun r => node_node hou r (JStr ctx_name)) ;;
       match ctx_node with
       | Some c =>
           children <- node_children hou c ;;
           top_nodes <- collect_children ctx_name children top_nodes ;;
           if (10 <=? List.length top_nodes)%nat then ret (Break top_nodes)
           else ret (Next top_nodes)
       | None => ret (Next top_nodes)
       end).

(** The [try] block of [get_scene_info].  The dict is built with an empty
    ["nodes"], which the assignment at the end replaces in place. *)
Definition get_scene_info_try : M W json :=
  hip_file <- hipFile_name api ;;
  let name := if truthy (JStr hip_file) then basename api hip_file
              else "Untitled" in
  let filepath := if truthy (JStr hip_file) then hip_file else "" in
  root0 <- hou_node hou (JStr "/") ;;
  subs <- on_node root0 "allSubChildren" (node_allSubChildren api) ;;
  fps <- hou_fps api ;;
  range0 <- playbar_frameRange api ;;
  start_frame <- lift (py_getitem rt range0 0) ;;
  range1 <- playbar_frameRange api ;;
  end_frame <- lift (py_getitem rt range1 1) ;;
  root <- hou_node hou (JStr "/") ;;
  top_nodes <- collect_contexts root ;;
  ret (JDict [("name", JStr name);
              ("filepath", JStr filepath);
              ("node_count", py_int (List.length subs));
              ("nodes", JList top_nodes);
              ("fps", fps);
              ("start_frame", start_frame);
              ("end_frame", end_frame)]).

(** [get_scene_info]; [traceback.print_exc()] writes to the console
    only. *)
Definition get_scene_info : M W json :=
  try_except get_scene_info_try
    [(is_Exception, fun e => ret (JDict [("error", JStr (exn_str e))]))].

(** [list(node.color()) if node.color() else None] *)
Definition color_or_none (n : node hou) : M W json :=
  c <- node_color api n ;;
  match c with
  | Some _ =>
      c' <- node_color api n ;;
      match c' with
      | Some l => ret (JList l)
      | None => raise (mkExn TypeError "'NoneType' object is not iterable")
      end
  | None => ret JNull
  end.

(** The entry of ["parameters"] for one parameter. *)
Definition parameter_entry (p : parm hou) : M W json :=
  name <- parm_name api p ;;
  label <- parm_label api p ;;
  value <- parm_eval hou p ;;
  raw_value <- parm_rawValue api p ;;
  type <- parm_type_name api p ;;
  ret (JDict [("name", JStr name); ("label", JStr label);
              ("value", JStr (py_str rt value));
              ("raw_value", raw_value); ("type", JStr type)]).

(** [for i, parm in enumerate(node.parms()):] *)
Definition collect_parameters (parms : list (nat * parm hou))
    (parameters : list json) : M W (list json) :=
  for_each_break parms parameters
    (fun ip parameters =>
       if (20 <=? fst ip)%nat then ret (Break parameters)
       else
         entry <- parameter_entry (snd ip) ;;
         ret (Next (append parameters entry))).

(** [for i, in_node in enumerate(node.inputs()):] *)
Definition collect_inputs (ins : list (nat * option (node hou)))
    (inputs : list json) : M W (list json) :=
  for_each ins inputs
    (fun ii inputs =>
       match snd ii with
       | Some in_node =>
           name <- node_name hou in_node ;;
           path <- node_path hou in_node ;;
           type <- node_type_name hou in_node ;;
           ret (append inputs
                  (JDict [("index", py_int (fst ii)); ("name", JStr name);
                          ("path", JStr path); ("type", JStr type)]))
       | None => ret inputs
       end).

(** [for i, out_conn in enumerate(node.outputConnections()):] *)
Definition collect_outputs (conns : list (nat * node_connection api))
    (outputs : list json) : M W (list json) :=
  for_each conns outputs
    (fun ic outputs =>
       out_node <- conn_outputNode api (snd ic) ;;
       name <- node_name hou out_node ;;
       path <- node_path hou out_node ;;
       type <- node_type_name hou out_node ;;
       input_index <- conn_inputIndex api (snd ic) ;;
       ret (append outputs
              (JDict [("index", py_int (fst ic)); ("name", JStr name);
                      ("path", JStr path); ("type", JStr type);
                      ("input_index", input_index)]))).

(** The entries of the report of [get_node_info] that are read when its
    dict is built, in the order of the dict display. *)
Definition node_info_head (n : node hou) : M W (list (string * json)) :=
  name <- node_name hou n ;;
  path_ <- node_path hou n ;;
  type <- node_type_name hou n ;;
  category <- node_category_name hou n ;;
  position0 <- node_position hou n ;;
  x <- lift (py_getitem rt position0 0) ;;
  position1 <- node_position hou n ;;
  y <- lift (py_getitem rt position1 1) ;;
  color <- color_or_none n ;;
  is_bypassed <- node_isBypassed api n ;;
  is_displayed <- node_flag api n "isDisplayFlagSet" ;;
  is_rendered <- node_flag api n "isRenderFlagSet" ;;
  ret [("name", JStr name);
       ("path", JStr path_);
       ("type", JStr type);
       ("category", JStr category);
       ("position", JList [x; y]);
       ("color", color);
       ("is_bypassed", is_bypassed);
       ("is_displayed", is_displayed);
       ("is_rendered", is_rendered)].

(** [get_node_info].  The dict is built with three empty lists at its
    end, which the loops fill in place. *)
Definition get_node_info (path : json) : M W json :=
  n <- hou_node hou path ;;
  match n with
  | None => raise (mkExn ValueError ("Node not found: " ++ py_str rt path))
  | Some n =>
      head <- node_info_head n ;;
      parms <- node_parms api n ;;
      parameters <- collect_parameters (enumerate parms) [] ;;
      ins <- node_inputs api n ;;
      inputs <- collect_inputs (enumerate ins) [] ;;
      conns <- node_outputConnections api n ;;
      outputs <- collect_outputs (enumerate conns) [] ;;
      ret (JDict (head ++ [("parameters", JList parameters);
                           ("inputs", JList inputs);
                           ("outputs", JList outputs)])%list)
  end.

(** The [hou] whose two reports are the ones above. *)
Definition with_reports : HouAPI :=
  {| world := world hou;
     node := node hou;
     parm := parm hou;
     session_use_assetlib := session_use_assetlib hou;
     hou_node := hou_node hou;
     node_name := node_name hou;
     node_path := node_path hou;
     node_type_name := node_type_name hou;
     node_category_name := node_category_name hou;
     node_position := node_position hou;
     node_setName := node_setName hou;
     node_setPosition := node_setPosition hou;
     node_destroy := node_destroy hou;
     node_node := node_node hou;
     node_children := node_children hou;
     node_createNode := node_createNode hou;
     node_isDisplayFlagSet := node_isDisplayFlagSet hou;
     node_setFirstInput := node_setFirstInput hou;
     node_setDisplayFlag := node_setDisplayFlag hou;
     node_setRenderFlag := node_setRenderFlag hou;
     node_parm := node_parm hou;
     parm_eval := parm_eval hou;
     parm_set := parm_set hou;
     py_exec := py_exec hou;
     Server.get_scene_info := get_scene_info;
     Server.get_node_info := get_node_info |}.

End Reports.

(** The value an entry of a report has under [key]. *)
Definition field (key : string) (entry : json) : option json :=
  match entry with
  | JDict d => assoc key d
  | _ => None
  end.

(** An entry of ["nodes"] names one of the contexts as its category. *)
Definition in_context (entry : json) : Prop :=
  exists c, field "category" entry = Some (JStr c) /\ In c contexts.

(** The positions of the entries of [l] that are taken, counted from
    [i]. *)
Fixpoint taken_from {A : Type} (i : nat) (l : list (option A)) : list nat :=
  match l with
  | [] => []
  | Some _ :: r => i :: taken_from (S i) r
  | None :: r => taken_from (S i) r
  end.

(** A scene API over the scene of [Demo]: the children of a node are the
    paths one level below it, every node has the parameters the scene
    gives it values for, and two inputs, of which the second is
    connected. *)
Definition is_child (n p : string) : bool :=
  String.prefix (n ++ "/") p
  && negb (existsb (Ascii.eqb "/"%char)
             (list_ascii_of_string
                (substring (S (String.length n))
                   (String.length p - S (String.length n)) p))).

Definition demo : SceneAPI Demo.scene string (string * string) :=
  {| node_connection := nat;
     hipFile_name := ret "/tmp/demo.hip";
     basename := Demo.basename;
     node_allSubChildren := fun n =>
       w <- get ;;
       ret (filter (String.prefix (n ++ "/")) (Demo.paths w));
     hou_fps := ret (JInt 24);
     playbar_frameRange := ret (JList [JInt 1; JInt 240]);
     node_color := fun _ => ret (Some [JInt 1; JInt 1; JInt 1]);
     node_isBypassed := fun _ => ret (JBool false);
     node_flag := fun _ _ => ret JNull;
     node_parms := fun n =>
       w <- get ;;
       ret (map fst (filter (fun e => String.eqb (fst (fst e)) n)
                       (Demo.values w)));
     node_inputs := fun _ => ret [None; Some "/obj"];
     node_outputConnections := fun _ => ret [];
     parm_name := fun p => ret (snd p);
     parm_label := fun p => ret (snd p);
     parm_rawValue := fun p =>
       w <- get ;;
       ret (match Demo.read_parm p w with Some v => v | None => JNull end);
     parm_type_name := fun _ => ret "Float";
     conn_outputNode := fun _ => ret "/obj";
     conn_inputIndex := fun _ => ret (JInt 0) |}.

(** [Demo.houdini] with children below [/obj]. *)
Definition demo_hou : HouAPI :=
  {| world := world Demo.houdini;
     node := node Demo.houdini;
     parm := parm Demo.houdini;
     session_use_assetlib := session_use_assetlib Demo.houdini;
     hou_node := fun path =>
       match path with
       | JStr "/" => ret (Some "")
       | _ => hou_node Demo.houdini path
       end;
     node_name := node_name Demo.houdini;
     node_path := node_path Demo.houdini;
     node_type_name := node_type_name Demo.houdini;
     node_category_name := node_category_name Demo.houdini;
     node_position := node_position Demo.houdini;
     node_setName := node_setName Demo.houdini;
     node_setPosition := node_setPosition Demo.houdini;
     node_destroy := node_destroy Demo.houdini;
     node_node := node_node Demo.houdini;
     node_children := fun n =>
       w <- get ;; ret (filter (is_child n) (Demo.paths w));
     node_createNode := node_createNode Demo.houdini;
     node_isDisplayFlagSet := node_isDisplayFlagSet Demo.houdini;
     node_setFirstInput := node_setFirstInput Demo.houdini;
     node_setDisplayFlag := node_setDisplayFlag Demo.houdini;
     node_setRenderFlag := node_setRenderFlag Demo.houdini;
     node_parm := node_parm Demo.houdini;
     parm_eval := parm_eval Demo.houdini;
     parm_set := parm_set Demo.houdini;
     py_exec := py_exec Demo.houdini;
     Server.get_scene_info := Server.get_scene_info Demo.houdini;
     Server.get_node_info := Server.get_node_info Demo.houdini |}.

(** What [get_node_info] reports on the geometry object of [Demo.start]. *)
Definition geo1_report : json :=
  Eval vm_compute in
    match fst (get_node_info Demo.runtime demo_hou demo (JStr "/obj/geo1")
                 Demo.start) with
    | Returned v => v
    | Raised _ => JNull
    end.

End Inspect.

(* ====================================================================== *)
(** * A runtime that also reads responses *)
(* ====================================================================== *)

Module DemoMore.
Import Py.

Definition known_values : list json :=
  (Demo.known_commands
   ++ [ Server.error_envelope "Unknown command type: bogus";
        Server.success_envelope (JDict [("executed", JBool true)]);
        JDict [("type", JStr "execute_code");
               ("params", JDict [("code", JStr "pass")])] ])%list.

Definition loads (text : string) : outcome json :=
  match find (fun c => String.eqb (Demo.dumps c) text) known_values with
  | Some c => Returned c
  | None => Raised (mkExn JSONDecodeError "Expecting value")
  end.

Definition runtime : Runtime :=
  {| rt_repr := rt_repr Demo.runtime;
     rt_message := rt_message Demo.runtime;
     json_loads := loads;
     json_dumps := Demo.dumps |}.

(** Two responses as the back end writes them, and the second one cut
    after ten bytes. *)
Definition bogus_reply : list byte :=
  encode_utf8 (Demo.dumps (Server.error_envelope "Unknown command type: bogus")).

Definition executed_reply : list byte :=
  encode_utf8
    (Demo.dumps (Server.success_envelope (JDict [("executed", JBool true)]))).

Definition executed_head : list byte := firstn 10 executed_reply.

Definition executed_tail : list byte := skipn 10 executed_reply.

(** The front end's connection object after one exchange on socket 5. *)
Definition served : Client.cstate :=
  Eval vm_compute in
    snd (Client.send_command runtime (Tools.houdini_answers executed_reply)
           (JStr "execute_code") (JDict [("code", JStr "pass")])
           Demo.fresh).

End DemoMore.

(* ====================================================================== *)
(** * Symbolic execution of the embedded code *)
(* ====================================================================== *)

Module Tactics.
Import Py Exc.

Ltac py_unfold :=
  unfold bind, ret, raise, lift, get, modify, try_except in *.

Ltac wide_unfold :=
  unfold Wide.bind, Wide.ret, Wide.raise, Wide.lift, Wide.get, Wide.modify,
    Wide.try_except, Wide.ordinary in *.

(** The term whose value decides how [t] reduces next. *)
Ltac scrutinee t :=
  lazymatch t with
  | match ?x with _ => _ end => scrutinee x
  | (match ?x with _ => _ end) _ => scrutinee x
  | (match ?x with _ => _ end) _ _ => scrutinee x
  | _ => t
  end.

(** One step of symbolic execution of the computation in [H : run = res]:
    the deciding term is replaced by what is known about it, or split into
    its cases. *)
Ltac exec_step H :=
  lazymatch type of H with
  | ?lhs = _ =>
      let x := scrutinee lhs in
      lazymatch x with
      | lhs => fail "nothing to execute"
      | _ =>
          first [ match goal with E : x = _ |- _ => rewrite E in H end
                | destruct x eqn:? ];
          simpl in H
      end
  end.

Ltac exec H := repeat (exec_step H; try congruence).

End Tactics.

(* ====================================================================== *)
(** * Properties of the dispatcher *)
(* ====================================================================== *)

Module DispatchProofs.
Import Py Exc Exc.Notations Server Tactics.

Section Dispatch.
Variable rt : Runtime.
Variable hou : HouAPI.

(** What [execute_command] does with a JSON object, case by case. *)
Lemma execute_command_object (d : list (string * json)) (w : world hou) :
  execute_command rt hou (JDict d) w =
    match handlers_get rt hou (handlers rt hou w) (dict_get d "type" JNull) with
    | Raised e => (Normal (Returned (error_envelope (exn_str e))), w)
    | Returned None =>
        (Normal (Returned (error_envelope
                             ("Unknown command type: "
                              ++ py_str rt (dict_get d "type" JNull)))), w)
    | Returned (Some h) =>
        match call rt hou h (dict_get d "params" (JDict [])) w with
        | (Normal (Returned v), w') =>
            (Normal (Returned (success_envelope v)), w')
        | (Normal (Raised e), w') =>
            (Normal (Returned (error_envelope (exn_str e))), w')
        | (Exits b, w') => (Exits b, w')
        end
    end.
Proof.
  unfold execute_command, _execute_command_internal, py_get.
  wide_unfold; simpl.
  destruct (handlers_get rt hou (handlers rt hou w) (dict_get d "type" JNull))
    as [[h|]|e]; simpl; try reflexivity.
  destruct (call rt hou h (dict_get d "params" (JDict [])) w)
    as [[[v|e]|b] w']; reflexivity.
Qed.

(** A command that is not a JSON object has no [get]. *)
Lemma execute_command_not_object (command : json) (w : world hou) :
  (forall d, command <> JDict d) ->
  execute_command rt hou command w =
    (Normal (Returned
               (error_envelope (rt_message rt (NoAttribute command "get")))),
     w).
Proof.
  intros H. unfold execute_command, _execute_command_internal, py_get.
  wide_unfold.
  destruct command; simpl; try reflexivity.
  exfalso; eapply H; reflexivity.
Qed.

(** [execute_command] raises no exception deriving from [Exception]: it
    returns, or it is left by an exception outside [Exception]. *)
Lemma execute_command_completes (command : json) (w : world hou) :
  exists w',
    (exists v, execute_command rt hou command w = (Normal (Returned v), w'))
    \/ (exists b, execute_command rt hou command w = (Exits b, w')).
Proof.
  unfold execute_command, Wide.try_except.
  destruct (_execute_command_internal rt hou command w) as [[[v|e]|b] w'];
    cbn; unfold Wide.ret; eauto.
Qed.

Lemma handlers_get_key (table : list (string * method hou)) (cmd_type : json) :
  hashable cmd_type = true ->
  handlers_get rt hou table cmd_type =
    Returned (match cmd_type with JStr k => assoc k table | _ => None end).
Proof. destruct cmd_type; simpl; intros; congruence. Qed.

Lemma mem_In (k : string) (l : list string) : mem k l = true <-> In k l.
Proof.
  unfold mem. rewrite existsb_exists. split.
  - intros [x [Hx Heq]]. apply String.eqb_eq in Heq. now subst.
  - intros H. exists k. split; [assumption | apply String.eqb_refl].
Qed.

Lemma assoc_app {A : Type} (k : string) (d1 d2 : list (string * A)) :
  assoc k (d1 ++ d2)%list =
    match assoc k d1 with Some v => Some v | None => assoc k d2 end.
Proof.
  induction d1 as [|[k' v] d1 IH]; simpl; [reflexivity|].
  destruct (String.eqb k k'); [reflexivity | exact IH].
Qed.

(** Keywords outside the signature make the call raise [TypeError] before
    the body runs. *)
Lemma bind_keywords_unexpected (sg : signature) (kw : list (string * json))
    (k : string) :
  In k (map fst kw) -> ~ In k (parameters_of sg) ->
  bind_keywords rt sg (JDict kw) =
    Raised (rt_raise rt (BadKeywords (sig_name sg) (map fst kw))).
Proof.
  intros Hin Hout. unfold bind_keywords.
  destruct (forallb (fun k0 => mem k0 (parameters_of sg)) (map fst kw))
    eqn:Hall; [|reflexivity].
  rewrite forallb_forall in Hall. apply Hall in Hin.
  apply mem_In in Hin. contradiction.
Qed.

(** A parameter without default that is not given makes the call raise
    [TypeError] as well. *)
Lemma bind_keywords_missing (sg : signature) (kw : list (string * json))
    (r : string) :
  In r (sig_required sg) -> ~ In r (map fst kw) ->
  bind_keywords rt sg (JDict kw) =
    Raised (rt_raise rt (BadKeywords (sig_name sg) (map fst kw))).
Proof.
  intros Hin Hout. unfold bind_keywords.
  destruct (forallb (fun k => mem k (parameters_of sg)) (map fst kw));
    [|reflexivity].
  destruct (forallb (fun r0 => mem r0 (map fst kw)) (sig_required sg))
    eqn:Hall; [|reflexivity].
  rewrite forallb_forall in Hall. apply Hall in Hin.
  apply mem_In in Hin. contradiction.
Qed.

Lemma call_bind_error (h : method hou) (params : json) (e : exn)
    (w : world hou) :
  bind_keywords rt (method_sig h) params = Raised e ->
  call rt hou h params w = (Normal (Raised e), w).
Proof. intros H. unfold call. wide_unfold. rewrite H. reflexivity. Qed.

(** A call whose keywords fit runs the body on the bound arguments. *)
Lemma call_bound (h : method hou) (params : json)
    (kw : list (string * json)) (w : world hou) :
  bind_keywords rt (method_sig h) params = Returned kw ->
  call rt hou h params w = method_body h (argument (method_sig h) kw) w.
Proof. intros H. unfold call. wide_unfold. rewrite H. reflexivity. Qed.

(** The methods of the table: [execute_code] is the one whose body runs
    foreign text. *)
Lemma handlers_methods (w : world hou) (k : string) (h : method hou) :
  assoc k (handlers rt hou w) = Some h ->
  (k = "execute_code" /\ h = self_execute_code hou)
  \/ (k <> "execute_code"
      /\ exists body,
           forall a, method_body h a = Wide.ordinary (body a)).
Proof.
  unfold handlers.
  assert (Hbase : forall h0,
             assoc k (base_handlers rt hou) = Some h0 ->
             (k = "execute_code" /\ h0 = self_execute_code hou)
             \/ (k <> "execute_code"
                 /\ exists body,
                      forall a, method_body h0 a = Wide.ordinary (body a))).
  { intros h0. unfold base_handlers. cbn [assoc].
    repeat match goal with
    | |- context [String.eqb k ?s] =>
        destruct (String.eqb_spec k s) as [->|?]
    end; intros H; inversion H; subst; clear H;
      try (left; split; reflexivity);
      right; (split; [discriminate|]); eexists; intros a; reflexivity. }
  assert (Hasset : forall h0,
             assoc k (asset_handlers hou) = Some h0 ->
             k <> "execute_code"
             /\ exists body,
                  forall a, method_body h0 a = Wide.ordinary (body a)).
  { intros h0. unfold asset_handlers. cbn [assoc].
    repeat match goal with
    | |- context [String.eqb k ?s] =>
        destruct (String.eqb_spec k s) as [->|?]
    end; intros H; inversion H; subst; clear H;
      (split; [discriminate|]); eexists; intros a; reflexivity. }
  destruct (truthy (session_use_assetlib hou w)).
  - rewrite assoc_app.
    destruct (assoc k (base_handlers rt hou)) as [h0|] eqn:Hb.
    + intros H. inversion H; subst. apply Hbase. reflexivity.
    + intros H. right. apply Hasset. exact H.
  - apply Hbase.
Qed.

(** C5. A command whose type is a key of the dispatch table and whose
    handler, called with the command's params as keywords, returns a
    value [v] is answered by exactly
    [{"status": "success", "result": v}]; the scene is the one the
    handler left. *)
Theorem recognized_command_success_envelope
    (d : list (string * json)) (w w' : world hou) (ty : string)
    (h : method hou) (v : json) :
  dict_get d "type" JNull = JStr ty ->
  assoc ty (handlers rt hou w) = Some h ->
  call rt hou h (dict_get d "params" (JDict [])) w
  = (Normal (Returned v), w') ->
  execute_command rt hou (JDict d) w
  = (Normal (Returned (JDict [("status", JStr "success"); ("result", v)])),
     w').
Proof.
  intros Hty Hh Hcall. rewrite execute_command_object, Hty. simpl.
  rewrite Hh, Hcall. reflexivity.
Qed.

(** C1, as the code has it.  A command whose type is hashable (a string,
    a number, a boolean or [None], the latter also when the key is
    missing) and is not a key of the dispatch table under the current
    toggle is answered by
    [{"status": "error", "message": "Unknown command type: <type>"}],
    the envelope shape a handler exception gets, and the scene is
    untouched. *)
Theorem unknown_command_error_envelope
    (d : list (string * json)) (w : world hou) :
  hashable (dict_get d "type" JNull) = true ->
  is_key (handlers rt hou w) (dict_get d "type" JNull) = false ->
  execute_command rt hou (JDict d) w =
    (Normal (Returned
               (JDict [("status", JStr "error");
                       ("message",
                        JStr ("Unknown command type: "
                              ++ py_str rt (dict_get d "type" JNull)))])),
     w).
Proof.
  intros Hhash Hkey. rewrite execute_command_object.
  rewrite (handlers_get_key _ _ Hhash).
  unfold is_key in Hkey.
  destruct (dict_get d "type" JNull); try reflexivity.
  destruct (assoc s (handlers rt hou w)); [discriminate | reflexivity].
Qed.

(** C10, as the code has it.  On a JSON object [execute_command] raises
    no exception deriving from [Exception]: it returns a dict whose status
    is ["success"], with the result, or ["error"], with a message - unless
    the command is [execute_code] and the text it runs is left by an
    exception outside [Exception], which [execute_command] lets through.
    A missing [params] key behaves as an empty mapping; a missing [type]
    key is reported as the unknown command type [None]; and params that
    do not fit the handler's signature - a key that is no parameter of the
    handler, or a parameter without default that is not given - yield the
    error envelope of the [TypeError] of the call, the scene being
    untouched. *)
Theorem execute_command_on_objects
    (d : list (string * json)) (w : world hou) :
  (exists w',
      (exists v,
          execute_command rt hou (JDict d) w = (Normal (Returned v), w')
          /\ ((exists r,
                  v = JDict [("status", JStr "success"); ("result", r)])
              \/ (exists m,
                     v = JDict [("status", JStr "error");
                                ("message", JStr m)])))
      \/ (exists b kw,
             execute_command rt hou (JDict d) w = (Exits b, w')
             /\ dict_get d "type" JNull = JStr "execute_code"
             /\ dict_get d "params" (JDict []) = JDict kw
             /\ py_exec hou (dict_get kw "code" JNull) w = (Exits b, w')))
  /\ (assoc "params" d = None ->
      execute_command rt hou (JDict d) w =
        execute_command rt hou (JDict (d ++ [("params", JDict [])])%list) w)
  /\ (assoc "type" d = None ->
      execute_command rt hou (JDict d) w =
        (Normal (Returned
                   (JDict [("status", JStr "error");
                           ("message", JStr "Unknown command type: None")])),
         w))
  /\ (forall ty h kw k,
        dict_get d "type" JNull = JStr ty ->
        assoc ty (handlers rt hou w) = Some h ->
        dict_get d "params" (JDict []) = JDict kw ->
        In k (map fst kw) ->
        ~ In k (parameters_of (method_sig h)) ->
        execute_command rt hou (JDict d) w =
          (Normal (Returned
                     (JDict [("status", JStr "error");
                             ("message",
                              JStr (rt_message rt
                                      (BadKeywords (sig_name (method_sig h))
                                         (map fst kw))))])), w))
  /\ (forall ty h kw r,
        dict_get d "type" JNull = JStr ty ->
        assoc ty (handlers rt hou w) = Some h ->
        dict_get d "params" (JDict []) = JDict kw ->
        In r (sig_required (method_sig h)) ->
        ~ In r (map fst kw) ->
        execute_command rt hou (JDict d) w =
          (Normal (Returned
                     (JDict [("status", JStr "error");
                             ("message",
                              JStr (rt_message rt
                                      (BadKeywords (sig_name (method_sig h))
                                         (map fst kw))))])), w)).
Proof.
  repeat apply conj.
  - rewrite execute_command_object.
    destruct (handlers_get rt hou (handlers rt hou w)
                (dict_get d "type" JNull)) as [[h|]|e] eqn:Hget.
    + destruct (call rt hou h (dict_get d "params" (JDict [])) w)
        as [[[v|e]|b] w'] eqn:Hcall.
      * exists w'. left. eexists. split; [reflexivity|]. left.
        eexists. reflexivity.
      * exists w'. left. eexists. split; [reflexivity|]. right.
        eexists. reflexivity.
      * exists w'. right.
        destruct (dict_get d "type" JNull) as [| | | |ty| |] eqn:Hty;
          simpl in Hget; try discriminate.
        inversion Hget as [Hh]; clear Hget.
        destruct (bind_keywords rt (method_sig h)
                    (dict_get d "params" (JDict []))) as [kw|e] eqn:Hkw.
        -- rewrite (call_bound _ _ _ _ Hkw) in Hcall.
           destruct (handlers_methods _ _ _ Hh)
             as [[-> ->] | [_ [body Hbody]]].
           ++ assert (Hparams : dict_get d "params" (JDict []) = JDict kw).
              { unfold bind_keywords in Hkw.
                destruct (dict_get d "params" (JDict []));
                  try discriminate.
                destruct (_ && _); inversion Hkw; reflexivity. }
              exists b, kw. repeat split; try reflexivity; try assumption.
              cbn [method_body self_execute_code] in Hcall.
              unfold execute_code in Hcall. wide_unfold.
              assert (Hcode :
                        argument (method_sig (self_execute_code hou)) kw
                          "code" = dict_get kw "code" JNull).
              { unfold argument, dict_get. cbn [assoc sig_optional
                  method_sig self_execute_code].
                destruct (assoc "code" kw); reflexivity. }
              rewrite Hcode in Hcall.
              destruct (py_exec hou (dict_get kw "code" JNull) w)
                as [[[[]|e]|b0] w0]; simpl in Hcall; inversion Hcall.
              reflexivity.
           ++ rewrite Hbody in Hcall. unfold Wide.ordinary in Hcall.
              discriminate Hcall.
        -- rewrite (call_bind_error _ _ _ _ Hkw) in Hcall.
           discriminate Hcall.
    + exists w. left. eexists. split; [reflexivity|]. right.
      eexists. reflexivity.
    + exists w. left. eexists. split; [reflexivity|]. right.
      eexists. reflexivity.
  - intros Hnone. rewrite !execute_command_object.
    unfold dict_get. rewrite !assoc_app, Hnone. simpl.
    destruct (assoc "type" d); reflexivity.
  - intros Hnone. rewrite execute_command_object.
    unfold dict_get. rewrite Hnone. reflexivity.
  - intros ty h kw k Hty Hh Hkw Hin Hout.
    rewrite execute_command_object, Hty. simpl. rewrite Hh, Hkw.
    rewrite (call_bind_error _ _ _ w (bind_keywords_unexpected _ _ _ Hin Hout)).
    reflexivity.
  - intros ty h kw r Hty Hh Hkw Hin Hout.
    rewrite execute_command_object, Hty. simpl. rewrite Hh, Hkw.
    rewrite (call_bind_error _ _ _ w (bind_keywords_missing _ _ _ Hin Hout)).
    reflexivity.
Qed.

End Dispatch.

(** C1, as the spec has it, fails: the unknown type [bogus] is answered by
    [{"status": "error", "message": "Unknown command type: bogus"}], not
    by a success envelope carrying the text. *)
Lemma unknown_command_not_success :
  let command := JDict [("type", JStr "bogus"); ("params", JDict [])] in
  is_key (handlers Demo.runtime Demo.houdini Demo.start)
    (JStr "bogus") = false
  /\ fst (execute_command Demo.runtime Demo.houdini command Demo.start)
     <> Normal (Returned
                  (JDict [("status", JStr "success");
                          ("result", JStr "Unknown command type: bogus")]))
  /\ fst (execute_command Demo.runtime Demo.houdini command Demo.start)
     = Normal (Returned
                 (JDict [("status", JStr "error");
                         ("message", JStr "Unknown command type: bogus")])).
Proof.
  cbv zeta. split; [reflexivity|]. split; [|reflexivity].
  vm_compute. discriminate.
Qed.

(** C10, as the spec has it, fails: [execute_command] does raise.  The
    text [raise SystemExit(3)], run by [execute_code], is left by
    [SystemExit], which neither [except Exception] on its way catches. *)
Lemma execute_command_can_raise :
  let command :=
    JDict [("type", JStr "execute_code");
           ("params", JDict [("code", JStr "raise SystemExit(3)")])] in
  execute_command Demo.runtime Demo.houdini command Demo.start
  = (Exits (SystemExit (JInt 3)), Demo.start)
  /\ forall v w',
       execute_command Demo.runtime Demo.houdini command Demo.start
       <> (Normal (Returned v), w').
Proof.
  cbv zeta. split; [reflexivity|].
  intros v w'. vm_compute. discriminate.
Qed.

Lemma unknown_command_error_envelope_witness :
  execute_command Demo.runtime Demo.houdini
    (JDict [("type", JStr "bogus"); ("params", JDict [])]) Demo.start
  = (Normal (Returned
               (JDict [("status", JStr "error");
                       ("message", JStr "Unknown command type: bogus")])),
     Demo.start).
Proof.
  apply (unknown_command_error_envelope Demo.runtime Demo.houdini
           [("type", JStr "bogus"); ("params", JDict [])] Demo.start);
    reflexivity.
Defined.

Lemma recognized_command_success_envelope_witness :
  execute_command Demo.runtime Demo.houdini
    (JDict [("type", JStr "get_asset_lib_status")]) Demo.start
  = (Normal (Returned
               (JDict [("status", JStr "success");
                       ("result",
                        JDict [("enabled", JBool false);
                               ("message",
                                JStr "Asset library usage is disabled.")])])),
     Demo.start).
Proof.
  apply (recognized_command_success_envelope Demo.runtime Demo.houdini
           [("type", JStr "get_asset_lib_status")] Demo.start Demo.start
           "get_asset_lib_status"
           (self_get_asset_lib_status Demo.houdini));
    reflexivity.
Defined.

Lemma execute_command_on_objects_witness :
  execute_command Demo.runtime Demo.houdini
    (JDict [("type", JStr "delete_node");
            ("params", JDict [("pth", JStr "/obj/geo1")])]) Demo.start
  = (Normal (Returned
               (JDict [("status", JStr "error");
                       ("message",
                        JStr "delete_node() got unexpected or missing arguments")])),
     Demo.start).
Proof.
  apply (proj1 (proj2 (proj2 (proj2
           (execute_command_on_objects Demo.runtime Demo.houdini
              [("type", JStr "delete_node");
               ("params", JDict [("pth", JStr "/obj/geo1")])] Demo.start))))
           "delete_node" (self_delete_node Demo.runtime Demo.houdini)
           [("pth", JStr "/obj/geo1")] "pth").
  - reflexivity.
  - reflexivity.
  - reflexivity.
  - simpl. left. reflexivity.
  - simpl. intros [H|[]]. discriminate H.
Defined.

End DispatchProofs.

(* ====================================================================== *)
(** * Properties of the handlers *)
(* ====================================================================== *)

Module HandlerProofs.
Import Py Exc Exc.Notations Server.

Section Handlers.
Variable rt : Runtime.
Variable hou : HouAPI.

(** The parameter loop of [modify_node] appends, in the order of the
    entries, one line per entry whose name resolves. *)
Lemma modify_parm_loop (n : node hou) (items : list (string * json)) :
  forall (changes changes' : list string) (w w' : world hou),
    for_each items changes (modify_parm rt hou n) w = (Returned changes', w')
    ->
    exists steps : list (parm_step hou),
      map (fun s => (step_key s, step_value s)) steps = items
      /\ Forall (step_on hou n) steps
      /\ changes' = (changes ++ flat_map (step_entry rt hou) steps)%list.
Proof.
  induction items as [|[k v] items IH]; intros changes changes' w w' H.
  - simpl in H. unfold ret in H. inversion H; subst.
    exists []. simpl. rewrite app_nil_r. auto.
  - simpl in H. unfold bind at 1 in H.
    destruct (modify_parm rt hou n (k, v) changes w) as [[c1|e] w1] eqn:E;
      [|discriminate H].
    apply IH in H. destruct H as [steps [Hmap [Hall Hc]]].
    unfold modify_parm, bind, ret in E. simpl in E.
    destruct (node_parm hou n k w) as [[[p|]|e] w2] eqn:Ep;
      [ | | discriminate E].
    + destruct (parm_eval hou p w2) as [[old|e] w3] eqn:Ee;
        [|discriminate E].
      destruct (parm_set hou p v w3) as [[[]|e] w4] eqn:Es;
        [|discriminate E].
      inversion E; subst c1 w1.
      exists ({| step_key := k; step_value := v; step_scene := w;
                 step_old := Some old |} :: steps).
      split; [simpl; now rewrite Hmap|].
      split.
      * constructor; [|assumption].
        unfold step_on; simpl. eauto.
      * subst changes'. unfold append. simpl.
        unfold step_entry at 2. simpl.
        rewrite <- app_assoc. reflexivity.
    + inversion E; subst c1 w1.
      exists ({| step_key := k; step_value := v; step_scene := w;
                 step_old := None |} :: steps).
      split; [simpl; now rewrite Hmap|].
      split.
      * constructor; [|assumption].
        unfold step_on; simpl. eauto.
      * subst changes'. reflexivity.
Qed.

Lemma set_position_if_given_taken (n : node hou) (position : json)
    (moved : bool) (w w' : world hou) :
  set_position_if_given rt hou n position w = (Returned moved, w') ->
  moved = position_given rt position.
Proof.
  unfold set_position_if_given, position_given, bind, lift, ret.
  destruct (truthy position); cbv beta iota.
  - destruct (py_len rt position) as [len|e]; cbv beta iota;
      [|discriminate].
    destruct (2 <=? len)%nat; cbv beta iota.
    + destruct (py_getitem rt position 0); cbv beta iota; [|discriminate].
      destruct (py_getitem rt position 1); cbv beta iota; [|discriminate].
      destruct (node_setPosition hou n a a0 w) as [[[]|e] w1];
        cbv beta iota; [|discriminate].
      now inversion 1.
    + now inversion 1.
  - destruct (py_len rt position); now inversion 1.
Qed.

(** C9. A [modify_node] call that returns has found its node, and its
    change log is: the rename line when a truthy name different from the
    old one was given, then the position line when a position of length
    two or more was given, then one line per entry of [parameters] whose
    name resolved on the node, in the order of the entries, entries that
    do not resolve giving no line. *)
Theorem modify_node_change_log_order
    (path parameters position name v : json) (w w' : world hou) :
  modify_node rt hou path parameters position name w = (Returned v, w') ->
  exists (n : node hou) (w0 w1 : world hou) (old_name pth : string)
         (steps : list (parm_step hou)),
    hou_node hou path w = (Returned (Some n), w0)
    /\ node_name hou n w0 = (Returned old_name, w1)
    /\ map (fun s => (step_key s, step_value s)) steps
       = entries_of parameters
    /\ Forall (step_on hou n) steps
    /\ v = JDict
             [("path", JStr pth);
              ("changes",
               JList (map JStr
                        (change_log rt hou name old_name position steps)))].
Proof.
  unfold modify_node. intros H.
  unfold bind at 1 in H.
  destruct (hou_node hou path w) as [[[n|]|e] w0] eqn:En;
    [ | discriminate H | discriminate H].
  unfold bind at 1 in H.
  destruct (node_name hou n w0) as [[old_name|e] w1] eqn:Eo;
    [|discriminate H].
  unfold bind at 1 in H.
  set (rename := rename_entry rt name old_name).
  assert (Hren : exists w2,
             (if truthy name && py_ne_str name old_name
              then bind (node_setName hou n name)
                     (fun _ => ret (append []
                        ("Renamed from " ++ old_name ++ " to "
                         ++ py_str rt name)))
              else ret []) w1 = (Returned rename, w2)
             \/ exists e,
             (if truthy name && py_ne_str name old_name
              then bind (node_setName hou n name)
                     (fun _ => ret (append []
                        ("Renamed from " ++ old_name ++ " to "
                         ++ py_str rt name)))
              else ret []) w1 = (Raised e, w2)).
  { subst rename. unfold rename_entry.
    destruct (truthy name && py_ne_str name old_name).
    - unfold bind, ret.
      destruct (node_setName hou n name w1) as [[[]|e] w2]; eauto. 
    - unfold ret. eauto. }
  destruct Hren as [w2 [Hren | [e Hren]]]; rewrite Hren in H;
    [|discriminate H].
  unfold bind at 1 in H.
  destruct (set_position_if_given rt hou n position w2)
    as [[moved|e] w3] eqn:Ep; [|discriminate H].
  apply set_position_if_given_taken in Ep. subst moved.
  unfold bind at 1 in H.
  set (pos := position_entry rt position) in *.
  assert (Hc : (if position_given rt position
                then append rename ("Position set to " ++ py_str rt position)
                else rename) = (rename ++ pos)%list).
  { subst pos. unfold position_entry.
    destruct (position_given rt position);
      [reflexivity | now rewrite app_nil_r]. }
  rewrite Hc in H. clear Hc.
  assert (Hloop : forall changes' w4,
             (if truthy parameters
              then bind (lift (py_items rt parameters))
                     (fun items =>
                        for_each items (rename ++ pos)%list
                          (modify_parm rt hou n))
              else ret (rename ++ pos)%list) w3 = (Returned changes', w4) ->
             exists steps : list (parm_step hou),
               map (fun s => (step_key s, step_value s)) steps
               = entries_of parameters
               /\ Forall (step_on hou n) steps
               /\ changes' = ((rename ++ pos)
                              ++ flat_map (step_entry rt hou) steps)%list).
  { intros changes' w4. destruct (truthy parameters) eqn:Et.
    - unfold bind, lift, py_items.
      destruct parameters; try discriminate.
      simpl. apply modify_parm_loop.
    - unfold ret. inversion 1; subst. exists []. simpl.
      rewrite app_nil_r. repeat split; [|constructor].
      destruct parameters; try reflexivity.
      destruct d; [reflexivity | discriminate Et]. }
  match type of H with
  | (match ?m with _ => _ end) = _ =>
      destruct m as [[changes'|e] w4]; [|discriminate H]
  end.
  destruct (Hloop _ _ eq_refl) as [steps [Hmap [Hall Hch]]].
  unfold bind, ret in H.
  destruct (node_path hou n w4) as [[pth|e] w5]; [|discriminate H].
  inversion H; subst v w5.
  exists n, w0, w1, old_name, pth, steps.
  repeat split; try assumption.
  subst changes'. unfold change_log. rewrite <- app_assoc. reflexivity.
Qed.

(** [try: body / except Exception as e: return f(e)] never raises. *)
Lemma try_except_Exception_returns {S A : Type} (body : M S A)
    (f : exn -> A) (s : S) :
  try_except body [(is_Exception, fun e => ret (f e))] s =
    match body s with
    | (Returned a, s') => (Returned a, s')
    | (Raised e, s') => (Returned (f e), s')
    end.
Proof.
  unfold try_except. destruct (body s) as [[a|e] s']; reflexivity.
Qed.

(** C8. [set_material] never raises, whatever its arguments and whatever
    the scene: it returns what its [try] block returns, and when any step
    of the block raises [e] - a failure the handler detects itself or an
    exception of a [hou] call - it returns
    [{"status": "error", "message": str(e), "node": node_path}].  The
    first two failures the handler detects are spelled out: the node is
    not found, and the node is not of category [Object]. *)
Theorem set_material_never_raises
    (node_path_ material_type name parameters : json) (w : world hou) :
  (exists v w',
      set_material rt hou node_path_ material_type name parameters w
      = (Returned v, w'))
  /\ (forall e w',
        set_material_try rt hou node_path_ material_type name parameters w
        = (Raised e, w') ->
        set_material rt hou node_path_ material_type name parameters w
        = (Returned (JDict [("status", JStr "error");
                            ("message", JStr (exn_str e));
                            ("node", node_path_)]), w'))
  /\ (forall v w',
        set_material_try rt hou node_path_ material_type name parameters w
        = (Returned v, w') ->
        set_material rt hou node_path_ material_type name parameters w
        = (Returned v, w'))
  /\ (forall w',
        hou_node hou node_path_ w = (Returned None, w') ->
        set_material rt hou node_path_ material_type name parameters w
        = (Returned (JDict [("status", JStr "error");
                            ("message",
                             JStr ("Node not found: "
                                   ++ py_str rt node_path_));
                            ("node", node_path_)]), w'))
  /\ (forall n w0 category w',
        hou_node hou node_path_ w = (Returned (Some n), w0) ->
        node_category_name hou n w0 = (Returned category, w') ->
        category <> "Object" ->
        set_material rt hou node_path_ material_type name parameters w
        = (Returned (JDict [("status", JStr "error");
                            ("message",
                             JStr ("Node " ++ py_str rt node_path_
                                   ++ " is not an OBJ-level node and cannot accept direct materials."));
                            ("node", node_path_)]), w')).
Proof.
  unfold set_material. rewrite try_except_Exception_returns.
  repeat split.
  - destruct (set_material_try rt hou node_path_ material_type name
                parameters w) as [[v|e] w']; eauto.
  - intros e w' H. rewrite H. reflexivity.
  - intros v w' H. rewrite H. reflexivity.
  - intros w' H. unfold set_material_try, bind at 1. rewrite H.
    reflexivity.
  - intros n w0 category w' Hn Hc Hne.
    unfold set_material_try, bind at 1. rewrite Hn.
    unfold bind at 1. rewrite Hc.
    apply String.eqb_neq in Hne. rewrite Hne. reflexivity.
Qed.

End Handlers.

(** The later failures of [set_material], on concrete scenes: an object
    without material parameter and without a [geometry] node inside, and
    one whose [geometry] holds a Material SOP without parameter. *)
Example set_material_no_geometry :
  fst (set_material Demo.runtime Demo.houdini (JStr "/obj/cam1") JNull JNull
         JNull
         {| Demo.paths := ["/obj"; "/mat"; "/obj/cam1"]; Demo.values := [];
            Demo.use_assetlib := JBool false |})
  = Returned
      (JDict [("status", JStr "error");
              ("message",
               JStr "No 'geometry' node found inside OBJ to apply material to.");
              ("node", JStr "/obj/cam1")]).
Proof. reflexivity. Qed.

Example set_material_no_parameter_on_sop :
  fst (set_material Demo.runtime Demo.houdini (JStr "/obj/geo1")
         (JStr "principledshader") (JStr "red") JNull
         {| Demo.paths := ["/obj"; "/shop"; "/obj/geo1"; "/obj/geo1/geometry"];
            Demo.values := []; Demo.use_assetlib := JBool false |})
  = Returned
      (JDict [("status", JStr "error");
              ("message",
               JStr "No shop_materialpath1 on Material SOP to assign the material.");
              ("node", JStr "/obj/geo1")]).
Proof. reflexivity. Qed.

Example set_material_no_context :
  fst (set_material Demo.runtime Demo.houdini (JStr "/obj/geo1") JNull JNull
         JNull
         {| Demo.paths := ["/obj"; "/obj/geo1"]; Demo.values := [];
            Demo.use_assetlib := JBool false |})
  = Returned
      (JDict [("status", JStr "error");
              ("message",
               JStr "No /mat or /shop context found to create materials.");
              ("node", JStr "/obj/geo1")]).
Proof. reflexivity. Qed.

Lemma set_material_never_raises_witness :
  set_material Demo.runtime Demo.houdini (JStr "/obj/zzz")
    (JStr "principledshader") JNull JNull Demo.start
  = (Returned (JDict [("status", JStr "error");
                      ("message", JStr "Node not found: /obj/zzz");
                      ("node", JStr "/obj/zzz")]), Demo.start).
Proof.
  apply (proj1 (proj2 (proj2 (proj2
           (set_material_never_raises Demo.runtime Demo.houdini
              (JStr "/obj/zzz") (JStr "principledshader") JNull JNull
              Demo.start))))).
  reflexivity.
Defined.

Lemma modify_node_change_log_order_witness :
  exists (n : node Demo.houdini) (w0 w1 : world Demo.houdini)
         (old_name pth : string) (steps : list (parm_step Demo.houdini)),
    hou_node Demo.houdini (JStr "/obj/geo1") Demo.start
    = (Returned (Some n), w0)
    /\ node_name Demo.houdini n w0 = (Returned old_name, w1)
    /\ map (fun s => (step_key s, step_value s)) steps
       = [("tx", JInt 5); ("nope", JInt 1); ("scale", JInt 2)]
    /\ Forall (step_on Demo.houdini n) steps
    /\ JDict [("path", JStr "/obj/geo1");
              ("changes",
               JList [JStr "Renamed from geo1 to box";
                      JStr "Position set to [1, 2]";
                      JStr "Parameter tx changed from 0 to 5";
                      JStr "Parameter scale changed from 1 to 2"])]
       = JDict [("path", JStr pth);
                ("changes",
                 JList (map JStr
                          (change_log Demo.runtime Demo.houdini (JStr "box")
                             old_name (JList [JInt 1; JInt 2]) steps)))].
Proof.
  apply (modify_node_change_log_order Demo.runtime Demo.houdini
           (JStr "/obj/geo1")
           (JDict [("tx", JInt 5); ("nope", JInt 1); ("scale", JInt 2)])
           (JList [JInt 1; JInt 2]) (JStr "box")
           (JDict [("path", JStr "/obj/geo1");
                   ("changes",
                    JList [JStr "Renamed from geo1 to box";
                           JStr "Position set to [1, 2]";
                           JStr "Parameter tx changed from 0 to 5";
                           JStr "Parameter scale changed from 1 to 2"])])
           Demo.start
           (Demo.write_parm ("/obj/geo1", "scale") (JInt 2)
              (Demo.write_parm ("/obj/geo1", "tx") (JInt 5) Demo.start))).
  reflexivity.
Defined.

End HandlerProofs.

(* ====================================================================== *)
(** * Properties of the poll loop *)
(* ====================================================================== *)

Module PollProofs.
Import Py Exc Exc.Notations Server Tactics.

Ltac unfold_proc :=
  unfold tick, tick_completion, _process_server, process_client,
    accept_connection, drop_client, client_close, client_recv,
    client_sendall, client_setblocking, socket_accept, self_execute_command,
    set_buffer, set_client, set_self, emit, Wide.try_except, Wide.bind,
    Wide.lift, Wide.get, Wide.modify, Wide.ret, Wide.raise in *.

(** From [H : tick io s w = (s', w', t)] to the run of [_process_server]
    behind it, named [Hp]. *)
Ltac open_tick H Hp :=
  unfold tick in H;
  match type of H with
  | context [snd ?run] =>
      let r := fresh "r" in
      let p' := fresh "p'" in
      destruct run as [r p'] eqn:Hp;
      simpl in H; inversion H; subst; clear H;
      unfold_proc; simpl in Hp
  end.

Section Poll.
Variable rt : Runtime.
Variable hou : HouAPI.

(** A tick of a stopped server does nothing. *)
Lemma tick_not_running (io : tick_io) (s : server) (w : world hou) :
  running s = false -> tick rt hou io s w = (s, w, []).
Proof. intros H. unfold_proc. simpl. rewrite H. reflexivity. Qed.

Ltac finish Hp :=
  inversion Hp; subst; clear Hp; unfold append; simpl in *;
  rewrite ?in_app_iff; simpl; intuition congruence.

(** A tick in which the buffer with the new bytes parses: the buffer is
    empty afterwards, whatever happens to the response. *)
Lemma tick_frame_consumed (io : tick_io) (s s' : server)
    (w w' : world hou) (t : list event) (c : nat) (data : list byte)
    (command : json) :
  tick rt hou io s w = (s', w', t) ->
  running s = true ->
  receiving_client io s = Some c ->
  io_recv io = Returned data -> data <> [] ->
  parse_buffer rt (buffer s ++ data) = Returned command ->
  buffer s' = [] /\ In (Executed command) t.
Proof.
  intros H Hrun Hc Hrecv Hdata Hparse.
  destruct s as [run sk cl buf]. unfold receiving_client in Hc.
  destruct data as [|b data]; [congruence|].
  simpl in *. subst run.
  open_tick H Hp. exec Hp.
  all: finish Hp.
Qed.

(** A tick that leaves the server without the client it was reading from
    leaves it with an empty buffer. *)
Lemma tick_drop_clears (io : tick_io) (s s' : server) (w w' : world hou)
    (t : list event) (c : nat) :
  tick rt hou io s w = (s', w', t) ->
  running s = true ->
  receiving_client io s = Some c ->
  client s' = None ->
  buffer s' = [].
Proof.
  intros H Hrun Hc Hn.
  destruct s as [run sk cl buf]. unfold receiving_client in Hc.
  simpl in *. subst run.
  open_tick H Hp. exec Hp.
  all: inversion Hp; subst; clear Hp; simpl in *; congruence.
Qed.

(** A zero-length read or a receive error drops the client, when closing
    the socket succeeds. *)
Lemma tick_end_of_stream (io : tick_io) (s s' : server) (w w' : world hou)
    (t : list event) (c : nat) :
  tick rt hou io s w = (s', w', t) ->
  running s = true ->
  receiving_client io s = Some c ->
  io_recv io = Returned []
  \/ (exists e, io_recv io = Raised e /\ is_class BlockingIOError e = false)
  ->
  io_close io = [] ->
  client s' = None /\ buffer s' = [] /\ In (Closed c) t.
Proof.
  intros H Hrun Hc Hrecv Hclose.
  destruct s as [run sk cl buf]. unfold receiving_client in Hc.
  simpl in *. subst run.
  destruct Hrecv as [Hrecv | [e [Hrecv Hcls]]];
    open_tick H Hp; exec Hp.
  all: finish Hp.
Qed.

(** A tick whose parse fails with [JSONDecodeError] keeps the buffer with
    the new bytes, keeps the client, and does nothing else. *)
Lemma tick_syntax_error (io : tick_io) (s s' : server) (w w' : world hou)
    (t : list event) (c : nat) (data : list byte) (e : exn) :
  tick rt hou io s w = (s', w', t) ->
  running s = true ->
  receiving_client io s = Some c ->
  io_recv io = Returned data -> data <> [] ->
  parse_buffer rt (buffer s ++ data) = Raised e ->
  is_class JSONDecodeError e = true ->
  buffer s' = (buffer s ++ data)%list /\ client s' = Some c /\ w' = w
  /\ existsb is_output t = false.
Proof.
  intros H Hrun Hc Hrecv Hdata Hparse Hcls.
  destruct s as [run sk cl buf]. unfold receiving_client in Hc.
  destruct data as [|b data]; [congruence|].
  simpl in *. subst run.
  open_tick H Hp. exec Hp.
  all: finish Hp.
Qed.

(** A tick in which no buffer parses dispatches nothing, writes nothing
    and leaves the scene alone. *)
Lemma tick_no_parse_no_output (io : tick_io) (s s' : server)
    (w w' : world hou) (t : list event) :
  tick rt hou io s w = (s', w', t) ->
  (forall c data command,
      running s = true ->
      receiving_client io s = Some c ->
      io_recv io = Returned data -> data <> [] ->
      parse_buffer rt (buffer s ++ data) <> Returned command) ->
  w' = w /\ existsb is_output t = false.
Proof.
  intros H Hnp.
  destruct s as [run sk cl buf]. unfold receiving_client in Hnp.
  simpl in Hnp.
  destruct run; [|rewrite tick_not_running in H by reflexivity;
                  inversion H; subst; auto].
  assert (Hcases :
            (exists c, match cl with
                       | Some c => Some c
                       | None =>
                           match sk with
                           | Some _ =>
                               match io_accept io with
                               | Returned c => Some c
                               | Raised _ => None
                               end
                           | None => None
                           end
                       end = Some c)
            -> forall b data command,
              io_recv io = Returned (b :: data) ->
              parse_buffer rt (buf ++ b :: data) <> Returned command).
  { intros [c Hc] b data command Hrecv.
    apply (Hnp c); auto. discriminate. }
  clear Hnp.
  destruct (io_recv io) as [[|b data]|e] eqn:Hrecv.
  - open_tick H Hp. exec Hp. all: finish Hp.
  - destruct (parse_buffer rt (buf ++ b :: data)) as [command|e]
      eqn:Hparse.
    + open_tick H Hp. exec Hp.
      all: try (exfalso; eapply Hcases; eauto; fail).
      all: finish Hp.
    + open_tick H Hp. exec Hp. all: finish Hp.
  - open_tick H Hp. exec Hp. all: finish Hp.
Qed.

(** ** Ticks of a connected server in which only data arrives *)

Lemma tick_receive_syntax_error (s : server) (w : world hou) (c : nat)
    (data : list byte) (e : exn) :
  running s = true -> client s = Some c -> data <> [] ->
  parse_buffer rt (buffer s ++ data) = Raised e ->
  is_class JSONDecodeError e = true ->
  tick rt hou (receive data) s w
  = (with_buffer s (buffer s ++ data), w, []).
Proof.
  intros Hrun Hc Hdata Hparse Hcls.
  destruct s as [run sk cl buf]. destruct data as [|b data]; [congruence|].
  simpl in *. subst run cl.
  destruct (tick rt hou (receive (b :: data))
              {| running := true; socket := sk; client := Some c;
                 buffer := buf |} w) as [[s' w'] t] eqn:H.
  open_tick H Hp. exec Hp. inversion Hp; subst. reflexivity.
Qed.

Lemma tick_receive_command (s : server) (w w' : world hou) (c : nat)
    (data : list byte) (command response : json) :
  running s = true -> client s = Some c -> data <> [] ->
  parse_buffer rt (buffer s ++ data) = Returned command ->
  execute_command rt hou command w = (Normal (Returned response), w') ->
  tick rt hou (receive data) s w
  = (with_buffer s [], w',
     [Executed command;
      SendAll c (encode_utf8 (json_dumps rt response))]).
Proof.
  intros Hrun Hc Hdata Hparse Hexec.
  destruct s as [run sk cl buf]. destruct data as [|b data]; [congruence|].
  simpl in *. subst run cl.
  destruct (tick rt hou (receive (b :: data))
              {| running := true; socket := sk; client := Some c;
                 buffer := buf |} w) as [[s' w0] t] eqn:H.
  open_tick H Hp. exec Hp. inversion Hp; subst. reflexivity.
Qed.


(** A dispatch that is left by an exception outside [Exception]: the
    exception leaves the callback as well; the buffer was emptied before
    the dispatch, the client stays, and nothing is written. *)
Lemma tick_receive_exit (s : server) (w w' : world hou) (c : nat)
    (data : list byte) (command : json) (b : base_exception) :
  running s = true -> client s = Some c -> data <> [] ->
  parse_buffer rt (buffer s ++ data) = Returned command ->
  execute_command rt hou command w = (Exits b, w') ->
  tick rt hou (receive data) s w = (with_buffer s [], w', [Executed command])
  /\ tick_completion rt hou (receive data) s w = Exits b.
Proof.
  intros Hrun Hc Hdata Hparse Hexec.
  destruct s as [run sk cl buf].
  destruct data as [|b0 data]; [congruence|].
  simpl in *. subst run cl.
  unfold tick, tick_completion.
  destruct (_process_server rt hou
              {| self := {| running := true; socket := sk; client := Some c;
                            buffer := buf |};
                 scene := w; env := receive (b0 :: data); trace := [] |})
    as [r p'] eqn:Hp.
  unfold_proc. simpl in Hp. exec Hp. inversion Hp; subst.
  split; reflexivity.
Qed.

Lemma tick_receive_rejected (s : server) (w : world hou) (c : nat)
    (data : list byte) (e : exn) :
  running s = true -> client s = Some c -> data <> [] ->
  parse_buffer rt (buffer s ++ data) = Raised e ->
  is_class JSONDecodeError e = false ->
  is_class BlockingIOError e = false ->
  tick rt hou (receive data) s w = (without_client s, w, [Closed c]).
Proof.
  intros Hrun Hc Hdata Hparse Hcls Hblk.
  destruct s as [run sk cl buf]. destruct data as [|b data]; [congruence|].
  simpl in *. subst run cl.
  destruct (tick rt hou (receive (b :: data))
              {| running := true; socket := sk; client := Some c;
                 buffer := buf |} w) as [[s' w0] t] eqn:H.
  open_tick H Hp. exec Hp. inversion Hp; subst. reflexivity.
Qed.

Lemma tick_receive_no_client (s : server) (w : world hou)
    (data : list byte) :
  client s = None ->
  tick rt hou (receive data) s w = (s, w, []).
Proof.
  intros Hc. destruct s as [run sk cl buf]. simpl in *. subst cl.
  destruct (tick rt hou (receive data)
              {| running := run; socket := sk; client := None;
                 buffer := buf |} w) as [[s' w0] t] eqn:H.
  open_tick H Hp. exec Hp. all: inversion Hp; subst; reflexivity.
Qed.

(** ** Runs *)

Lemma run_cons (io : tick_io) (ios : list tick_io) (s s1 s2 : server)
    (w w1 w2 : world hou) (t1 t2 : list event) :
  tick rt hou io s w = (s1, w1, t1) ->
  run rt hou ios s1 w1 = (s2, w2, t2) ->
  run rt hou (io :: ios) s w = (s2, w2, (t1 ++ t2)%list).
Proof. intros H1 H2. cbn [run]. rewrite H1, H2. reflexivity. Qed.

(** Chunks whose accumulated bytes fail to parse with a JSON syntax
    error pile up in the buffer. *)
Lemma partial_frames_accumulate (chunks : list (list byte)) :
  forall (s : server) (w : world hou) (c : nat),
    running s = true -> client s = Some c ->
    Forall (fun chunk => chunk <> []) chunks ->
    (forall k, (k < List.length chunks)%nat ->
       exists e,
         parse_buffer rt (buffer s ++ List.concat (firstn (S k) chunks))
         = Raised e
         /\ is_class JSONDecodeError e = true) ->
    run rt hou (map receive chunks) s w
    = (with_buffer s (buffer s ++ List.concat chunks), w, []).
Proof.
  induction chunks as [|chunk chunks IH]; intros s w c Hrun Hc Hne Hfail.
  - simpl. rewrite app_nil_r. destruct s; reflexivity.
  - inversion Hne as [|? ? Hchunk Hrest]; subst.
    destruct (Hfail 0%nat) as [e [Hparse Hcls]]; [simpl; lia|].
    simpl in Hparse. rewrite app_nil_r in Hparse.
    simpl map.
    erewrite run_cons;
      [ | eapply tick_receive_syntax_error; eauto
        | eapply (IH _ w c); simpl; eauto ].
    + unfold with_buffer. simpl. rewrite <- app_assoc. reflexivity.
    + intros k Hk. destruct (Hfail (S k)) as [e' [Hp' Hc']];
        [simpl; lia|].
      exists e'. split; [|assumption].
      simpl in Hp'. rewrite <- app_assoc. exact Hp'.
Qed.

(** Under [never_parses] a run dispatches nothing and writes nothing. *)
Lemma run_no_parse_no_output (ios : list tick_io) :
  forall (s s' : server) (w w' : world hou) (t : list event),
    run rt hou ios s w = (s', w', t) ->
    never_parses rt hou ios s w ->
    w' = w /\ existsb is_output t = false.
Proof.
  induction ios as [|io ios IH]; intros s s' w w' t H Hnp.
  - simpl in H. inversion H; subst. auto.
  - cbn [run never_parses] in H, Hnp. destruct Hnp as [Hnow Hlater].
    destruct (tick rt hou io s w) as [[s1 w1] t1] eqn:Ht.
    destruct (run rt hou ios s1 w1) as [[s2 w2] t2] eqn:Hr.
    inversion H; subst; clear H. cbn [fst snd] in Hlater.
    destruct (tick_no_parse_no_output _ _ _ _ _ _ Ht Hnow) as [Hw Ht1].
    destruct (IH _ _ _ _ _ Hr Hlater) as [Hw2 Ht2].
    split; [congruence|].
    rewrite existsb_app, Ht1, Ht2. reflexivity.
Qed.

Lemma run_app (ios1 ios2 : list tick_io) :
  forall (s s1 s2 : server) (w w1 w2 : world hou) (t1 t2 : list event),
    run rt hou ios1 s w = (s1, w1, t1) ->
    run rt hou ios2 s1 w1 = (s2, w2, t2) ->
    run rt hou (ios1 ++ ios2) s w = (s2, w2, (t1 ++ t2)%list).
Proof.
  induction ios1 as [|io ios1 IH]; intros s s1 s2 w w1 w2 t1 t2 H1 H2.
  - cbn [run] in H1. inversion H1; subst. exact H2.
  - cbn [run] in H1.
    destruct (tick rt hou io s w) as [[sa wa] ta] eqn:Ht.
    destruct (run rt hou ios1 sa wa) as [[sb wb] tb] eqn:Hr.
    inversion H1; subst; clear H1.
    rewrite <- app_comm_cons.
    erewrite run_cons; [ | exact Ht | eapply IH; eassumption ].
    rewrite app_assoc. reflexivity.
Qed.

Lemma run_one (io : tick_io) (s s' : server) (w w' : world hou)
    (t : list event) :
  tick rt hou io s w = (s', w', t) ->
  run rt hou [io] s w = (s', w', t).
Proof.
  intros H. cbn [run]. rewrite H, app_nil_r. reflexivity.
Qed.

(** What the code does for chunked delivery: when every chunk but the
    last leaves a buffer that fails to parse with a JSON syntax error and
    the whole parses, the chunks do what the whole does: the one dispatch,
    and the one response when the dispatch returns. *)
Lemma chunked_delivery_when_prefixes_fail (chunks : list (list byte))
    (last : list byte) (s : server) (w : world hou) (c : nat)
    (command : json) :
  running s = true -> client s = Some c ->
  Forall (fun chunk => chunk <> []) chunks -> last <> [] ->
  (forall k, (k < List.length chunks)%nat ->
     exists e,
       parse_buffer rt (buffer s ++ List.concat (firstn (S k) chunks))
       = Raised e
       /\ is_class JSONDecodeError e = true) ->
  parse_buffer rt (buffer s ++ List.concat chunks ++ last)
  = Returned command ->
  run rt hou [receive (List.concat chunks ++ last)] s w
  = run rt hou (map receive (chunks ++ [last])) s w
  /\ (forall (w' : world hou) (response : json),
        execute_command rt hou command w = (Normal (Returned response), w')
        -> run rt hou (map receive (chunks ++ [last])) s w
           = (with_buffer s [], w',
              [Executed command;
               SendAll c (encode_utf8 (json_dumps rt response))])).
Proof.
  intros Hrun Hc Hne Hlast Hfail Hparse.
  assert (Hwhole : (List.concat chunks ++ last)%list <> []).
  { destruct chunks as [|ch chs]; simpl.
    - exact Hlast.
    - inversion Hne; subst. destruct ch; [congruence | discriminate]. }
  assert (Hsplit : forall t1,
             tick rt hou (receive last)
               (with_buffer s (buffer s ++ List.concat chunks)) w = t1 ->
             run rt hou (map receive (chunks ++ [last])) s w = t1).
  { intros [[s1 w1] t1] Ht. rewrite map_app. simpl map.
    erewrite run_app;
      [ | eapply partial_frames_accumulate; eauto
        | eapply run_one; exact Ht ].
    reflexivity. }
  assert (Hlast' :
            parse_buffer rt
              (buffer (with_buffer s (buffer s ++ List.concat chunks))
               ++ last) = Returned command).
  { simpl. rewrite <- app_assoc. exact Hparse. }
  split.
  - destruct (DispatchProofs.execute_command_completes rt hou command w)
      as [w' [[response Hexec] | [b Hexec]]].
    + rewrite (run_one _ _ _ _ _ _
                 (tick_receive_command s w w' c _ command response
                    Hrun Hc Hwhole Hparse Hexec)).
      symmetry. apply Hsplit.
      apply (tick_receive_command
               (with_buffer s (buffer s ++ List.concat chunks)) w w' c last
               command response); auto.
    + rewrite (run_one _ _ _ _ _ _
                 (proj1 (tick_receive_exit s w w' c _ command b
                           Hrun Hc Hwhole Hparse Hexec))).
      symmetry. apply Hsplit.
      apply (tick_receive_exit
               (with_buffer s (buffer s ++ List.concat chunks)) w w' c last
               command b); auto.
  - intros w' response Hexec. apply Hsplit.
    apply (tick_receive_command
             (with_buffer s (buffer s ++ List.concat chunks)) w w' c last
             command response); auto.
Qed.

(** C6, as the code has it.  In a tick of a running server that reads
    from client [c]:
    when the buffer with the received bytes parses, the buffer is empty
    afterwards whatever the dispatch and the send do, and the command was
    dispatched; when the tick leaves the server without client, the
    buffer is empty; a zero-length read or a receive error does leave it
    without client (closing the socket succeeding); and when the parse
    fails with a JSON syntax error the buffer is kept, with the received
    bytes appended, the client stays and nothing is dispatched or
    written. *)
Theorem buffer_reset_discipline (io : tick_io) (s s' : server)
    (w w' : world hou) (t : list event) (c : nat) :
  tick rt hou io s w = (s', w', t) ->
  running s = true ->
  receiving_client io s = Some c ->
  (forall data command,
      io_recv io = Returned data -> data <> [] ->
      parse_buffer rt (buffer s ++ data) = Returned command ->
      buffer s' = [] /\ In (Executed command) t)
  /\ (client s' = None -> buffer s' = [])
  /\ (io_recv io = Returned []
      \/ (exists e,
            io_recv io = Raised e /\ is_class BlockingIOError e = false) ->
      io_close io = [] ->
      client s' = None /\ buffer s' = [] /\ In (Closed c) t)
  /\ (forall data e,
        io_recv io = Returned data -> data <> [] ->
        parse_buffer rt (buffer s ++ data) = Raised e ->
        is_class JSONDecodeError e = true ->
        buffer s' = (buffer s ++ data)%list /\ client s' = Some c
        /\ w' = w /\ existsb is_output t = false).
Proof.
  intros H Hrun Hc. repeat apply conj.
  - intros data command Hrecv Hdata Hparse.
    eapply tick_frame_consumed; eauto.
  - intros Hn. eapply tick_drop_clears; eauto.
  - intros Hrecv Hclose. eapply tick_end_of_stream; eauto.
  - intros data e Hrecv Hdata Hparse Hcls.
    eapply tick_syntax_error; eauto.
Qed.

(** C3, as the code has it.  A run in which the accumulated buffer never
    parses dispatches no command, writes no response and leaves the scene
    alone; and chunks whose accumulated bytes fail to parse with a JSON
    syntax error are all retained, in order, with the client still
    connected. *)
Theorem unparsable_input_is_never_dispatched :
  (forall (ios : list tick_io) (s s' : server) (w w' : world hou)
          (t : list event),
      run rt hou ios s w = (s', w', t) ->
      never_parses rt hou ios s w ->
      w' = w /\ existsb is_output t = false)
  /\ (forall (chunks : list (list byte)) (s : server) (w : world hou)
             (c : nat),
        running s = true -> client s = Some c ->
        Forall (fun chunk => chunk <> []) chunks ->
        (forall k, (k < List.length chunks)%nat ->
           exists e,
             parse_buffer rt (buffer s ++ List.concat (firstn (S k) chunks))
             = Raised e
             /\ is_class JSONDecodeError e = true) ->
        run rt hou (map receive chunks) s w
        = (with_buffer s (buffer s ++ List.concat chunks), w, [])).
Proof.
  split.
  - intros. eapply run_no_parse_no_output; eauto.
  - intros. eapply partial_frames_accumulate; eauto.
Qed.


(** C2, at the failing input.  The bytes of the command
    [{"type": "café"}] written in UTF-8, which parse to [command]:
    delivered in one chunk they are dispatched once, and answered once
    when the dispatch returns - as it does for the command they are the
    bytes of, whose answer is the unknown-command envelope; delivered in
    two chunks cut between the two bytes of the last character, the first
    chunk is not valid UTF-8, the client is dropped with the buffer
    cleared, and nothing is dispatched or answered. *)
Theorem split_inside_character_drops_client (s : server) (w : world hou)
    (c : nat) (command : json) :
  running s = true -> client s = Some c -> buffer s = [] ->
  parse_buffer rt Demo.cafe_bytes = Returned command ->
  (Demo.cafe_head ++ Demo.cafe_tail)%list = Demo.cafe_bytes
  /\ (exists (w' : world hou) (t : list event),
        run rt hou [receive Demo.cafe_bytes] s w
        = (s, w', Executed command :: t)
        /\ forall (response : json) (w2 : world hou),
             execute_command rt hou command w
             = (Normal (Returned response), w2) ->
             w' = w2
             /\ t = [SendAll c (encode_utf8 (json_dumps rt response))])
  /\ (command = Demo.cafe_command ->
      run rt hou [receive Demo.cafe_bytes] s w
      = (s, w,
         [Executed command;
          SendAll c
            (encode_utf8
               (json_dumps rt
                  (JDict [("status", JStr "error");
                          ("message",
                           JStr ("Unknown command type: "
                                 ++ Demo.cafe))])))]))
  /\ run rt hou [receive Demo.cafe_head; receive Demo.cafe_tail] s w
     = (without_client s, w, [Closed c]).
Proof.
  intros Hrun Hc Hbuf Hparse.
  assert (Hne : Demo.cafe_bytes <> []) by discriminate.
  assert (Hparse' : parse_buffer rt (buffer s ++ Demo.cafe_bytes)
                    = Returned command) by (rewrite Hbuf; exact Hparse).
  assert (Hs : with_buffer s [] = s).
  { destruct s; simpl in *; subst; reflexivity. }
  split; [reflexivity|]. split; [|split].
  - destruct (DispatchProofs.execute_command_completes rt hou command w)
      as [w' [[response Hexec] | [b Hexec]]].
    + exists w'. eexists. split.
      * apply run_one.
        rewrite (tick_receive_command s w w' c Demo.cafe_bytes command
                   response Hrun Hc Hne Hparse' Hexec).
        rewrite Hs. reflexivity.
      * intros response2 w2 Hexec2. rewrite Hexec in Hexec2.
        inversion Hexec2; subst. split; reflexivity.
    + exists w', []. split.
      * apply run_one.
        rewrite (proj1 (tick_receive_exit s w w' c Demo.cafe_bytes command
                          b Hrun Hc Hne Hparse' Hexec)).
        rewrite Hs. reflexivity.
      * intros response2 w2 Hexec2. rewrite Hexec in Hexec2.
        discriminate Hexec2.
  - intros Hcmd. apply run_one.
    rewrite (tick_receive_command s w w c Demo.cafe_bytes command
               (JDict [("status", JStr "error");
                       ("message",
                        JStr ("Unknown command type: " ++ Demo.cafe))])
               Hrun Hc Hne Hparse').
    + rewrite Hs. reflexivity.
    + subst command. unfold Demo.cafe_command.
      rewrite DispatchProofs.execute_command_object.
      unfold handlers.
      destruct (truthy (session_use_assetlib hou w)); reflexivity.
  - change [receive Demo.cafe_head; receive Demo.cafe_tail]
      with ([receive Demo.cafe_head] ++ [receive Demo.cafe_tail])%list.
    assert (H1 : run rt hou [receive Demo.cafe_head] s w
                 = (without_client s, w, [Closed c])).
    { apply run_one.
      apply (tick_receive_rejected s w c Demo.cafe_head
               (mkExn UnicodeDecodeError
                  "'utf-8' codec can't decode bytes"));
        try assumption; try reflexivity.
      - discriminate.
      - rewrite Hbuf. reflexivity. }
    assert (H2 : run rt hou [receive Demo.cafe_tail] (without_client s) w
                 = (without_client s, w, [])).
    { apply run_one. apply tick_receive_no_client. reflexivity. }
    rewrite (run_app _ _ _ _ _ _ _ _ _ _ H1 H2). reflexivity.
Qed.

End Poll.
(** C3, as the spec has it, fails: a byte that can never be part of UTF-8
    text never parses, yet the buffer is not retained for the next read:
    the client is dropped and the buffer cleared. *)
Lemma invalid_utf8_is_rejected :
  never_parses Demo.runtime Demo.houdini [receive [xff]]
    Demo.connected Demo.start
  /\ tick Demo.runtime Demo.houdini (receive [xff]) Demo.connected Demo.start
     = (without_client Demo.connected, Demo.start, [Closed 7%nat])
  /\ buffer (without_client Demo.connected)
     <> (buffer Demo.connected ++ [xff])%list.
Proof.
  split; [|split].
  - simpl. split; [|exact I].
    intros c data command _ _ Hrecv _. inversion Hrecv; subst.
    vm_compute. discriminate.
  - reflexivity.
  - discriminate.
Qed.

(** C6, as the spec has it, fails: an opening brace followed by a byte
    that occurs in no UTF-8 text does not parse, yet the buffer is not
    retained: after the tick it is empty and the client is gone. *)
Lemma undecodable_bytes_are_not_retained :
  parse_buffer Demo.runtime (buffer Demo.connected ++ [x7b; xfe])
  = Raised (mkExn UnicodeDecodeError "'utf-8' codec can't decode bytes")
  /\ fst (fst (tick Demo.runtime Demo.houdini (receive [x7b; xfe])
                 Demo.connected Demo.start))
     = without_client Demo.connected
  /\ buffer (without_client Demo.connected)
     <> (buffer Demo.connected ++ [x7b; xfe])%list.
Proof.
  split; [reflexivity|]. split; [reflexivity|]. discriminate.
Qed.

Lemma unparsable_input_is_never_dispatched_witness :
  run Demo.runtime Demo.houdini (map receive [[x7b]; [x22]])
    Demo.connected Demo.start
  = (with_buffer Demo.connected [x7b; x22], Demo.start, []).
Proof.
  apply (proj2 (unparsable_input_is_never_dispatched
                  Demo.runtime Demo.houdini)
           [[x7b]; [x22]] Demo.connected Demo.start 7%nat).
  - reflexivity.
  - reflexivity.
  - repeat constructor; discriminate.
  - intros k Hk.
    exists (mkExn JSONDecodeError "Expecting value").
    destruct k as [|[|k]].
    + split; reflexivity.
    + split; reflexivity.
    + simpl in Hk. lia.
Defined.

Lemma buffer_reset_discipline_witness :
  let data :=
    encode_utf8
      (Demo.dumps (JDict [("type", JStr "bogus"); ("params", JDict [])])) in
  let result :=
    tick Demo.runtime Demo.houdini (receive data) Demo.connected Demo.start in
  buffer (fst (fst result)) = []
  /\ In (Executed (JDict [("type", JStr "bogus"); ("params", JDict [])]))
        (snd result).
Proof.
  intros data result.
  apply (proj1 (buffer_reset_discipline Demo.runtime Demo.houdini
                  (receive data) Demo.connected (fst (fst result))
                  Demo.start (snd (fst result)) (snd result) 7%nat
                  eq_refl eq_refl eq_refl) data).
  - reflexivity.
  - discriminate.
  - reflexivity.
Defined.



Lemma split_inside_character_drops_client_witness :
  (Demo.cafe_head ++ Demo.cafe_tail)%list = Demo.cafe_bytes
  /\ run Demo.runtime Demo.houdini [receive Demo.cafe_bytes]
       Demo.connected Demo.start
     = (Demo.connected, Demo.start,
        [Executed Demo.cafe_command;
         SendAll 7%nat
           (encode_utf8
              (json_dumps Demo.runtime
                 (JDict [("status", JStr "error");
                         ("message",
                          JStr ("Unknown command type: "
                                ++ Demo.cafe))])))])
  /\ run Demo.runtime Demo.houdini
       [receive Demo.cafe_head; receive Demo.cafe_tail]
       Demo.connected Demo.start
     = (without_client Demo.connected, Demo.start, [Closed 7%nat]).
Proof.
  destruct (split_inside_character_drops_client Demo.runtime Demo.houdini
              Demo.connected Demo.start 7%nat Demo.cafe_command
              eq_refl eq_refl eq_refl eq_refl)
    as [Hcut [_ [Hwhole Hsplit]]].
  split; [exact Hcut|]. split; [|exact Hsplit].
  apply Hwhole. reflexivity.
Defined.

End PollProofs.

(* ====================================================================== *)
(** * Properties of the front end *)
(* ====================================================================== *)

Module ClientProofs.
Import Py Exc Exc.Notations Client Tactics.

Ltac unfold_client :=
  unfold send_command, send_command_try, connect, disconnect, set_sock,
    emit, try_except, bind, lift, get, modify, ret, raise in *.

Section Front.
Variable rt : Runtime.
Variable io : call_io.

(** The read loop only receives: it leaves the connection object alone
    and adds [recv] calls on its socket to the trace. *)
Lemma read_loop_only_receives (s : nat)
    (answers : list (outcome (list byte))) :
  forall (chunks : list (list byte)) (st st' : cstate)
         (r : outcome (option json)),
    read_loop rt s answers chunks st = (r, st') ->
    this st' = this st
    /\ exists received,
         trace st' = (trace st ++ received)%list
         /\ forallb is_recv received = true.
Proof.
  induction answers as [|a rest IH]; intros chunks st st' r H.
  - simpl in H. unfold_client. simpl in H. inversion H; subst. simpl.
    split; [reflexivity|]. exists [Recv s]. auto.
  - simpl in H. unfold_client. simpl in H.
    destruct a as [[|b chunk]|e]; simpl in H.
    + inversion H; subst. simpl. split; [reflexivity|].
      exists [Recv s]. auto.
    + destruct (decode_utf8 (List.concat (append chunks (b :: chunk))))
        as [text|e]; simpl in H.
      * destruct (json_loads rt text) as [parsed|e]; simpl in H.
        -- inversion H; subst. simpl. split; [reflexivity|].
           exists [Recv s]. auto.
        -- destruct (is_class JSONDecodeError e); simpl in H.
           ++ apply IH in H. simpl in H.
              destruct H as [Hthis [received [Htr Hall]]].
              split; [exact Hthis|].
              exists (Recv s :: received). split.
              ** rewrite Htr. unfold append. rewrite <- app_assoc.
                 reflexivity.
              ** simpl. exact Hall.
           ++ inversion H; subst. simpl. split; [reflexivity|].
              exists [Recv s]. auto.
      * destruct (is_class JSONDecodeError e); simpl in H.
        -- apply IH in H. simpl in H.
           destruct H as [Hthis [received [Htr Hall]]].
           split; [exact Hthis|].
           exists (Recv s :: received). split.
           ++ rewrite Htr. unfold append. rewrite <- app_assoc.
              reflexivity.
           ++ simpl. exact Hall.
        -- inversion H; subst. simpl. split; [reflexivity|].
           exists [Recv s]. auto.
    + inversion H; subst. simpl. split; [reflexivity|].
      exists [Recv s]. auto.
Qed.

(** The [try] block of [send_command] with its [except] clause, run with
    socket [s]: one send, then receives; when it raises, the socket has
    been closed last and the handle is [None]. *)
Lemma exchange_trace (data : list byte) (st st' : cstate) (s : nat)
    (r : outcome json) :
  sock (this st) = Some s ->
  try_except (send_command_try rt io data)
    [(is_Exception, fun e => bind (disconnect io) (fun _ => raise e))] st
  = (r, st') ->
  exists received,
    forallb is_recv received = true
    /\ match r with
       | Returned _ =>
           trace st' = (trace st ++ [SendAll s data] ++ received)%list
       | Raised _ =>
           sock (this st') = None
           /\ trace st'
              = (trace st ++ [SendAll s data] ++ received ++ [Close s])%list
       end.
Proof.
  intros Hs H. destruct st as [[h p sk] tr]. simpl in Hs. subst sk.
  unfold_client. simpl in H.
  destruct (io_sendall io) as [[]|e1]; simpl in H.
  - destruct (io_settimeout io) as [[]|e2]; simpl in H.
    + match type of H with
      | context [read_loop ?a ?b ?c ?d ?x] =>
          destruct (read_loop a b c d x) as [q st1] eqn:Hloop
      end.
      apply read_loop_only_receives in Hloop.
      destruct Hloop as [Hthis [received [Htr Hall]]].
      simpl in Htr, Hthis. unfold append in Htr.
      exists received. split; [exact Hall|].
      destruct q as [[parsed|]|e3]; simpl in H.
      * inversion H; subst. rewrite Htr, <- app_assoc. reflexivity.
      * rewrite Hthis in H. simpl in H.
        destruct (io_close io) as [[]|e4]; simpl in H;
          inversion H; subst; simpl; unfold append; rewrite Htr;
          rewrite <- !app_assoc; auto.
      * rewrite Hthis in H. simpl in H.
        destruct (io_close io) as [[]|e4]; simpl in H;
          inversion H; subst; simpl; unfold append; rewrite Htr;
          rewrite <- !app_assoc; auto.
    + exists []. split; [reflexivity|].
      destruct (io_close io) as [[]|e4]; simpl in H;
        inversion H; subst; simpl; unfold append;
        rewrite <- !app_assoc; auto.
  - exists []. split; [reflexivity|].
    destruct (io_close io) as [[]|e4]; simpl in H;
      inversion H; subst; simpl; unfold append;
      rewrite <- !app_assoc; auto.
Qed.

(** [send_command] on a connection object without socket starts by
    opening one. *)
Lemma send_command_opens_socket (cmd_type params : json)
    (st st' : cstate) (r : outcome json) :
  sock (this st) = None ->
  send_command rt io cmd_type params st = (r, st') ->
  exists rest, trace st' = (trace st ++ NewSocket :: rest)%list.
Proof.
  intros Hs H. unfold send_command, bind at 1 in H.
  destruct st as [[h p sk] tr]; simpl in Hs; subst sk.
  destruct (connect io {| this := {| host := h; port := p; sock := None |};
                          trace := tr |}) as [[ok|e0] st1] eqn:Hconn;
    unfold connect, set_sock, emit, try_except, bind, lift, get, modify,
      ret, raise in Hconn; simpl in Hconn;
    (destruct (io_socket io) as [s|e1]; simpl in Hconn;
     [destruct (io_connect io) as [[]|e2]; simpl in Hconn|]);
    inversion Hconn; subst; clear Hconn; cbn [negb] in H; cbv iota in H.
  - eapply exchange_trace in H; [|reflexivity].
    destruct H as [received [_ Htr]].
    simpl in Htr. unfold append in Htr.
    destruct r as [v|e]; [|destruct Htr as [_ Htr]];
      rewrite Htr; rewrite <- !app_assoc; simpl; eauto.
  - unfold raise in H. inversion H; subst. simpl. unfold append.
    rewrite <- app_assoc. simpl. eauto.
  - unfold raise in H. inversion H; subst. simpl. unfold append. eauto.
Qed.

End Front.
(** C7. When [send_command], having a connected socket [s] (the one it
    had, or the one [connect] has just opened), raises, the connection
    object is left with [sock = None], and the call has done exactly this:
    opened the connection if there was none, sent the command once,
    received some number of times, and closed [s] as its last action - no
    second send, no reconnect.  The next [send_command] then starts by
    opening a new socket. *)
Theorem send_command_failure_invalidates_socket
    (rt : Runtime) (io : call_io) (cmd_type params : json)
    (st st' : cstate) (e : exn) (s : nat) :
  send_command rt io cmd_type params st = (Raised e, st') ->
  socket_in_use io (this st) = Some s ->
  sock (this st') = None
  /\ (exists received,
        trace st'
        = (trace st ++ opening (this st) s
             ++ [SendAll s (data_out rt cmd_type params)]
             ++ received ++ [Close s])%list
        /\ forallb is_recv received = true)
  /\ (forall (io2 : call_io) (cmd2 params2 : json) (r : outcome json)
             (st2 : cstate),
        send_command rt io2 cmd2 params2 st' = (r, st2) ->
        exists rest, trace st2 = (trace st' ++ NewSocket :: rest)%list).
Proof.
  intros H Hs.
  assert (Hmain :
            sock (this st') = None
            /\ exists received,
                 trace st'
                 = (trace st ++ opening (this st) s
                      ++ [SendAll s (data_out rt cmd_type params)]
                      ++ received ++ [Close s])%list
                 /\ forallb is_recv received = true).
  { unfold send_command, bind at 1 in H.
    destruct st as [[h p sk] tr]. unfold socket_in_use, opening in *.
    simpl in Hs |- *.
    destruct (connect io {| this := {| host := h; port := p; sock := sk |};
                            trace := tr |}) as [[ok|e0] st1] eqn:Hconn;
      unfold connect, set_sock, emit, try_except, bind, lift, get, modify,
        ret, raise in Hconn; simpl in Hconn.
    - destruct sk as [s0|].
      + inversion Hs; subst s0. inversion Hconn; subst; clear Hconn.
        cbn [negb] in H; cbv iota in H.
        eapply exchange_trace in H; [|reflexivity].
        destruct H as [received [Hall [Hsock Htr]]].
        split; [exact Hsock|]. exists received. auto.
      + destruct (io_socket io) as [s2|e2]; [|discriminate Hs].
        destruct (io_connect io) as [[]|e3]; [|discriminate Hs].
        inversion Hs; subst s2. simpl in Hconn.
        inversion Hconn; subst; clear Hconn.
        cbn [negb] in H; cbv iota in H.
        eapply exchange_trace in H; [|reflexivity].
        destruct H as [received [Hall [Hsock Htr]]].
        split; [exact Hsock|]. exists received. split; [|exact Hall].
        rewrite Htr. simpl. unfold append. rewrite <- !app_assoc.
        reflexivity.
    - exfalso. destruct sk as [s0|]; [discriminate Hconn|].
      destruct (io_socket io) as [s2|e2]; simpl in Hconn;
        [destruct (io_connect io) as [[]|e3]; simpl in Hconn|];
        discriminate Hconn. }
  destruct Hmain as [Hsock Htrace].
  split; [exact Hsock|]. split; [exact Htrace|].
  intros io2 cmd2 params2 r st2 H2.
  eapply send_command_opens_socket; eauto.
Qed.

(** The two failures the claim names, on concrete peers: the peer closes
    before a full answer has arrived, and the peer stays silent until the
    read times out. *)
Example send_command_end_of_stream :
  send_command Demo.runtime Demo.peer_closes (JStr "get_scene_info") JNull
    Demo.fresh
  = (Raised (mkExn PlainException
               "No (or incomplete) data from Houdini; EOF reached."),
     {| this := Demo.idle;
        trace := [NewSocket; Connect 5 "localhost" 9876;
                  SendAll 5 (data_out Demo.runtime (JStr "get_scene_info")
                               JNull);
                  Recv 5; Recv 5; Close 5] |}).
Proof. reflexivity. Qed.

Example send_command_timeout :
  send_command Demo.runtime Demo.peer_silent (JStr "get_scene_info") JNull
    Demo.fresh
  = (Raised timed_out,
     {| this := Demo.idle;
        trace := [NewSocket; Connect 5 "localhost" 9876;
                  SendAll 5 (data_out Demo.runtime (JStr "get_scene_info")
                               JNull);
                  Recv 5; Close 5] |}).
Proof. reflexivity. Qed.

Lemma send_command_failure_invalidates_socket_witness :
  let st' :=
    snd (send_command Demo.runtime Demo.peer_closes (JStr "get_scene_info")
           JNull Demo.fresh) in
  sock (this st') = None
  /\ (exists received,
        trace st'
        = (trace Demo.fresh ++ opening (this Demo.fresh) 5
             ++ [SendAll 5 (data_out Demo.runtime (JStr "get_scene_info")
                              JNull)]
             ++ received ++ [Close 5])%list
        /\ forallb is_recv received = true)
  /\ (forall (io2 : call_io) (cmd2 params2 : json) (r : outcome json)
             (st2 : cstate),
        send_command Demo.runtime io2 cmd2 params2 st' = (r, st2) ->
        exists rest, trace st2 = (trace st' ++ NewSocket :: rest)%list).
Proof.
  apply (send_command_failure_invalidates_socket Demo.runtime
           Demo.peer_closes (JStr "get_scene_info") JNull Demo.fresh
           (snd (send_command Demo.runtime Demo.peer_closes
                   (JStr "get_scene_info") JNull Demo.fresh))
           (mkExn PlainException
              "No (or incomplete) data from Houdini; EOF reached.")
           5%nat);
    reflexivity.
Defined.

End ClientProofs.

(* ====================================================================== *)
(** * Further properties of the dispatcher and the handlers *)
(* ====================================================================== *)

Module MoreDispatchProofs.
Import Py Exc Exc.Notations Server Tactics.

Section Dispatch.
Variable rt : Runtime.
Variable hou : HouAPI.

(** X1. The three asset-library commands follow the toggle on
    [hou.session]: called without params, each is answered by
    [{"status": "error", "message": "Unknown command type: <name>"}]
    while the toggle is falsy, and by [{"status": "success", "result": r}]
    with its placeholder [r = {"error": "<name> not implemented"}] while
    it is truthy; the scene is untouched either way. *)
Theorem asset_commands_follow_toggle
    (d : list (string * json)) (w : world hou) (name : string) :
  In name ["get_asset_categories"; "search_assets"; "import_asset"] ->
  dict_get d "type" JNull = JStr name ->
  dict_get d "params" (JDict []) = JDict [] ->
  execute_command rt hou (JDict d) w
  = (Normal
       (Returned
          (if truthy (session_use_assetlib hou w)
           then JDict [("status", JStr "success");
                       ("result",
                        JDict [("error",
                                JStr (name ++ " not implemented"))])]
           else JDict [("status", JStr "error");
                       ("message",
                        JStr ("Unknown command type: " ++ name))])), w).
Proof.
  intros Hname Hty Hparams.
  rewrite DispatchProofs.execute_command_object, Hty, Hparams.
  unfold handlers.
  destruct (truthy (session_use_assetlib hou w));
    simpl in Hname;
    destruct Hname as [H|[H|[H|[]]]]; subst name; reflexivity.
Qed.

(** X2. The asset table shares no key with the base table, so
    [handlers.update(asset_handlers)] only adds entries; and whatever the
    toggle says, a key of the base table is dispatched to the very method
    the base table holds for it. *)
Theorem base_handlers_ignore_toggle
    (w : world hou) (k : string) (m : method hou) :
  (assoc k (asset_handlers hou) = Some m ->
   assoc k (base_handlers rt hou) = None)
  /\ (assoc k (base_handlers rt hou) = Some m ->
      assoc k (handlers rt hou w) = Some m
      /\ is_key (handlers rt hou w) (JStr k) = true).
Proof.
  split.
  - unfold asset_handlers. simpl.
    destruct (String.eqb_spec k "get_asset_categories") as [->|_];
      [reflexivity|].
    destruct (String.eqb_spec k "search_assets") as [->|_]; [reflexivity|].
    destruct (String.eqb_spec k "import_asset") as [->|_]; [reflexivity|].
    discriminate.
  - intros H. unfold handlers, is_key.
    destruct (truthy (session_use_assetlib hou w)).
    + rewrite DispatchProofs.assoc_app, H. auto.
    + rewrite H. auto.
Qed.

(** X3. A command that is not a JSON object - a list, a string, a number,
    [null] - is answered by [{"status": "error", "message": m}], [m]
    being the text of the [AttributeError] of [command.get], and nothing
    is run on the scene. *)
Theorem non_object_command_error_envelope (command : json) (w : world hou) :
  (forall d, command <> JDict d) ->
  execute_command rt hou command w
  = (Normal
       (Returned
          (JDict [("status", JStr "error");
                  ("message",
                   JStr (rt_message rt (NoAttribute command "get")))])),
     w).
Proof.
  intros H. unfold execute_command, _execute_command_internal, py_get.
  wide_unfold.
  destruct command; simpl; try reflexivity.
  exfalso. eapply H. reflexivity.
Qed.

(** X4. A command whose type is a list or an object cannot be looked up in
    the table: it is answered by [{"status": "error", "message": m}], [m]
    being the text of the [TypeError] of the lookup, not the
    unknown-command message, and no handler runs. *)
Theorem unhashable_type_error_envelope
    (d : list (string * json)) (w : world hou) :
  hashable (dict_get d "type" JNull) = false ->
  execute_command rt hou (JDict d) w
  = (Normal
       (Returned
          (JDict [("status", JStr "error");
                  ("message",
                   JStr (rt_message rt
                           (Unhashable (dict_get d "type" JNull))))])),
     w).
Proof.
  intros H. rewrite DispatchProofs.execute_command_object.
  destruct (dict_get d "type" JNull); simpl in H; try discriminate;
    reflexivity.
Qed.

(** X5. Params that are not a JSON object make the call of a recognised
    handler raise [TypeError] before its body runs: the answer is
    [{"status": "error", "message": m}] with that error's text, and the
    scene is untouched. *)
Theorem non_mapping_params_error_envelope
    (d : list (string * json)) (w : world hou) (ty : string)
    (h : method hou) :
  dict_get d "type" JNull = JStr ty ->
  assoc ty (handlers rt hou w) = Some h ->
  (forall kw, dict_get d "params" (JDict []) <> JDict kw) ->
  execute_command rt hou (JDict d) w
  = (Normal
       (Returned
          (JDict [("status", JStr "error");
                  ("message",
                   JStr (rt_message rt
                           (NotAMapping (sig_name (method_sig h))
                              (dict_get d "params" (JDict [])))))])),
     w).
Proof.
  intros Hty Hh Hparams.
  rewrite DispatchProofs.execute_command_object, Hty. simpl. rewrite Hh.
  rewrite (DispatchProofs.call_bind_error rt hou h _
             (rt_raise rt (NotAMapping (sig_name (method_sig h))
                             (dict_get d "params" (JDict [])))) w).
  - reflexivity.
  - unfold bind_keywords.
    destruct (dict_get d "params" (JDict [])); try reflexivity.
    exfalso. eapply Hparams. reflexivity.
Qed.

End Dispatch.

Lemma asset_commands_follow_toggle_witness :
  execute_command Demo.runtime Demo.houdini
    (JDict [("type", JStr "search_assets"); ("params", JDict [])]) Demo.start
  = (Normal
       (Returned
          (JDict [("status", JStr "error");
                  ("message",
                   JStr "Unknown command type: search_assets")])),
     Demo.start).
Proof.
  apply (asset_commands_follow_toggle Demo.runtime Demo.houdini
           [("type", JStr "search_assets"); ("params", JDict [])]
           Demo.start "search_assets").
  - simpl. right. left. reflexivity.
  - reflexivity.
  - reflexivity.
Defined.

Lemma base_handlers_ignore_toggle_witness :
  assoc "delete_node" (handlers Demo.runtime Demo.houdini Demo.start)
  = Some (self_delete_node Demo.runtime Demo.houdini)
  /\ is_key (handlers Demo.runtime Demo.houdini Demo.start)
       (JStr "delete_node") = true.
Proof.
  apply (proj2 (base_handlers_ignore_toggle Demo.runtime Demo.houdini
                  Demo.start "delete_node"
                  (self_delete_node Demo.runtime Demo.houdini))).
  reflexivity.
Defined.

Lemma non_object_command_error_envelope_witness :
  execute_command Demo.runtime Demo.houdini (JList [JInt 1]) Demo.start
  = (Normal
       (Returned
          (JDict [("status", JStr "error");
                  ("message", JStr "object has no attribute get")])),
     Demo.start).
Proof.
  apply (non_object_command_error_envelope Demo.runtime Demo.houdini
           (JList [JInt 1]) Demo.start).
  intros d. discriminate.
Defined.

Lemma unhashable_type_error_envelope_witness :
  execute_command Demo.runtime Demo.houdini
    (JDict [("type", JList [JStr "create_node"])]) Demo.start
  = (Normal
       (Returned
          (JDict [("status", JStr "error");
                  ("message", JStr "unhashable type")])),
     Demo.start).
Proof.
  apply (unhashable_type_error_envelope Demo.runtime Demo.houdini
           [("type", JList [JStr "create_node"])] Demo.start).
  reflexivity.
Defined.

Lemma non_mapping_params_error_envelope_witness :
  execute_command Demo.runtime Demo.houdini
    (JDict [("type", JStr "get_scene_info"); ("params", JNull)]) Demo.start
  = (Normal
       (Returned
          (JDict [("status", JStr "error");
                  ("message",
                   JStr "get_scene_info() argument after ** must be a mapping")])),
     Demo.start).
Proof.
  apply (non_mapping_params_error_envelope Demo.runtime Demo.houdini
           [("type", JStr "get_scene_info"); ("params", JNull)] Demo.start
           "get_scene_info" (self_get_scene_info Demo.houdini)).
  - reflexivity.
  - reflexivity.
  - intros kw. discriminate.
Defined.

End MoreDispatchProofs.

Module MoreHandlerProofs.
Import Py Exc Exc.Notations Server Tactics.

Section Handlers.
Variable rt : Runtime.
Variable hou : HouAPI.

(** When the [try] block of [set_material] returns, it returns the [ok]
    report. *)
Lemma set_material_try_ok
    (node_path_ material_type name parameters v : json) (w w' : world hou) :
  set_material_try rt hou node_path_ material_type name parameters w
  = (Returned v, w') ->
  exists material_node applied_to,
    v = JDict [("status", JStr "ok");
               ("material_node", JStr material_node);
               ("applied_to", JStr applied_to)].
Proof.
  intros H. unfold set_material_try in H. py_unfold.
  exec H.
  all: inversion H; subst; eauto.
Qed.

(** X6. A [set_material] command whose params fit the signature is always
    answered by [{"status": "success", "result": r}]: the handler's own
    failures travel inside it, as a result [r] whose status is [error] and
    whose [node] is the given [node_path], next to the good results,
    whose status is [ok]. *)
Theorem set_material_command_always_success
    (d kw : list (string * json)) (w : world hou) :
  dict_get d "type" JNull = JStr "set_material" ->
  dict_get d "params" (JDict []) = JDict kw ->
  bind_keywords rt (method_sig (self_set_material rt hou)) (JDict kw)
  = Returned kw ->
  exists fields w',
    execute_command rt hou (JDict d) w
    = (Normal (Returned (JDict [("status", JStr "success");
                                ("result", JDict fields)])), w')
    /\ (assoc "status" fields = Some (JStr "ok")
        \/ (assoc "status" fields = Some (JStr "error")
            /\ assoc "node" fields
               = Some (argument (method_sig (self_set_material rt hou)) kw
                         "node_path"))).
Proof.
  intros Hty Hparams Hbind.
  rewrite DispatchProofs.execute_command_object, Hty, Hparams.
  assert (Hkey : assoc "set_material" (handlers rt hou w)
                 = Some (self_set_material rt hou)).
  { unfold handlers. destruct (truthy (session_use_assetlib hou w));
      reflexivity. }
  simpl handlers_get. rewrite Hkey.
  rewrite (DispatchProofs.call_bound rt hou _ _ kw w Hbind).
  cbn [method_body self_set_material]. unfold Wide.ordinary.
  set (sg := method_sig (self_set_material rt hou)).
  unfold set_material. rewrite HandlerProofs.try_except_Exception_returns.
  destruct (set_material_try rt hou (argument sg kw "node_path")
              (argument sg kw "material_type") (argument sg kw "name")
              (argument sg kw "parameters") w) as [[v|e] w'] eqn:Htry;
    cbn [fst snd].
  - destruct (set_material_try_ok _ _ _ _ _ _ _ Htry) as [mn [at_ Hv]].
    subst v. eexists. exists w'. split; [reflexivity|]. left. reflexivity.
  - eexists. exists w'. split; [reflexivity|]. right.
    split; reflexivity.
Qed.

(** X7. [create_node] raises nothing but its own [Exception] with the
    text [Failed to create node: ] in front of the cause; a parent that is
    not found - [/obj] when no [parent_path] is given - is reported this
    way as the message of [{"status": "error", "message": m}], with
    nothing created. *)
Theorem create_node_failures_are_wrapped
    (node_type parent_path name position parameters : json)
    (w : world hou) :
  (forall e w',
      create_node rt hou node_type parent_path name position parameters w
      = (Raised e, w') ->
      exists cause,
        e = mkExn PlainException ("Failed to create node: " ++ cause))
  /\ (forall w',
        hou_node hou parent_path w = (Returned None, w') ->
        create_node rt hou node_type parent_path name position parameters w
        = (Raised (mkExn PlainException
                     ("Failed to create node: Parent path not found: "
                      ++ py_str rt parent_path)), w'))
  /\ (forall (d kw : list (string * json)) w',
        dict_get d "type" JNull = JStr "create_node" ->
        dict_get d "params" (JDict []) = JDict kw ->
        bind_keywords rt (method_sig (self_create_node rt hou)) (JDict kw)
        = Returned kw ->
        assoc "parent_path" kw = None ->
        hou_node hou (JStr "/obj") w = (Returned None, w') ->
        execute_command rt hou (JDict d) w
        = (Normal
             (Returned
                (JDict [("status", JStr "error");
                        ("message",
                         JStr "Failed to create node: Parent path not found: /obj")])),
           w')).
Proof.
  assert (Hnone : forall nt pp nm pos prm w',
             hou_node hou pp w = (Returned None, w') ->
             create_node rt hou nt pp nm pos prm w
             = (Raised (mkExn PlainException
                          ("Failed to create node: Parent path not found: "
                           ++ py_str rt pp)), w')).
  { intros nt pp nm pos prm w' H. unfold create_node, try_except.
    unfold bind at 1. rewrite H. reflexivity. }
  split; [|split].
  - intros e w' H. unfold create_node, try_except in H.
    match type of H with
    | (match ?m with _ => _ end) = _ => destruct m as [[v|e0] w0]
    end; [discriminate H|].
    simpl in H. unfold raise in H. inversion H; subst.
    eexists. reflexivity.
  - apply Hnone.
  - intros d kw w' Hty Hparams Hbind Hpp Hlookup.
    rewrite DispatchProofs.execute_command_object, Hty, Hparams.
    assert (Hkey : assoc "create_node" (handlers rt hou w)
                   = Some (self_create_node rt hou)).
    { unfold handlers. destruct (truthy (session_use_assetlib hou w));
        reflexivity. }
    simpl handlers_get. rewrite Hkey.
    rewrite (DispatchProofs.call_bound rt hou _ _ kw w Hbind).
    cbn [method_body self_create_node]. unfold Wide.ordinary.
    assert (Hdefault :
              argument (method_sig (self_create_node rt hou)) kw
                "parent_path" = JStr "/obj").
    { unfold argument. rewrite Hpp. reflexivity. }
    rewrite Hdefault.
    rewrite (Hnone _ _ _ _ _ _ Hlookup). reflexivity.
Qed.

(** X8. An [execute_code] command reports nothing but whether the code
    ran: [{"status": "success", "result": {"executed": true}}] when [exec]
    returns, and [{"status": "error", "message": m}] with [m] the text
    [Code execution error: ] followed by the exception's text when it
    raises an exception deriving from [Exception].  An exception outside
    [Exception] - [SystemExit], [KeyboardInterrupt] - is caught by neither
    [except Exception] on its way and leaves [execute_command].  The scene
    is what the code left. *)
Theorem execute_code_command_reports_flag_only
    (d : list (string * json)) (code : json) (w : world hou) :
  dict_get d "type" JNull = JStr "execute_code" ->
  dict_get d "params" (JDict []) = JDict [("code", code)] ->
  execute_command rt hou (JDict d) w
  = match py_exec hou code w with
    | (Normal (Returned _), w') =>
        (Normal (Returned
                   (JDict [("status", JStr "success");
                           ("result", JDict [("executed", JBool true)])])),
         w')
    | (Normal (Raised e), w') =>
        (Normal (Returned
                   (JDict [("status", JStr "error");
                           ("message",
                            JStr ("Code execution error: " ++ exn_str e))])),
         w')
    | (Exits b, w') => (Exits b, w')
    end.
Proof.
  intros Hty Hparams.
  rewrite DispatchProofs.execute_command_object, Hty, Hparams.
  assert (Hkey : assoc "execute_code" (handlers rt hou w)
                 = Some (self_execute_code hou)).
  { unfold handlers. destruct (truthy (session_use_assetlib hou w));
      reflexivity. }
  simpl handlers_get. rewrite Hkey.
  unfold call. wide_unfold. simpl. unfold execute_code. wide_unfold.
  unfold argument. simpl.
  destruct (py_exec hou code w) as [[[[]|e]|b] w']; reflexivity.
Qed.

(** X9. A [delete_node] command for a path that resolves to nothing is
    answered by [{"status": "error", "message": "Node not found: <path>"}]
    and destroys nothing; for a node that is found, the answer is
    [{"status": "success", "result": {"deleted": p, "name": n}}] with the
    path and the name read before the node was destroyed. *)
Theorem delete_node_command
    (d : list (string * json)) (path : json) (w : world hou) :
  dict_get d "type" JNull = JStr "delete_node" ->
  dict_get d "params" (JDict []) = JDict [("path", path)] ->
  (forall w',
      hou_node hou path w = (Returned None, w') ->
      execute_command rt hou (JDict d) w
      = (Normal
           (Returned
              (JDict [("status", JStr "error");
                      ("message",
                       JStr ("Node not found: " ++ py_str rt path))])),
         w'))
  /\ (forall n w0 pth w1 nm w2 w3,
        hou_node hou path w = (Returned (Some n), w0) ->
        node_path hou n w0 = (Returned pth, w1) ->
        node_name hou n w1 = (Returned nm, w2) ->
        node_destroy hou n w2 = (Returned tt, w3) ->
        execute_command rt hou (JDict d) w
        = (Normal
             (Returned
                (JDict [("status", JStr "success");
                        ("result",
                         JDict [("deleted", JStr pth);
                                ("name", JStr nm)])])), w3)).
Proof.
  intros Hty Hparams.
  assert (Hkey : assoc "delete_node" (handlers rt hou w)
                 = Some (self_delete_node rt hou)).
  { unfold handlers. destruct (truthy (session_use_assetlib hou w));
      reflexivity. }
  split.
  - intros w' Hlookup.
    rewrite DispatchProofs.execute_command_object, Hty, Hparams.
    simpl handlers_get. rewrite Hkey.
    unfold call. wide_unfold. simpl. unfold delete_node. py_unfold.
    unfold argument. simpl. rewrite Hlookup. reflexivity.
  - intros n w0 pth w1 nm w2 w3 Hlookup Hpath Hname Hdestroy.
    rewrite DispatchProofs.execute_command_object, Hty, Hparams.
    simpl handlers_get. rewrite Hkey.
    unfold call. wide_unfold. simpl. unfold delete_node. py_unfold.
    unfold argument. simpl.
    rewrite Hlookup, Hpath, Hname, Hdestroy. reflexivity.
Qed.

(** X10. A [modify_node] call that asks for nothing new changes nothing:
    with a name that is falsy or the node's own, a position that is falsy
    or shorter than two, and falsy parameters, the node is only looked up
    and read, and the change log is empty. *)
Theorem modify_node_nothing_to_change
    (path parameters position name : json) (w w0 w1 w2 : world hou)
    (n : node hou) (old_name pth : string) :
  hou_node hou path w = (Returned (Some n), w0) ->
  node_name hou n w0 = (Returned old_name, w1) ->
  node_path hou n w1 = (Returned pth, w2) ->
  truthy name = false \/ name = JStr old_name ->
  truthy position = false
  \/ (exists len, py_len rt position = Returned len /\ (len < 2)%nat) ->
  truthy parameters = false ->
  modify_node rt hou path parameters position name w
  = (Returned (JDict [("path", JStr pth); ("changes", JList [])]), w2).
Proof.
  intros Hlookup Hname Hpath Hnm Hpos Hparms.
  unfold modify_node. unfold bind at 1. rewrite Hlookup.
  unfold bind at 1. rewrite Hname.
  assert (Hrename : truthy name && py_ne_str name old_name = false).
  { destruct Hnm as [Hf | ->].
    - rewrite Hf. reflexivity.
    - simpl. rewrite String.eqb_refl. apply andb_false_r. }
  rewrite Hrename. unfold bind at 1, ret at 1.
  assert (Hmove : set_position_if_given rt hou n position w1
                  = (Returned false, w1)).
  { unfold set_position_if_given.
    destruct Hpos as [Hf | [len [Hlen Hlt]]].
    - rewrite Hf. reflexivity.
    - destruct (truthy position); [|reflexivity].
      unfold bind, lift. rewrite Hlen.
      destruct (Nat.leb_spec 2 len); [lia | reflexivity]. }
  unfold bind at 1. rewrite Hmove, Hparms.
  unfold bind at 1, ret at 1. unfold bind, ret. rewrite Hpath. reflexivity.
Qed.

(** X11. Parameter names that do not exist on the node are silently
    ignored by [create_node] and [set_material]: when no name of the
    given mapping resolves, and looking them up leaves the scene as it is,
    nothing is set, nothing is raised and the scene is unchanged. *)
Theorem unknown_parameter_names_are_ignored
    (n : node hou) (entries : list (string * json)) (w : world hou) :
  (forall k, In k (map fst entries) ->
             node_parm hou n k w = (Returned None, w)) ->
  set_parms_if_given rt hou n (JDict entries) w = (Returned tt, w).
Proof.
  intros H. unfold set_parms_if_given.
  destruct entries as [|e0 rest]; [reflexivity|].
  cbn [truthy]. unfold bind at 1, lift, py_items.
  cbv beta iota.
  generalize dependent (e0 :: rest). clear e0 rest.
  induction l as [|[k v] l IH]; intros H.
  - reflexivity.
  - cbn [for_each]. unfold bind at 1. unfold bind at 1. cbn [fst snd].
    rewrite (H k) by (simpl; auto).
    unfold ret at 1. apply IH.
    intros k' Hin. apply H. simpl. auto.
Qed.

End Handlers.

Lemma set_material_command_always_success_witness :
  exists fields w',
    execute_command Demo.runtime Demo.houdini
      (JDict [("type", JStr "set_material");
              ("params", JDict [("node_path", JStr "/obj/zzz")])])
      Demo.start
    = (Normal (Returned (JDict [("status", JStr "success");
                                ("result", JDict fields)])), w')
    /\ (assoc "status" fields = Some (JStr "ok")
        \/ (assoc "status" fields = Some (JStr "error")
            /\ assoc "node" fields
               = Some (argument
                         (method_sig
                            (self_set_material Demo.runtime Demo.houdini))
                         [("node_path", JStr "/obj/zzz")] "node_path"))).
Proof.
  apply (set_material_command_always_success Demo.runtime Demo.houdini
           [("type", JStr "set_material");
            ("params", JDict [("node_path", JStr "/obj/zzz")])]
           [("node_path", JStr "/obj/zzz")] Demo.start);
    reflexivity.
Defined.

Lemma create_node_failures_are_wrapped_witness :
  create_node Demo.runtime Demo.houdini (JStr "geo") (JStr "/nowhere")
    JNull JNull JNull Demo.start
  = (Raised (mkExn PlainException
               "Failed to create node: Parent path not found: /nowhere"),
     Demo.start).
Proof.
  apply (proj1 (proj2 (create_node_failures_are_wrapped Demo.runtime
                         Demo.houdini (JStr "geo") (JStr "/nowhere")
                         JNull JNull JNull Demo.start))).
  reflexivity.
Defined.

Lemma execute_code_command_reports_flag_only_witness :
  execute_command Demo.runtime Demo.houdini
    (JDict [("type", JStr "execute_code");
            ("params", JDict [("code", JInt 3)])]) Demo.start
  = (Normal
       (Returned
          (JDict [("status", JStr "error");
                  ("message",
                   JStr "Code execution error: exec() arg 1 must be a string")])),
     Demo.start).
Proof.
  apply (execute_code_command_reports_flag_only Demo.runtime Demo.houdini
           [("type", JStr "execute_code");
            ("params", JDict [("code", JInt 3)])] (JInt 3) Demo.start);
    reflexivity.
Defined.

Lemma delete_node_command_witness :
  execute_command Demo.runtime Demo.houdini
    (JDict [("type", JStr "delete_node");
            ("params", JDict [("path", JStr "/obj/geo1")])]) Demo.start
  = (Normal
       (Returned
          (JDict [("status", JStr "success");
                  ("result",
                   JDict [("deleted", JStr "/obj/geo1");
                          ("name", JStr "geo1")])])),
     Demo.remove_path "/obj/geo1" Demo.start).
Proof.
  apply (proj2 (delete_node_command Demo.runtime Demo.houdini
                  [("type", JStr "delete_node");
                   ("params", JDict [("path", JStr "/obj/geo1")])]
                  (JStr "/obj/geo1") Demo.start eq_refl eq_refl)
           "/obj/geo1" Demo.start "/obj/geo1" Demo.start "geo1" Demo.start
           (Demo.remove_path "/obj/geo1" Demo.start));
    reflexivity.
Defined.

Lemma modify_node_nothing_to_change_witness :
  modify_node Demo.runtime Demo.houdini (JStr "/obj/geo1") (JDict [])
    (JList [JInt 4]) (JStr "geo1") Demo.start
  = (Returned (JDict [("path", JStr "/obj/geo1"); ("changes", JList [])]),
     Demo.start).
Proof.
  apply (modify_node_nothing_to_change Demo.runtime Demo.houdini
           (JStr "/obj/geo1") (JDict []) (JList [JInt 4]) (JStr "geo1")
           Demo.start Demo.start Demo.start Demo.start "/obj/geo1" "geo1"
           "/obj/geo1").
  - reflexivity.
  - reflexivity.
  - reflexivity.
  - right. reflexivity.
  - right. exists 1%nat. split; [reflexivity | lia].
  - reflexivity.
Defined.

Lemma unknown_parameter_names_are_ignored_witness :
  set_parms_if_given Demo.runtime Demo.houdini "/obj/geo1"
    (JDict [("nope", JInt 1); ("neither", JInt 2)]) Demo.start
  = (Returned tt, Demo.start).
Proof.
  apply (unknown_parameter_names_are_ignored Demo.runtime Demo.houdini
           "/obj/geo1" [("nope", JInt 1); ("neither", JInt 2)] Demo.start).
  intros k [H|[H|[]]]; subst k; reflexivity.
Defined.

End MoreHandlerProofs.

(* ====================================================================== *)
(** * Further properties of the poll loop and of the life cycle *)
(* ====================================================================== *)

Module MorePollProofs.
Import Py Exc Exc.Notations Server Tactics.
Import PollProofs.

Section Poll.
Variable rt : Runtime.
Variable hou : HouAPI.



(** X13. One client at a time: while a client is connected a tick accepts
    nobody, and afterwards the server has that same client or none. *)
Theorem connected_server_accepts_nobody (io : tick_io) (s s' : server)
    (w w' : world hou) (t : list event) (c : nat) :
  tick rt hou io s w = (s', w', t) ->
  client s = Some c ->
  (forall c', ~ In (Accepted c') t)
  /\ (client s' = Some c \/ client s' = None).
Proof.
  intros H Hc. destruct s as [run sk cl buf]. simpl in Hc. subst cl.
  destruct run;
    [|rewrite tick_not_running in H by reflexivity; inversion H; subst;
      simpl; auto].
  open_tick H Hp. exec Hp.
  all: inversion Hp; subst; clear Hp; unfold append; simpl; split; auto.
  all: intros c' Hin; rewrite ?in_app_iff in Hin; simpl in Hin;
    intuition discriminate.
Qed.

(** A tick keeps [no_orphan_bytes]. *)
Lemma tick_keeps_no_orphan_bytes (io : tick_io) (s s' : server)
    (w w' : world hou) (t : list event) :
  tick rt hou io s w = (s', w', t) ->
  Lifecycle.no_orphan_bytes s -> Lifecycle.no_orphan_bytes s'.
Proof.
  unfold Lifecycle.no_orphan_bytes. intros H Hinv.
  destruct s as [run sk cl buf]. simpl in Hinv.
  destruct run;
    [|rewrite tick_not_running in H by reflexivity; inversion H; subst;
      exact Hinv].
  open_tick H Hp. exec Hp.
  all: inversion Hp; subst; clear Hp; simpl; intros; auto;
    try discriminate.
Qed.

Lemma run_keeps_no_orphan_bytes (ios : list tick_io) :
  forall (s s' : server) (w w' : world hou) (t : list event),
    run rt hou ios s w = (s', w', t) ->
    Lifecycle.no_orphan_bytes s -> Lifecycle.no_orphan_bytes s'.
Proof.
  induction ios as [|io ios IH]; intros s s' w w' t H Hinv.
  - cbn [run] in H. inversion H; subst. exact Hinv.
  - cbn [run] in H.
    destruct (tick rt hou io s w) as [[s1 w1] t1] eqn:Ht.
    destruct (run rt hou ios s1 w1) as [[s2 w2] t2] eqn:Hr.
    inversion H; subst; clear H.
    eapply IH; [exact Hr|].
    eapply tick_keeps_no_orphan_bytes; eauto.
Qed.

(** A stopped server does nothing, whatever the sockets offer. *)
Lemma run_not_running (ios : list tick_io) (s : server) (w : world hou) :
  running s = false -> run rt hou ios s w = (s, w, []).
Proof.
  intros H. induction ios as [|io ios IH]; [reflexivity|].
  cbn [run]. rewrite (tick_not_running rt hou io s w H), IH. reflexivity.
Qed.

(** [start] and [stop] never touch the pending bytes. *)
Lemma stop_keeps_buffer (io : Lifecycle.life_io) (l l' : Lifecycle.life)
    (r : outcome unit) :
  Lifecycle.stop io l = (r, l') ->
  buffer (Lifecycle.core (Lifecycle.this l'))
  = buffer (Lifecycle.core (Lifecycle.this l))
  /\ running (Lifecycle.core (Lifecycle.this l')) = false.
Proof.
  intros H. destruct l as [[h p [run sk cl buf] tm] lg].
  unfold Lifecycle.stop, Lifecycle.set_running, Lifecycle.set_socket,
    Lifecycle.set_client, Lifecycle.set_timer, Lifecycle.set_core,
    Lifecycle.emit in H.
  py_unfold. simpl in H. exec H.
  all: inversion H; subst; simpl; auto.
Qed.

Lemma start_keeps_buffer (io : Lifecycle.life_io) (l l' : Lifecycle.life)
    (r : outcome unit) :
  Lifecycle.start io l = (r, l') ->
  buffer (Lifecycle.core (Lifecycle.this l'))
  = buffer (Lifecycle.core (Lifecycle.this l)).
Proof.
  intros H. destruct l as [[h p [run sk cl buf] tm] lg].
  unfold Lifecycle.start, Lifecycle.stop, Lifecycle.set_running,
    Lifecycle.set_socket, Lifecycle.set_client, Lifecycle.set_timer,
    Lifecycle.set_core, Lifecycle.emit in H.
  py_unfold. simpl in H. exec H.
  all: inversion H; subst; simpl; auto.
Qed.

(** X14. Without client there are no pending bytes: every run of ticks
    keeps this, and it holds in every state a fresh server object reaches
    by [start] - whether [start] succeeds, fails or raises - followed by
    any number of ticks. *)
Theorem no_pending_bytes_without_client :
  (forall (ios : list tick_io) (s s' : server) (w w' : world hou)
          (t : list event),
      run rt hou ios s w = (s', w', t) ->
      Lifecycle.no_orphan_bytes s -> Lifecycle.no_orphan_bytes s')
  /\ (forall (io : Lifecycle.life_io) (h : string) (p : Z)
             (r : outcome unit) (l : Lifecycle.life)
             (ios : list tick_io) (s' : server) (w w' : world hou)
             (t : list event),
        Lifecycle.start io
          {| Lifecycle.this := Lifecycle.init h p; Lifecycle.log := [] |}
        = (r, l) ->
        run rt hou ios (Lifecycle.core (Lifecycle.this l)) w = (s', w', t) ->
        Lifecycle.no_orphan_bytes s').
Proof.
  split.
  - apply run_keeps_no_orphan_bytes.
  - intros io h p r l ios s' w w' t Hstart Hrun.
    eapply run_keeps_no_orphan_bytes; [exact Hrun|].
    apply start_keeps_buffer in Hstart. simpl in Hstart.
    intros _. exact Hstart.
Qed.

(** X15. A [start] that gets its socket but then fails - the port is
    taken, the timer cannot be set up - does not raise: it stops the
    server again.  With the closing calls succeeding, the server is left
    not running, without socket, client and timer, and the socket it had
    opened has been closed. *)
Theorem failed_start_leaves_server_stopped (io : Lifecycle.life_io)
    (l : Lifecycle.life) (s : nat) (e : exn) :
  Lifecycle.io_socket io = Returned s ->
  Lifecycle.io_setsockopt io = Returned tt ->
  Lifecycle.io_bind io = Raised e
  \/ Lifecycle.io_listen io = Raised e
  \/ Lifecycle.io_setblocking io = Raised e
  \/ Lifecycle.io_new_timer io = Raised e
  \/ Lifecycle.io_timer_connect io = Raised e
  \/ Lifecycle.io_timer_start io = Raised e ->
  Lifecycle.io_timer_stop io = Returned tt ->
  Lifecycle.io_close_socket io = Returned tt ->
  Lifecycle.io_close_client io = Returned tt ->
  exists l',
    Lifecycle.start io l = (Returned tt, l')
    /\ Lifecycle.core (Lifecycle.this l')
       = {| running := false; socket := None; client := None;
            buffer := buffer (Lifecycle.core (Lifecycle.this l)) |}
    /\ Lifecycle.timer (Lifecycle.this l') = None
    /\ In (Lifecycle.CloseSocket s) (Lifecycle.log l').
Proof.
  intros Hsock Hopt Hfail Htstop Hcs Hcc.
  destruct (Lifecycle.start io l) as [r l'] eqn:H.
  exists l'.
  destruct l as [[h p [run sk cl buf] tm] lg].
  unfold Lifecycle.start, Lifecycle.stop, Lifecycle.set_running,
    Lifecycle.set_socket, Lifecycle.set_client, Lifecycle.set_timer,
    Lifecycle.set_core, Lifecycle.emit in H.
  py_unfold. simpl in H.
  destruct Hfail as [Hf|[Hf|[Hf|[Hf|[Hf|Hf]]]]]; exec H.
  all: inversion H; subst; clear H; simpl; unfold append;
    repeat split; rewrite ?in_app_iff; simpl; auto 10.
Qed.

(** X16. [stop] silences the server: however it ends, [running] is off,
    the pending bytes are as they were, and no later tick accepts, reads
    or dispatches anything; when it returns, socket, client and timer are
    gone. *)
Theorem stop_silences_the_server (io : Lifecycle.life_io)
    (l l' : Lifecycle.life) (r : outcome unit) :
  Lifecycle.stop io l = (r, l') ->
  running (Lifecycle.core (Lifecycle.this l')) = false
  /\ buffer (Lifecycle.core (Lifecycle.this l'))
     = buffer (Lifecycle.core (Lifecycle.this l))
  /\ (forall (ios : list tick_io) (w : world hou),
        run rt hou ios (Lifecycle.core (Lifecycle.this l')) w
        = (Lifecycle.core (Lifecycle.this l'), w, []))
  /\ (r = Returned tt ->
      socket (Lifecycle.core (Lifecycle.this l')) = None
      /\ client (Lifecycle.core (Lifecycle.this l')) = None
      /\ Lifecycle.timer (Lifecycle.this l') = None).
Proof.
  intros H.
  destruct (stop_keeps_buffer _ _ _ _ H) as [Hbuf Hrun].
  split; [exact Hrun|]. split; [exact Hbuf|]. split.
  - intros ios w. apply run_not_running. exact Hrun.
  - intros Hr. subst r.
    destruct l as [[h p [run sk cl buf] tm] lg].
    unfold Lifecycle.stop, Lifecycle.set_running, Lifecycle.set_socket,
      Lifecycle.set_client, Lifecycle.set_timer, Lifecycle.set_core,
      Lifecycle.emit in H.
    py_unfold. simpl in H. exec H.
    all: inversion H; subst; simpl; auto.
Qed.

(** X17. [stop] does not clear the pending bytes, and neither does
    [start]: after a stop and a restart the server listens again without
    client but with the bytes the last client left, and the first chunk of
    the next client is parsed behind them. *)
Theorem restart_keeps_pending_bytes (h : string) (p : Z) (s0 : server)
    (t0 : option nat) (sk tm : nat) :
  let stopped :=
    snd (Lifecycle.stop (Lifecycle.all_fine sk tm)
           {| Lifecycle.this :=
                {| Lifecycle.host := h; Lifecycle.port := p;
                   Lifecycle.core := s0; Lifecycle.timer := t0 |};
              Lifecycle.log := [] |}) in
  let restarted :=
    Lifecycle.core
      (Lifecycle.this
         (snd (Lifecycle.start (Lifecycle.all_fine sk tm) stopped))) in
  restarted
  = {| running := true; socket := Some sk; client := None;
       buffer := buffer s0 |}
  /\ (forall (io : tick_io) (c : nat) (data : list byte) (e : exn)
             (w : world hou),
        io_accept io = Returned c ->
        io_recv io = Returned data -> data <> [] ->
        parse_buffer rt (buffer s0 ++ data) = Raised e ->
        is_class JSONDecodeError e = true ->
        buffer (fst (fst (tick rt hou io restarted w)))
        = (buffer s0 ++ data)%list).
Proof.
  intros stopped restarted.
  assert (Hre : restarted
                = {| running := true; socket := Some sk; client := None;
                     buffer := buffer s0 |}).
  { subst restarted stopped. destruct s0 as [run sk0 cl buf].
    destruct t0, sk0, cl; reflexivity. }
  split; [exact Hre|].
  intros io c data e w Hacc Hrecv Hdata Hparse Hcls.
  rewrite Hre.
  destruct (tick rt hou io
              {| running := true; socket := Some sk; client := None;
                 buffer := buffer s0 |} w) as [[s' w'] t] eqn:Ht.
  destruct (tick_syntax_error rt hou _ _ _ _ _ _ c data e Ht) as [Hb _];
    try assumption; try reflexivity.
  unfold receiving_client. simpl. rewrite Hacc. reflexivity.
Qed.

End Poll.


Lemma connected_server_accepts_nobody_witness :
  (forall c', ~ In (Accepted c') [Closed 7%nat])
  /\ (client (without_client Demo.connected) = Some 7%nat
      \/ client (without_client Demo.connected) = None).
Proof.
  apply (connected_server_accepts_nobody Demo.runtime Demo.houdini
           (receive [xff]) Demo.connected (without_client Demo.connected)
           Demo.start Demo.start [Closed 7%nat] 7%nat);
    reflexivity.
Defined.

Lemma no_pending_bytes_without_client_witness :
  Lifecycle.no_orphan_bytes
    (fst (fst (run Demo.runtime Demo.houdini
                 [receive [x7b]; receive [xff]] Demo.connected Demo.start))).
Proof.
  apply (proj1 (no_pending_bytes_without_client Demo.runtime Demo.houdini)
           [receive [x7b]; receive [xff]] Demo.connected
           (fst (fst (run Demo.runtime Demo.houdini
                        [receive [x7b]; receive [xff]] Demo.connected
                        Demo.start)))
           Demo.start Demo.start [Closed 7%nat]).
  - reflexivity.
  - unfold Lifecycle.no_orphan_bytes. simpl. discriminate.
Defined.

Lemma failed_start_leaves_server_stopped_witness :
  exists l',
    Lifecycle.start (Lifecycle.port_taken 3 4)
      {| Lifecycle.this := Lifecycle.init "localhost" 9876;
         Lifecycle.log := [] |}
    = (Returned tt, l')
    /\ Lifecycle.core (Lifecycle.this l')
       = {| running := false; socket := None; client := None;
            buffer := [] |}
    /\ Lifecycle.timer (Lifecycle.this l') = None
    /\ In (Lifecycle.CloseSocket 3) (Lifecycle.log l').
Proof.
  apply (failed_start_leaves_server_stopped (Lifecycle.port_taken 3 4)
           {| Lifecycle.this := Lifecycle.init "localhost" 9876;
              Lifecycle.log := [] |} 3%nat
           (mkExn OSError "Address already in use")).
  - reflexivity.
  - reflexivity.
  - left. reflexivity.
  - reflexivity.
  - reflexivity.
  - reflexivity.
Defined.

Lemma stop_silences_the_server_witness :
  let l' :=
    snd (Lifecycle.stop (Lifecycle.all_fine 3 4)
           {| Lifecycle.this :=
                {| Lifecycle.host := "localhost"; Lifecycle.port := 9876;
                   Lifecycle.core := with_buffer Demo.connected [x7b];
                   Lifecycle.timer := Some 4%nat |};
              Lifecycle.log := [] |}) in
  running (Lifecycle.core (Lifecycle.this l')) = false
  /\ buffer (Lifecycle.core (Lifecycle.this l')) = [x7b]
  /\ (forall (ios : list tick_io) (w : world Demo.houdini),
        run Demo.runtime Demo.houdini ios
          (Lifecycle.core (Lifecycle.this l')) w
        = (Lifecycle.core (Lifecycle.this l'), w, []))
  /\ (Returned tt = Returned tt ->
      socket (Lifecycle.core (Lifecycle.this l')) = None
      /\ client (Lifecycle.core (Lifecycle.this l')) = None
      /\ Lifecycle.timer (Lifecycle.this l') = None).
Proof.
  intros l'.
  apply (stop_silences_the_server Demo.runtime Demo.houdini
           (Lifecycle.all_fine 3 4)
           {| Lifecycle.this :=
                {| Lifecycle.host := "localhost"; Lifecycle.port := 9876;
                   Lifecycle.core := with_buffer Demo.connected [x7b];
                   Lifecycle.timer := Some 4%nat |};
              Lifecycle.log := [] |} l' (Returned tt)).
  reflexivity.
Defined.

Lemma restart_keeps_pending_bytes_witness :
  buffer
    (fst (fst (tick Demo.runtime Demo.houdini
                 {| io_accept := Returned 8%nat;
                    io_setblocking := Returned tt;
                    io_recv := Returned [x22];
                    io_sendall := Returned tt;
                    io_close := [] |}
                 (Lifecycle.core
                    (Lifecycle.this
                       (snd (Lifecycle.start (Lifecycle.all_fine 3 4)
                               (snd (Lifecycle.stop (Lifecycle.all_fine 3 4)
                                       {| Lifecycle.this :=
                                            {| Lifecycle.host := "localhost";
                                               Lifecycle.port := 9876;
                                               Lifecycle.core :=
                                                 with_buffer Demo.connected
                                                   [x7b];
                                               Lifecycle.timer :=
                                                 Some 4%nat |};
                                          Lifecycle.log := [] |}))))))
                 Demo.start)))
  = [x7b; x22].
Proof.
  apply (proj2 (restart_keeps_pending_bytes Demo.runtime Demo.houdini
                  "localhost" 9876 (with_buffer Demo.connected [x7b])
                  (Some 4%nat) 3%nat 4%nat)
           {| io_accept := Returned 8%nat;
              io_setblocking := Returned tt;
              io_recv := Returned [x22];
              io_sendall := Returned tt;
              io_close := [] |}
           8%nat [x22] (mkExn JSONDecodeError "Expecting value")
           Demo.start);
    try reflexivity.
  discriminate.
Defined.

End MorePollProofs.

(* ====================================================================== *)
(** * Further properties of the front end's connection *)
(* ====================================================================== *)

Module MoreClientProofs.
Import Py Exc Exc.Notations Client Tactics.

Ltac unfold_conn :=
  unfold connect, disconnect, set_sock, emit, try_except, bind, lift, get,
    modify, ret, raise in *.

(** X18. [connect] never raises and tells the truth: it answers [True]
    exactly when the object holds a socket afterwards, answers [False]
    leaving [sock = None] when the socket cannot be created or connected,
    and on an object that is connected already it does nothing at all. *)
Theorem connect_reports_connection (io : call_io) (st : cstate) :
  exists ok st',
    connect io st = (Returned ok, st')
    /\ (ok = true <-> sock (this st') <> None)
    /\ (sock (this st) <> None -> ok = true /\ st' = st)
    /\ (sock (this st) = None ->
        sock (this st') = (if ok then socket_in_use io (this st) else None)).
Proof.
  destruct st as [[h p sk] tr].
  destruct (connect io {| this := {| host := h; port := p; sock := sk |};
                          trace := tr |}) as [r st'] eqn:H.
  unfold_conn. unfold socket_in_use. simpl in *.
  exec H.
  all: inversion H; subst; clear H; simpl.
  all: eexists; eexists; split; [reflexivity|]; simpl.
  all: repeat split; intros; try congruence; try discriminate.
Qed.

(** X19. [disconnect] never raises, also when closing the socket does, and
    always leaves [sock = None]; it closes the socket the object held, if
    any, and a second [disconnect] does nothing. *)
Theorem disconnect_always_clears (io : call_io) (st : cstate) :
  exists st',
    disconnect io st = (Returned tt, st')
    /\ sock (this st') = None
    /\ trace st'
       = (trace st ++ match sock (this st) with
                      | Some s => [Close s]
                      | None => []
                      end)%list
    /\ (forall io2, disconnect io2 st' = (Returned tt, st')).
Proof.
  destruct st as [[h p sk] tr].
  destruct (disconnect io {| this := {| host := h; port := p; sock := sk |};
                             trace := tr |}) as [r st'] eqn:H.
  unfold_conn. simpl in *.
  exec H.
  all: inversion H; subst; clear H; simpl.
  all: eexists; split; [reflexivity|]; simpl; unfold append;
    rewrite ?app_nil_r; auto.
Qed.

(** Without a connection [send_command] raises before its [try] block. *)
Lemma send_command_refused (rt : Runtime) (io : call_io)
    (cmd_type params : json) (st : cstate) :
  socket_in_use io (this st) = None ->
  exists st',
    send_command rt io cmd_type params st
    = (Raised (mkExn ConnectionError
                 "Could not connect to Houdini on port 9876."), st')
    /\ sock (this st') = None.
Proof.
  intros Hs. destruct st as [[h p sk] tr].
  unfold socket_in_use in Hs. simpl in Hs.
  destruct sk as [s0|]; [discriminate Hs|].
  unfold send_command. unfold bind at 1.
  destruct (connect io {| this := {| host := h; port := p; sock := None |};
                          trace := tr |}) as [r st1] eqn:H.
  unfold_conn. simpl in H. exec H.
  all: inversion H; subst; clear H; simpl.
  all: eexists; split; reflexivity.
Qed.

(** X20. When the connection cannot be opened, [send_command] raises
    [ConnectionError] without sending anything, and the object stays
    without socket. *)
Theorem send_command_without_connection (rt : Runtime) (io : call_io)
    (cmd_type params : json) (st : cstate) :
  socket_in_use io (this st) = None ->
  exists st',
    send_command rt io cmd_type params st
    = (Raised (mkExn ConnectionError
                 "Could not connect to Houdini on port 9876."), st')
    /\ sock (this st') = None
    /\ exists opened,
         trace st' = (trace st ++ opened)%list
         /\ forall s data, ~ In (SendAll s data) opened.
Proof.
  intros Hs. destruct st as [[h p sk] tr].
  unfold socket_in_use in Hs. simpl in Hs.
  destruct sk as [s0|]; [discriminate Hs|].
  unfold send_command. unfold bind at 1.
  destruct (connect io {| this := {| host := h; port := p; sock := None |};
                          trace := tr |}) as [r st1] eqn:H.
  unfold_conn. simpl in H. exec H.
  all: inversion H; subst; clear H; simpl.
  all: eexists; split; [reflexivity|]; simpl; split; [reflexivity|].
  - exists [NewSocket; Connect a h p]. split.
    + unfold append. rewrite <- app_assoc. reflexivity.
    + intros s data [Hin|[Hin|[]]]; discriminate Hin.
  - exists [NewSocket]. split; [reflexivity|].
    intros s data [Hin|[]]; discriminate Hin.
Qed.

Section Exchange.
Variable rt : Runtime.
Variable io : call_io.

(** Once [connect] has answered [True], [send_command] is its [try]
    block run on the connected object. *)
Lemma send_command_connected (cmd_type params : json) (st : cstate)
    (s : nat) :
  socket_in_use io (this st) = Some s ->
  send_command rt io cmd_type params st
  = try_except (send_command_try rt io (data_out rt cmd_type params))
      [(is_Exception, fun e => bind (disconnect io) (fun _ => raise e))]
      {| this := {| host := host (this st); port := port (this st);
                    sock := Some s |};
         trace := (trace st ++ opening (this st) s)%list |}.
Proof.
  intros Hs. destruct st as [[h p sk] tr].
  unfold socket_in_use, opening in *. simpl in *.
  unfold send_command. unfold bind at 1.
  destruct (connect io {| this := {| host := h; port := p; sock := sk |};
                          trace := tr |}) as [r st1] eqn:H.
  unfold connect, set_sock, emit, try_except, bind, lift, get, modify, ret,
    raise in H.
  simpl in H. exec H.
  all: inversion H; subst; clear H; cbn [negb]; cbv iota.
  - inversion Hs; subst. rewrite app_nil_r. reflexivity.
  - inversion Hs; subst. unfold append. rewrite <- app_assoc. reflexivity.
Qed.

(** The read loop puts the chunks together: it goes on while the bytes so
    far fail to parse with a JSON syntax error and returns the value the
    first parse gives. *)
Lemma read_loop_reassembles (s : nat) (chunks : list (list byte)) :
  forall (acc : list (list byte)) (last : list byte)
         (rest : list (outcome (list byte))) (st : cstate) (v : json),
    Forall (fun chunk => chunk <> []) chunks -> last <> [] ->
    (forall k, (k < List.length chunks)%nat ->
       exists e,
         Server.parse_buffer rt
           (List.concat (acc ++ firstn (S k) chunks)%list) = Raised e
         /\ is_class JSONDecodeError e = true) ->
    Server.parse_buffer rt (List.concat (acc ++ chunks ++ [last])%list)
    = Returned v ->
    read_loop rt s (map Returned (chunks ++ [last]) ++ rest)%list acc st
    = (Returned (Some v),
       {| this := this st;
          trace := (trace st
                    ++ repeat (Recv s) (S (List.length chunks)))%list |}).
Proof.
  induction chunks as [|chunk chunks IH];
    intros acc last rest st v Hne Hlast Hfail Hparse.
  - simpl. unfold emit, try_except, bind, lift, modify, ret. simpl.
    destruct last as [|b last]; [congruence|].
    simpl in Hparse. unfold Server.parse_buffer in Hparse.
    unfold append.
    destruct (decode_utf8 (List.concat (acc ++ [b :: last])))
      as [text|e]; [|discriminate Hparse].
    simpl. rewrite Hparse. simpl. destruct st; reflexivity.
  - inversion Hne as [|? ? Hchunk Hrest]; subst.
    destruct (Hfail 0%nat) as [e [Hp Hcls]]; [simpl; lia|].
    simpl in Hp.
    destruct chunk as [|b chunk]; [congruence|].
    cbn [map app read_loop].
    unfold emit, try_except, bind, lift, modify, ret. cbn [fst snd find].
    unfold Server.parse_buffer in Hp. unfold append at 1.
    destruct (decode_utf8 (List.concat (acc ++ [b :: chunk])))
      as [text|e0].
    all: [> rewrite Hp | inversion Hp; subst ].
    all: rewrite Hcls; cbn [snd]; cbv beta iota; unfold append.
    all: rewrite (IH (acc ++ [b :: chunk])%list last rest _ v Hrest Hlast);
      [ simpl; rewrite <- app_assoc; reflexivity
      | intros k Hk; destruct (Hfail (S k)) as [e' [Hp' Hc']];
        [ simpl; lia
        | exists e'; split; [|exact Hc'];
          rewrite <- app_assoc; exact Hp' ]
      | rewrite <- app_assoc; exact Hparse ].
Qed.

(** When the [try] block returns, the object is as it was and the call
    has sent once and received. *)
Lemma exchange_returns (data : list byte) (st st' : cstate) (s : nat)
    (v : json) :
  sock (this st) = Some s ->
  try_except (send_command_try rt io data)
    [(is_Exception, fun e => bind (disconnect io) (fun _ => raise e))] st
  = (Returned v, st') ->
  this st' = this st
  /\ exists received,
       trace st' = (trace st ++ [SendAll s data] ++ received)%list
       /\ forallb is_recv received = true.
Proof.
  intros Hs H. destruct st as [[h p sk] tr]. simpl in Hs. subst sk.
  unfold send_command_try, disconnect, set_sock, emit, try_except, bind,
    lift, get, modify, ret, raise in H.
  simpl in H.
  destruct (io_sendall io) as [[]|e1]; simpl in H.
  - destruct (io_settimeout io) as [[]|e2]; simpl in H.
    + match type of H with
      | context [read_loop ?a ?b ?c ?d ?x] =>
          destruct (read_loop a b c d x) as [q st1] eqn:Hloop
      end.
      apply ClientProofs.read_loop_only_receives in Hloop.
      destruct Hloop as [Hthis [received [Htr Hall]]].
      simpl in Htr, Hthis. unfold append in Htr.
      destruct q as [[parsed|]|e3]; simpl in H.
      * inversion H; subst. split; [exact Hthis|].
        exists received. split; [|exact Hall].
        rewrite Htr, <- app_assoc. reflexivity.
      * rewrite Hthis in H. simpl in H.
        destruct (io_close io) as [[]|e4]; discriminate H.
      * rewrite Hthis in H. simpl in H.
        destruct (io_close io) as [[]|e4]; discriminate H.
    + destruct (io_close io) as [[]|e4]; discriminate H.
  - destruct (io_close io) as [[]|e4]; discriminate H.
Qed.

(** A response that arrives in one piece. *)
Lemma send_command_one_chunk (cmd_type params v : json) (st : cstate)
    (s : nat) (reply : list byte) :
  socket_in_use io (this st) = Some s ->
  io_sendall io = Returned tt ->
  io_settimeout io = Returned tt ->
  io_recv io = [Returned reply] -> reply <> [] ->
  Server.parse_buffer rt reply = Returned v ->
  send_command rt io cmd_type params st
  = (Returned v,
     {| this := {| host := host (this st); port := port (this st);
                   sock := Some s |};
        trace := (trace st ++ opening (this st) s
                  ++ [SendAll s (data_out rt cmd_type params); Recv s])%list
     |}).
Proof.
  intros Hs Hsend Htimeout Hrecv Hrne Hparse.
  rewrite (send_command_connected _ _ _ s Hs).
  unfold try_except, send_command_try.
  unfold bind at 1, get at 1. cbn [sock this].
  unfold bind at 1, emit at 1, modify at 1.
  unfold bind at 1, lift at 1. rewrite Hsend.
  unfold bind at 1, lift at 1. rewrite Htimeout.
  unfold bind at 1. rewrite Hrecv.
  rewrite (read_loop_reassembles s [] [] reply [] _ v (Forall_nil _) Hrne).
  - unfold ret. cbn [this trace]. unfold append.
    rewrite <- !app_assoc. reflexivity.
  - intros k Hk. simpl in Hk. lia.
  - simpl. rewrite app_nil_r. exact Hparse.
Qed.

End Exchange.

(** X21. The connection is persistent: a [send_command] that returns has
    sent once, received, and closed nothing, and leaves the socket it used
    in the object; the next call opens no connection and sends on that
    same socket. *)
Theorem send_command_success_keeps_connection (rt : Runtime) (io : call_io)
    (cmd_type params v : json) (st st' : cstate) (s : nat) :
  send_command rt io cmd_type params st = (Returned v, st') ->
  socket_in_use io (this st) = Some s ->
  sock (this st') = Some s
  /\ (exists received,
        trace st'
        = (trace st ++ opening (this st) s
             ++ [SendAll s (data_out rt cmd_type params)] ++ received)%list
        /\ forallb is_recv received = true)
  /\ (forall (io2 : call_io) (cmd2 params2 : json) (r : outcome json)
             (st2 : cstate),
        send_command rt io2 cmd2 params2 st' = (r, st2) ->
        exists rest,
          trace st2
          = (trace st' ++ SendAll s (data_out rt cmd2 params2) :: rest)%list).
Proof.
  intros H Hs.
  rewrite (send_command_connected rt io _ _ _ s Hs) in H.
  apply exchange_returns with (s := s) in H; [|reflexivity].
  destruct H as [Hthis [received [Htr Hall]]]. simpl in Hthis, Htr.
  assert (Hsock : sock (this st') = Some s) by (rewrite Hthis; reflexivity).
  split; [exact Hsock|]. split.
  - exists received. split; [|exact Hall].
    rewrite Htr, <- app_assoc. reflexivity.
  - intros io2 cmd2 params2 r st2 H2.
    assert (Hs2 : socket_in_use io2 (this st') = Some s).
    { unfold socket_in_use. rewrite Hsock. reflexivity. }
    rewrite (send_command_connected rt io2 _ _ _ s Hs2) in H2.
    assert (Hopen : opening (this st') s = []).
    { unfold opening. rewrite Hsock. reflexivity. }
    rewrite Hopen, app_nil_r in H2.
    apply ClientProofs.exchange_trace with (s := s) in H2; [|reflexivity].
    destruct H2 as [rec2 [_ Htr2]]. simpl in Htr2.
    destruct r as [v2|e2]; [|destruct Htr2 as [_ Htr2]];
      rewrite Htr2; simpl; eauto.
Qed.

(** X22. The front end's read loop reassembles a response that arrives in
    pieces: when the bytes received so far fail to parse with a JSON
    syntax error after every chunk but the last, and all of them parse to
    [v], [send_command] returns [v] after exactly one [recv] per chunk -
    whatever the cut, and whatever the peer would send afterwards. *)
Theorem send_command_reassembles_response (rt : Runtime) (io : call_io)
    (cmd_type params v : json) (st : cstate) (s : nat)
    (chunks : list (list byte)) (last : list byte)
    (rest : list (outcome (list byte))) :
  socket_in_use io (this st) = Some s ->
  io_sendall io = Returned tt ->
  io_settimeout io = Returned tt ->
  io_recv io = (map Returned (chunks ++ [last]) ++ rest)%list ->
  Forall (fun chunk => chunk <> []) chunks -> last <> [] ->
  (forall k, (k < List.length chunks)%nat ->
     exists e,
       Server.parse_buffer rt (List.concat (firstn (S k) chunks)) = Raised e
       /\ is_class JSONDecodeError e = true) ->
  Server.parse_buffer rt (List.concat (chunks ++ [last])) = Returned v ->
  send_command rt io cmd_type params st
  = (Returned v,
     {| this := {| host := host (this st); port := port (this st);
                   sock := Some s |};
        trace := (trace st ++ opening (this st) s
                  ++ [SendAll s (data_out rt cmd_type params)]
                  ++ repeat (Recv s) (S (List.length chunks)))%list |}).
Proof.
  intros Hs Hsend Htimeout Hrecv Hne Hlast Hfail Hparse.
  rewrite (send_command_connected rt io _ _ _ s Hs).
  unfold try_except, send_command_try.
  unfold bind at 1, get at 1. cbn [sock this].
  unfold bind at 1, emit at 1, modify at 1.
  unfold bind at 1, lift at 1. rewrite Hsend.
  unfold bind at 1, lift at 1. rewrite Htimeout.
  unfold bind at 1. rewrite Hrecv.
  rewrite (read_loop_reassembles rt s chunks [] last rest _ v Hne Hlast
             Hfail Hparse).
  unfold ret. cbn [this trace]. unfold append.
  rewrite <- !app_assoc. reflexivity.
Qed.

Lemma connect_reports_connection_witness :
  exists ok st',
    connect Tools.houdini_down Demo.fresh = (Returned ok, st')
    /\ (ok = true <-> sock (this st') <> None)
    /\ (sock (this Demo.fresh) <> None -> ok = true /\ st' = Demo.fresh)
    /\ (sock (this Demo.fresh) = None ->
        sock (this st')
        = (if ok then socket_in_use Tools.houdini_down (this Demo.fresh)
           else None)).
Proof.
  apply (connect_reports_connection Tools.houdini_down Demo.fresh).
Defined.

Lemma disconnect_always_clears_witness :
  exists st',
    disconnect Demo.peer_silent DemoMore.served = (Returned tt, st')
    /\ sock (this st') = None
    /\ trace st' = (trace DemoMore.served ++ [Close 5%nat])%list
    /\ (forall io2, disconnect io2 st' = (Returned tt, st')).
Proof.
  apply (disconnect_always_clears Demo.peer_silent DemoMore.served).
Defined.

Lemma send_command_without_connection_witness :
  exists st',
    send_command DemoMore.runtime Tools.houdini_down (JStr "get_scene_info")
      JNull Demo.fresh
    = (Raised (mkExn ConnectionError
                 "Could not connect to Houdini on port 9876."), st')
    /\ sock (this st') = None
    /\ exists opened,
         trace st' = (trace Demo.fresh ++ opened)%list
         /\ forall s data, ~ In (SendAll s data) opened.
Proof.
  apply (send_command_without_connection DemoMore.runtime
           Tools.houdini_down (JStr "get_scene_info") JNull Demo.fresh).
  reflexivity.
Defined.

Lemma send_command_success_keeps_connection_witness :
  sock (this DemoMore.served) = Some 5%nat
  /\ (exists received,
        trace DemoMore.served
        = (trace Demo.fresh ++ opening (this Demo.fresh) 5
             ++ [SendAll 5%nat
                   (data_out DemoMore.runtime (JStr "execute_code")
                      (JDict [("code", JStr "pass")]))]
             ++ received)%list
        /\ forallb is_recv received = true)
  /\ (forall (io2 : call_io) (cmd2 params2 : json) (r : outcome json)
             (st2 : cstate),
        send_command DemoMore.runtime io2 cmd2 params2 DemoMore.served
        = (r, st2) ->
        exists rest,
          trace st2
          = (trace DemoMore.served
             ++ SendAll 5%nat (data_out DemoMore.runtime cmd2 params2)
                :: rest)%list).
Proof.
  apply (send_command_success_keeps_connection DemoMore.runtime
           (Tools.houdini_answers DemoMore.executed_reply)
           (JStr "execute_code") (JDict [("code", JStr "pass")])
           (Server.success_envelope (JDict [("executed", JBool true)]))
           Demo.fresh DemoMore.served 5%nat).
  - vm_compute. reflexivity.
  - reflexivity.
Defined.

Lemma send_command_reassembles_response_witness :
  send_command DemoMore.runtime
    {| io_socket := Returned 5%nat;
       io_connect := Returned tt;
       io_sendall := Returned tt;
       io_settimeout := Returned tt;
       io_recv := [Returned DemoMore.executed_head;
                   Returned DemoMore.executed_tail;
                   Returned DemoMore.bogus_reply];
       io_close := Returned tt |}
    (JStr "execute_code") (JDict [("code", JStr "pass")]) Demo.fresh
  = (Returned (Server.success_envelope (JDict [("executed", JBool true)])),
     {| this := {| host := "localhost"; port := 9876;
                   sock := Some 5%nat |};
        trace := ([] ++ opening Demo.idle 5
                  ++ [SendAll 5%nat
                        (data_out DemoMore.runtime (JStr "execute_code")
                           (JDict [("code", JStr "pass")]))]
                  ++ repeat (Recv 5%nat) 2)%list |}).
Proof.
  apply (send_command_reassembles_response DemoMore.runtime
           {| io_socket := Returned 5%nat;
              io_connect := Returned tt;
              io_sendall := Returned tt;
              io_settimeout := Returned tt;
              io_recv := [Returned DemoMore.executed_head;
                          Returned DemoMore.executed_tail;
                          Returned DemoMore.bogus_reply];
              io_close := Returned tt |}
           (JStr "execute_code") (JDict [("code", JStr "pass")])
           (Server.success_envelope (JDict [("executed", JBool true)]))
           Demo.fresh 5%nat [DemoMore.executed_head] DemoMore.executed_tail
           [Returned DemoMore.bogus_reply]).
  - reflexivity.
  - reflexivity.
  - reflexivity.
  - reflexivity.
  - constructor; [discriminate | constructor].
  - discriminate.
  - intros k Hk. assert (k = 0%nat) by (simpl in Hk; lia). subst k.
    eexists. split; vm_compute; reflexivity.
  - vm_compute. reflexivity.
Defined.

End MoreClientProofs.

(* ====================================================================== *)
(** * Properties of the relay and of the front end's tools *)
(* ====================================================================== *)

Module RelayProofs.
Import Py Exc Exc.Notations Tactics.

(** X23. One request over a faithful link: when the bytes [send_command]
    writes parse back to the command it built, and the bytes the back end
    writes parse back to its response, then the back end, receiving those
    bytes on an empty buffer, dispatches exactly the command
    [{"type": cmd_type, "params": params or {}}], once, and the caller of
    [send_command] gets back exactly the envelope [execute_command]
    returned for it. *)
Theorem relay_round_trip (rt : Runtime) (hou : Server.HouAPI)
    (io : Client.call_io) (cmd_type params response : json)
    (st : Client.cstate) (k c : nat) (srv : Server.server)
    (w w' : Server.world hou) :
  let command :=
    JDict [("type", cmd_type);
           ("params", if truthy params then params else JDict [])] in
  let wire := Client.data_out rt cmd_type params in
  let reply := encode_utf8 (json_dumps rt response) in
  Server.parse_buffer rt wire = Returned command -> wire <> [] ->
  Server.execute_command rt hou command w
  = (Normal (Returned response), w') ->
  Server.parse_buffer rt reply = Returned response -> reply <> [] ->
  Server.running srv = true -> Server.client srv = Some c ->
  Server.buffer srv = [] ->
  Client.socket_in_use io (Client.this st) = Some k ->
  Client.io_sendall io = Returned tt ->
  Client.io_settimeout io = Returned tt ->
  Client.io_recv io = [Returned reply] ->
  Server.tick rt hou (Server.receive wire) srv w
  = (srv, w', [Server.Executed command; Server.SendAll c reply])
  /\ Client.send_command rt io cmd_type params st
     = (Returned response,
        {| Client.this :=
             {| Client.host := Client.host (Client.this st);
                Client.port := Client.port (Client.this st);
                Client.sock := Some k |};
           Client.trace :=
             (Client.trace st ++ Client.opening (Client.this st) k
              ++ [Client.SendAll k wire; Client.Recv k])%list |}).
Proof.
  intros command wire reply Hwire Hwne Hexec Hreply Hrne Hrun Hc Hbuf
    Hs Hsend Htimeout Hrecv.
  split.
  - rewrite (PollProofs.tick_receive_command rt hou srv w w' c wire command
               response); try assumption.
    + destruct srv; simpl in *; subst; reflexivity.
    + rewrite Hbuf. exact Hwire.
  - apply (MoreClientProofs.send_command_one_chunk rt io cmd_type params
             response st k reply); assumption.
Qed.

Lemma relay_round_trip_witness :
  Server.tick DemoMore.runtime Demo.houdini
    (Server.receive (Client.data_out DemoMore.runtime (JStr "bogus") JNull))
    Demo.connected Demo.start
  = (Demo.connected, Demo.start,
     [Server.Executed (JDict [("type", JStr "bogus"); ("params", JDict [])]);
      Server.SendAll 7%nat
        (encode_utf8
           (json_dumps DemoMore.runtime
              (Server.error_envelope "Unknown command type: bogus")))])
  /\ Client.send_command DemoMore.runtime
       (Tools.houdini_answers
          (encode_utf8
             (json_dumps DemoMore.runtime
                (Server.error_envelope "Unknown command type: bogus"))))
       (JStr "bogus") JNull Demo.fresh
     = (Returned (Server.error_envelope "Unknown command type: bogus"),
        {| Client.this :=
             {| Client.host := "localhost"; Client.port := 9876;
                Client.sock := Some 5%nat |};
           Client.trace :=
             ([] ++ Client.opening Demo.idle 5
              ++ [Client.SendAll 5%nat
                    (Client.data_out DemoMore.runtime (JStr "bogus") JNull);
                  Client.Recv 5%nat])%list |}).
Proof.
  apply (relay_round_trip DemoMore.runtime Demo.houdini
           (Tools.houdini_answers
              (encode_utf8
                 (json_dumps DemoMore.runtime
                    (Server.error_envelope "Unknown command type: bogus"))))
           (JStr "bogus") JNull
           (Server.error_envelope "Unknown command type: bogus")
           Demo.fresh 5%nat 7%nat Demo.connected Demo.start Demo.start);
    try reflexivity; discriminate.
Defined.

End RelayProofs.

Module ToolProofs.
Import Py Exc Exc.Notations Client Tools Tactics.

Section WithEnvironment.
Variable rt : Runtime.
Variable dumps_indent : json -> string.

(** With the global set, [get_houdini_connection] hands out the object
    there is, and the method call that follows runs on it. *)
Lemma on_connection_run {A B : Type} (io : call_io) (m : M cstate A)
    (k : A -> M front B) (f : front) (c : HoudiniConnection) :
  connection f = Some c ->
  bind (get_houdini_connection io)
    (fun _ => bind (on_connection m) k) f
  = match m {| this := c; trace := events f |} with
    | (Returned a, st) =>
        k a {| connection := Some (this st); events := trace st |}
    | (Raised e, st) =>
        (Raised e, {| connection := Some (this st); events := trace st |})
    end.
Proof.
  intros Hc. unfold get_houdini_connection, on_connection, bind, get, ret.
  rewrite Hc. destruct f as [cn ev]. simpl in *. subst cn.
  destruct (m {| this := c; trace := ev |}) as [[a|e] st]; reflexivity.
Qed.

(** X24. No tool ever raises: whatever the state of the front end and
    whatever the network does, each of the three tools returns a text. *)
Theorem tools_never_raise (io : call_io) (f : front)
    (node_type parent_path name code : json) :
  (exists text f', get_scene_info rt dumps_indent io f = (Returned text, f'))
  /\ (exists text f',
        create_node rt dumps_indent io node_type parent_path name f
        = (Returned text, f'))
  /\ (exists text f',
        execute_houdini_code rt io code f = (Returned text, f')).
Proof.
  unfold get_scene_info, create_node, execute_houdini_code.
  rewrite !HandlerProofs.try_except_Exception_returns.
  repeat split;
    match goal with
    | |- exists _ _, (match ?m with _ => _ end) = _ =>
        destruct m as [[t|e] f']; eauto
    end.
Qed.

(** X25. How the tools read the back end's envelope: a response whose
    status is [error] becomes an error text carrying its message; any
    other JSON object - also one without status - counts as success, and
    the tool returns the success text, resp. the indented dump of the
    [result] field ([null] when there is none).  The connection object
    stays the global one. *)
Theorem tools_read_the_envelope (io : call_io) (f : front)
    (c : HoudiniConnection) (d : list (string * json))
    (node_type parent_path name code : json) (st : cstate) :
  connection f = Some c ->
  let f' := {| connection := Some (this st); events := trace st |} in
  let failed := py_eq_str (dict_get d "status" JNull) "error" in
  let message := py_str rt (dict_get d "message" JNull) in
  let result := dumps_indent (dict_get d "result" JNull) in
  (send_command rt io (JStr "get_scene_info") JNull
     {| this := c; trace := events f |} = (Returned (JDict d), st) ->
   get_scene_info rt dumps_indent io f
   = (Returned (if failed then "Houdini error: " ++ message else result),
      f'))
  /\ (send_command rt io (JStr "create_node")
        (create_node_params node_type parent_path name)
        {| this := c; trace := events f |} = (Returned (JDict d), st) ->
      create_node rt dumps_indent io node_type parent_path name f
      = (Returned (if failed then "Error: " ++ message
                   else "Node created: " ++ result), f'))
  /\ (send_command rt io (JStr "execute_code") (JDict [("code", code)])
        {| this := c; trace := events f |} = (Returned (JDict d), st) ->
      execute_houdini_code rt io code f
      = (Returned (if failed then "Error: " ++ message
                   else "Code executed successfully in Houdini."), f')).
Proof.
  intros Hc f' failed message result.
  unfold get_scene_info, create_node, execute_houdini_code.
  rewrite !HandlerProofs.try_except_Exception_returns.
  repeat split; intros Hsend;
    rewrite (on_connection_run io _ _ f c Hc), Hsend;
    unfold bind, lift, ret, Server.py_get; cbv beta iota;
    fold failed; destruct failed; reflexivity.
Qed.

(** [execute_houdini_code] on a call that was answered. *)
Lemma execute_houdini_code_answered (io : call_io) (f : front)
    (c : HoudiniConnection) (d : list (string * json)) (code : json)
    (st : cstate) :
  connection f = Some c ->
  send_command rt io (JStr "execute_code") (JDict [("code", code)])
    {| this := c; trace := events f |} = (Returned (JDict d), st) ->
  execute_houdini_code rt io code f
  = (Returned (if py_eq_str (dict_get d "status" JNull) "error"
               then "Error: " ++ py_str rt (dict_get d "message" JNull)
               else "Code executed successfully in Houdini."),
     {| connection := Some (this st); events := trace st |}).
Proof.
  intros Hc Hsend. unfold execute_houdini_code.
  rewrite HandlerProofs.try_except_Exception_returns.
  rewrite (on_connection_run io _ _ f c Hc), Hsend.
  unfold bind, lift, ret, Server.py_get; cbv beta iota.
  destruct (py_eq_str (dict_get d "status" JNull) "error"); reflexivity.
Qed.

(** X26. The front end recovers by itself: a tool call made while no
    connection can be opened returns an error text and leaves the global
    connection object without socket; the next call, made when the back
    end is reachable and answers with a non-error envelope, connects,
    succeeds and keeps the socket. *)
Theorem tool_recovers_when_houdini_comes_up (down up : call_io)
    (f : front) (code : json) (k : nat) (reply : list byte)
    (d : list (string * json)) :
  (forall c, connection f = Some c -> sock c = None) ->
  socket_in_use down {| host := "localhost"; port := 9876; sock := None |}
  = None ->
  io_socket up = Returned k -> io_connect up = Returned tt ->
  io_sendall up = Returned tt -> io_settimeout up = Returned tt ->
  io_recv up = [Returned reply] -> reply <> [] ->
  Server.parse_buffer rt reply = Returned (JDict d) ->
  py_eq_str (dict_get d "status" JNull) "error" = false ->
  exists text f1 f2 c1 c2,
    execute_houdini_code rt down code f = (Returned text, f1)
    /\ (text = "Error executing code: Could not connect to Houdini on localhost:9876. Is the plugin running?"
        \/ text = "Error executing code: Could not connect to Houdini on port 9876.")
    /\ connection f1 = Some c1 /\ sock c1 = None
    /\ execute_houdini_code rt up code f1
       = (Returned "Code executed successfully in Houdini.", f2)
    /\ connection f2 = Some c2 /\ sock c2 = Some k.
Proof.
  intros Hnosock Hdown Hsk Hcn Hsend Htimeout Hrecv Hrne Hparse Hstatus.
  assert (Hdown' : forall c, sock c = None -> socket_in_use down c = None).
  { intros c Hc. unfold socket_in_use in *. rewrite Hc. exact Hdown. }
  assert (Hup : forall c, sock c = None -> socket_in_use up c = Some k).
  { intros c Hc. unfold socket_in_use. rewrite Hc, Hsk, Hcn. reflexivity. }
  assert (Hsecond : forall f1 c1,
             connection f1 = Some c1 -> sock c1 = None ->
             exists f2 c2,
               execute_houdini_code rt up code f1
               = (Returned "Code executed successfully in Houdini.", f2)
               /\ connection f2 = Some c2 /\ sock c2 = Some k).
  { intros f1 c1 Hc1 Hs1.
    pose proof (MoreClientProofs.send_command_one_chunk rt up
                  (JStr "execute_code") (JDict [("code", code)]) (JDict d)
                  {| this := c1; trace := events f1 |} k reply
                  (Hup c1 Hs1) Hsend Htimeout Hrecv Hrne Hparse)
      as Hsc.
    pose proof (execute_houdini_code_answered up f1 c1 d code _ Hc1 Hsc)
      as Hexec.
    rewrite Hstatus in Hexec.
    eexists. eexists. split; [exact Hexec|]. simpl. split; reflexivity. }
  destruct f as [[c|] ev].
  - (* the global object exists, without socket *)
    assert (Hc : sock c = None) by (apply Hnosock; reflexivity).
    destruct (MoreClientProofs.send_command_refused rt down
                (JStr "execute_code") (JDict [("code", code)])
                {| this := c; trace := ev |} (Hdown' c Hc))
      as [st' [Hsc Hs']].
    destruct (Hsecond {| connection := Some (this st'); events := trace st' |}
                (this st') eq_refl Hs') as [f2 [c2 [H2 [Hc2 Hs2]]]].
    exists "Error executing code: Could not connect to Houdini on port 9876.".
    exists {| connection := Some (this st'); events := trace st' |}.
    exists f2, (this st'), c2.
    split.
    + unfold execute_houdini_code.
      rewrite HandlerProofs.try_except_Exception_returns.
      rewrite (on_connection_run down _ _
                 {| connection := Some c; events := ev |} c eq_refl).
      simpl events. rewrite Hsc. reflexivity.
    + repeat split; auto.
  - (* first use: the object is created, and cannot connect *)
    unfold socket_in_use in Hdown. simpl in Hdown.
    set (idle := {| host := "localhost"; port := 9876; sock := None |}).
    assert (Hfirst :
              exists ev',
                execute_houdini_code rt down code
                  {| connection := None; events := ev |}
                = (Returned "Error executing code: Could not connect to Houdini on localhost:9876. Is the plugin running?",
                   {| connection := Some idle; events := ev' |})).
    { unfold execute_houdini_code.
      rewrite HandlerProofs.try_except_Exception_returns.
      unfold get_houdini_connection, on_connection, set_connection,
        connect, set_sock, emit, try_except, bind, lift, get, modify, ret,
        raise.
      simpl.
      destruct (io_socket down) as [s0|e0]; simpl.
      - destruct (io_connect down) as [[]|e1]; [discriminate Hdown|].
        simpl. eexists. reflexivity.
      - eexists. reflexivity. }
    destruct Hfirst as [ev' Hfirst].
    destruct (Hsecond {| connection := Some idle; events := ev' |} idle
                eq_refl eq_refl) as [f2 [c2 [H2 [Hc2 Hs2]]]].
    eexists. exists {| connection := Some idle; events := ev' |}.
    exists f2, idle, c2.
    split; [exact Hfirst|]. repeat split; auto.
Qed.

(** X27. Front end and back end agree on the commands: whatever the
    arguments of a tool, the params it puts on the wire fit the signature
    of the handler its command type selects ([send_command] writing
    [params or {}]), so the call is never refused for its keywords.  [create_node] forwards the name only when it is
    truthy and never a position or parameters, which the handler then
    takes as [None]. *)
Theorem tool_commands_fit_the_handlers (hou : Server.HouAPI)
    (w : Server.world hou) (node_type parent_path name code : json) :
  (forall cmd_type params,
      data_out rt cmd_type params
      = encode_utf8
          (json_dumps rt
             (JDict [("type", cmd_type); ("params", sent params)])))
  /\ accepted rt hou w "get_scene_info" (sent JNull)
  /\ accepted rt hou w "create_node"
       (sent (create_node_params node_type parent_path name))
  /\ accepted rt hou w "execute_code" (sent (JDict [("code", code)]))
  /\ (exists kw,
        create_node_params node_type parent_path name = JDict kw
        /\ Server.argument
             (Server.method_sig (Server.self_create_node rt hou)) kw "name"
           = (if truthy name then name else JNull)
        /\ Server.argument
             (Server.method_sig (Server.self_create_node rt hou)) kw
             "position" = JNull
        /\ Server.argument
             (Server.method_sig (Server.self_create_node rt hou)) kw
             "parameters" = JNull).
Proof.
  unfold accepted, sent, create_node_params, Server.handlers.
  split; [reflexivity|].
  repeat split.
  - eexists; eexists.
    destruct (truthy (Server.session_use_assetlib hou w));
      (split; [reflexivity|]); split; reflexivity.
  - destruct (truthy name); eexists; eexists;
      destruct (truthy (Server.session_use_assetlib hou w));
      (split; [reflexivity|]); split; reflexivity.
  - eexists; eexists.
    destruct (truthy (Server.session_use_assetlib hou w));
      (split; [reflexivity|]); split; reflexivity.
  - destruct (truthy name) eqn:Hn; eexists;
      (split; [reflexivity|]); repeat split; reflexivity.
Qed.

(** With no global object, [get_houdini_connection] starts by opening a
    socket. *)
Lemma first_use_opens_socket (io : call_io) (ev : list event)
    (r : outcome unit) (f2 : front) :
  get_houdini_connection io {| connection := None; events := ev |} = (r, f2) ->
  exists rest, events f2 = (ev ++ NewSocket :: rest)%list.
Proof.
  intros H2.
  unfold get_houdini_connection, on_connection, set_connection,
    connect, set_sock, emit, try_except, bind, lift, get, modify, ret,
    raise in H2.
  simpl in H2.
  destruct (io_socket io) as [s0|e0]; simpl in H2.
  - destruct (io_connect io) as [[]|e1]; simpl in H2;
      inversion H2; subst; simpl; unfold append;
      rewrite <- ?app_assoc; simpl; eauto.
  - inversion H2; subst; simpl; unfold append;
      rewrite <- ?app_assoc; simpl; eauto.
Qed.

(** X28. The life span of the front end: [startup] never raises, also
    when the back end cannot be reached; [shutdown] never raises either,
    closes the socket if one is open and forgets the connection object, so
    whatever is called next starts by opening a new socket. *)
Theorem lifespan_opens_and_forgets (io : call_io) (f : front) :
  (exists f', startup io f = (Returned tt, f'))
  /\ (exists f',
        shutdown io f = (Returned tt, f')
        /\ connection f' = None
        /\ events f'
           = (events f
              ++ match connection f with
                 | Some {| sock := Some s |} => [Close s]
                 | _ => []
                 end)%list
        /\ forall io2 r f2,
             get_houdini_connection io2 f' = (r, f2) ->
             exists rest, events f2 = (events f' ++ NewSocket :: rest)%list).
Proof.
  split.
  - unfold startup.
    rewrite HandlerProofs.try_except_Exception_returns.
    destruct (get_houdini_connection io f) as [[[]|e] f']; eauto.
  - destruct f as [[[h p [s|]]|] ev].
    + exists {| connection := None; events := (ev ++ [Close s])%list |}.
      split; [|split; [reflexivity|split; [reflexivity|]]].
      * unfold shutdown, on_connection, set_connection, disconnect, set_sock,
          emit, try_except, bind, lift, get, modify, ret, raise.
        simpl. destruct (io_close io) as [[]|e]; reflexivity.
      * intros io2 r f2. apply first_use_opens_socket.
    + exists {| connection := None; events := ev |}.
      split; [reflexivity|]. simpl. rewrite app_nil_r.
      split; [reflexivity|split; [reflexivity|]].
      intros io2 r f2. apply first_use_opens_socket.
    + exists {| connection := None; events := ev |}.
      split; [reflexivity|]. simpl. rewrite app_nil_r.
      split; [reflexivity|split; [reflexivity|]].
      intros io2 r f2. apply first_use_opens_socket.
Qed.

End WithEnvironment.

Lemma tools_read_the_envelope_witness :
  execute_houdini_code DemoMore.runtime
    (houdini_answers DemoMore.executed_reply) (JStr "pass")
    {| connection := Some Demo.idle; events := [] |}
  = (Returned "Code executed successfully in Houdini.",
     {| connection := Some (this DemoMore.served);
        events := trace DemoMore.served |}).
Proof.
  apply (proj2 (proj2
           (tools_read_the_envelope DemoMore.runtime Demo.dumps
              (houdini_answers DemoMore.executed_reply)
              {| connection := Some Demo.idle; events := [] |} Demo.idle
              [("status", JStr "success");
               ("result", JDict [("executed", JBool true)])]
              JNull JNull JNull (JStr "pass") DemoMore.served eq_refl))).
  vm_compute. reflexivity.
Defined.

Lemma tool_recovers_when_houdini_comes_up_witness :
  exists text f1 f2 c1 c2,
    execute_houdini_code DemoMore.runtime houdini_down (JStr "pass") unused
    = (Returned text, f1)
    /\ (text = "Error executing code: Could not connect to Houdini on localhost:9876. Is the plugin running?"
        \/ text = "Error executing code: Could not connect to Houdini on port 9876.")
    /\ connection f1 = Some c1 /\ sock c1 = None
    /\ execute_houdini_code DemoMore.runtime
         (houdini_answers DemoMore.executed_reply) (JStr "pass") f1
       = (Returned "Code executed successfully in Houdini.", f2)
    /\ connection f2 = Some c2 /\ sock c2 = Some 5%nat.
Proof.
  apply (tool_recovers_when_houdini_comes_up DemoMore.runtime houdini_down
           (houdini_answers DemoMore.executed_reply) unused (JStr "pass")
           5%nat DemoMore.executed_reply
           [("status", JStr "success");
            ("result", JDict [("executed", JBool true)])]).
  - intros c H. discriminate H.
  - reflexivity.
  - reflexivity.
  - reflexivity.
  - reflexivity.
  - reflexivity.
  - reflexivity.
  - discriminate.
  - vm_compute. reflexivity.
  - reflexivity.
Defined.

Lemma lifespan_opens_and_forgets_witness :
  (exists f', startup houdini_down unused = (Returned tt, f'))
  /\ (exists f',
        shutdown houdini_down
          {| connection := Some (this DemoMore.served);
             events := trace DemoMore.served |}
        = (Returned tt, f')
        /\ connection f' = None
        /\ events f' = (trace DemoMore.served ++ [Close 5%nat])%list
        /\ forall io2 r f2,
             get_houdini_connection io2 f' = (r, f2) ->
             exists rest, events f2 = (events f' ++ NewSocket :: rest)%list).
Proof.
  split.
  - apply (proj1 (lifespan_opens_and_forgets houdini_down unused)).
  - apply (proj2 (lifespan_opens_and_forgets houdini_down
                    {| connection := Some (this DemoMore.served);
                       events := trace DemoMore.served |})).
Defined.

End ToolProofs.

(* ====================================================================== *)
(** * Properties of the reports *)
(* ====================================================================== *)

Module ReportProofs.
Import Py Exc Exc.Notations Server Inspect Tactics.

(** A sequence that returned: its first part returned, and the rest ran
    from there. *)
Lemma bind_returned {S A B : Type} (m : M S A) (k : A -> M S B)
    (s s' : S) (b : B) :
  bind m k s = (Returned b, s') ->
  exists a s1, m s = (Returned a, s1) /\ k a s1 = (Returned b, s').
Proof.
  unfold bind. destruct (m s) as [[a|e] s1]; [eauto | discriminate].
Qed.

Ltac invert_bind H :=
  let a := fresh "a" in
  let s := fresh "s" in
  let Ha := fresh "Ha" in
  apply bind_returned in H; destruct H as [a [s [Ha H]]]; cbv beta in H.

Section Reports.
Variable rt : Runtime.
Variable hou : HouAPI.
Variable api : SceneAPI (world hou) (node hou) (parm hou).

(** The loop over the children of one context keeps the list within ten
    entries, and what it adds carries the name of the context. *)
Lemma collect_children_bound (ctx_name : string)
    (children : list (node hou)) :
  In ctx_name contexts ->
  forall (acc r : list json) (w w' : world hou),
    (List.length acc <= 10)%nat -> Forall in_context acc ->
    collect_children hou ctx_name children acc w = (Returned r, w') ->
    (List.length r <= 10)%nat /\ Forall in_context r.
Proof.
  intros Hctx. unfold collect_children.
  induction children as [|n children IH]; intros acc r w w' Hlen Hall H.
  - inversion H; subst. auto.
  - cbn [for_each_break] in H.
    destruct (10 <=? List.length acc)%nat eqn:Hfull.
    + inversion H; subst. auto.
    + apply Nat.leb_gt in Hfull.
      invert_bind H. invert_bind Ha.
      inversion Ha; subst; clear Ha.
      unfold top_node in Ha0.
      invert_bind Ha0. invert_bind Ha0. invert_bind Ha0.
      inversion Ha0; subst; clear Ha0.
      eapply IH; [| |exact H].
      * unfold append. rewrite length_app. simpl. lia.
      * unfold append. apply Forall_app. split; [assumption|].
        constructor; [|constructor].
        exists ctx_name. split; [reflexivity|assumption].
Qed.

(** The loop over the contexts does the same. *)
Lemma collect_contexts_bound (root : option (node hou))
    (r : list json) (w w' : world hou) :
  collect_contexts rt hou root w = (Returned r, w') ->
  (List.length r <= 10)%nat /\ Forall in_context r.
Proof.
  unfold collect_contexts.
  assert (Hgen : forall cs,
             (forall c, In c cs -> In c contexts) ->
             forall (acc : list json) (w : world hou),
               (List.length acc <= 10)%nat -> Forall in_context acc ->
               for_each_break cs acc
                 (fun ctx_name top_nodes =>
                    bind (on_node rt hou root "node"
                            (fun r0 => node_node hou r0 (JStr ctx_name)))
                      (fun ctx_node =>
                         match ctx_node with
                         | Some c =>
                             bind (node_children hou c)
                               (fun children =>
                                  bind (collect_children hou ctx_name
                                          children top_nodes)
                                    (fun top_nodes0 =>
                                       if (10 <=? List.length top_nodes0)%nat
                                       then ret (Break top_nodes0)
                                       else ret (Next top_nodes0)))
                         | None => ret (Next top_nodes)
                         end)) w = (Returned r, w') ->
               (List.length r <= 10)%nat /\ Forall in_context r).
  { induction cs as [|c cs IH]; intros Hin acc w0 Hlen Hall H.
    - inversion H; subst. auto.
    - cbn [for_each_break] in H.
      invert_bind H. invert_bind Ha.
      destruct a0 as [cn|].
      + invert_bind Ha. invert_bind Ha.
        destruct (collect_children_bound c a0 (Hin c (or_introl eq_refl))
                    _ _ _ _ Hlen Hall Ha2) as [Hlen1 Hall1].
        destruct (10 <=? List.length a1)%nat;
          inversion Ha; subst; clear Ha.
        * inversion H; subst. auto.
        * eapply IH; [| | |exact H]; auto.
          intros c' Hc'. apply Hin. right. exact Hc'.
      + inversion Ha; subst; clear Ha.
        eapply IH; [| | |exact H]; auto.
        intros c' Hc'. apply Hin. right. exact Hc'. }
  intros H. eapply Hgen; [| | |exact H]; auto. simpl. lia.
Qed.

(** The report of [get_scene_info], when its [try] block returns. *)
Lemma get_scene_info_try_report (v : json) (w w' : world hou) :
  get_scene_info_try rt hou api w = (Returned v, w') ->
  exists name filepath count nodes fps start_frame end_frame,
    v = JDict [("name", JStr name); ("filepath", JStr filepath);
               ("node_count", py_int count); ("nodes", JList nodes);
               ("fps", fps); ("start_frame", start_frame);
               ("end_frame", end_frame)]
    /\ (List.length nodes <= 10)%nat /\ Forall in_context nodes.
Proof.
  intros H. unfold get_scene_info_try in H.
  repeat invert_bind H.
  inversion H; subst; clear H.
  match goal with
  | Hc : collect_contexts _ _ _ _ = _ |- _ =>
      destruct (collect_contexts_bound _ _ _ _ Hc) as [Hlen Hall]
  end.
  do 7 eexists. split; [reflexivity|]. split; assumption.
Qed.

(** X29. A [get_scene_info] command is always answered by
    [{"status": "success", "result": r}], whatever the calls into [hou]
    do: a failure travels inside it, as a result [r] with the one key
    [error]; a report has no such key, and lists at most ten nodes, each
    under one of the six contexts. *)
Theorem scene_info_command_always_success (d : list (string * json))
    (w : world hou) :
  dict_get d "type" JNull = JStr "get_scene_info" ->
  dict_get d "params" (JDict []) = JDict [] ->
  exists v w',
    execute_command rt (with_reports rt hou api) (JDict d) w
    = (Normal (Returned (JDict [("status", JStr "success");
                                ("result", v)])), w')
    /\ ((exists msg, v = JDict [("error", JStr msg)])
        \/ (exists fields nodes,
              v = JDict fields
              /\ assoc "error" fields = None
              /\ assoc "nodes" fields = Some (JList nodes)
              /\ (List.length nodes <= 10)%nat
              /\ Forall in_context nodes)).
Proof.
  intros Hty Hparams.
  rewrite DispatchProofs.execute_command_object, Hty, Hparams.
  assert (Hkey : assoc "get_scene_info"
                   (handlers rt (with_reports rt hou api) w)
                 = Some (self_get_scene_info (with_reports rt hou api))).
  { unfold handlers.
    destruct (truthy (session_use_assetlib (with_reports rt hou api) w));
      reflexivity. }
  simpl handlers_get. rewrite Hkey.
  rewrite (DispatchProofs.call_bound rt (with_reports rt hou api)
             (self_get_scene_info (with_reports rt hou api)) (JDict []) []
             w eq_refl).
  cbn [method_body self_get_scene_info]. unfold Wide.ordinary.
  change (Server.get_scene_info (with_reports rt hou api))
    with (Inspect.get_scene_info rt hou api).
  unfold Inspect.get_scene_info.
  rewrite HandlerProofs.try_except_Exception_returns.
  destruct (get_scene_info_try rt hou api w) as [[v|e] w'] eqn:Htry;
    cbn [fst snd].
  - destruct (get_scene_info_try_report _ _ _ Htry)
      as [name [filepath [count [nodes [fps [sf [ef [Hv [Hlen Hall]]]]]]]]].
    subst v. eexists. exists w'. split; [reflexivity|]. right.
    eexists. exists nodes. split; [reflexivity|].
    repeat split; try reflexivity; assumption.
  - eexists. exists w'. split; [reflexivity|]. left. eauto.
Qed.

(** The loop over the parameters reports the first twenty. *)
Lemma collect_parameters_length (parms : list (parm hou)) :
  forall (i : nat) (acc r : list json) (w w' : world hou),
    collect_parameters rt hou api
      (combine (seq i (List.length parms)) parms) acc w = (Returned r, w') ->
    List.length r
    = (List.length acc + Nat.min (20 - i) (List.length parms))%nat.
Proof.
  unfold collect_parameters.
  induction parms as [|p parms IH]; intros i acc r w w' H.
  - inversion H; subst. simpl. rewrite Nat.min_0_r. lia.
  - cbn [List.length seq combine for_each_break fst snd] in H.
    destruct (20 <=? i)%nat eqn:Hfull.
    + inversion H; subst. apply Nat.leb_le in Hfull.
      replace (20 - i)%nat with 0%nat by lia. cbn [Nat.min]. lia.
    + apply Nat.leb_gt in Hfull.
      invert_bind H. invert_bind Ha.
      inversion Ha; subst; clear Ha.
      apply IH in H. rewrite H. unfold append. rewrite length_app.
      cbn [List.length]. lia.
Qed.

(** The loop over the inputs reports the connected ones, each under its
    position among all inputs. *)
Lemma collect_inputs_indices (ins : list (option (node hou))) :
  forall (i : nat) (acc r : list json) (w w' : world hou),
    collect_inputs hou (combine (seq i (List.length ins)) ins) acc w
    = (Returned r, w') ->
    map (field "index") r
    = (map (field "index") acc
       ++ map (fun k => Some (py_int k)) (taken_from i ins))%list.
Proof.
  unfold collect_inputs.
  induction ins as [|[m|] ins IH]; intros i acc r w w' H.
  - inversion H; subst. simpl. rewrite app_nil_r. reflexivity.
  - cbn [List.length seq combine for_each fst snd] in H.
    invert_bind H. repeat invert_bind Ha.
    inversion Ha; subst; clear Ha.
    apply IH in H. rewrite H. unfold append. rewrite map_app.
    rewrite <- app_assoc. reflexivity.
  - cbn [List.length seq combine for_each fst snd] in H.
    invert_bind H. inversion Ha; subst; clear Ha.
    apply IH in H. exact H.
Qed.

(** The loop over the output connections numbers them all. *)
Lemma collect_outputs_indices (conns : list (node_connection api)) :
  forall (i : nat) (acc r : list json) (w w' : world hou),
    collect_outputs hou api (combine (seq i (List.length conns)) conns)
      acc w = (Returned r, w') ->
    map (field "index") r
    = (map (field "index") acc
       ++ map (fun k => Some (py_int k)) (seq i (List.length conns)))%list.
Proof.
  unfold collect_outputs.
  induction conns as [|c conns IH]; intros i acc r w w' H.
  - inversion H; subst. simpl. rewrite app_nil_r. reflexivity.
  - cbn [List.length seq combine for_each fst snd] in H.
    invert_bind H. repeat invert_bind Ha.
    inversion Ha; subst; clear Ha.
    apply IH in H. rewrite H. unfold append. rewrite map_app.
    rewrite <- app_assoc. reflexivity.
Qed.

(** X30. [get_node_info] raises [ValueError] for a path that names no
    node.  A report it returns is the one of the node [hou.node(path)]
    gave: behind the entries read first it holds the first twenty of the
    parameters [node.parms()] listed, the connected ones of the inputs
    [node.inputs()] listed, each under its position among all of them
    (positions that are not connected are left out, not renumbered), and
    the output connections [node.outputConnections()] listed, numbered
    from 0 - each list read from that node, in the scene the steps before
    left. *)
Theorem node_info_report (path : json) (w : world hou) :
  (forall w',
      hou_node hou path w = (Returned None, w') ->
      get_node_info rt hou api path w
      = (Raised (mkExn ValueError ("Node not found: " ++ py_str rt path)),
         w'))
  /\ (forall v w',
        get_node_info rt hou api path w = (Returned v, w') ->
        exists n w0 head w1 parms w2 parameters w3 ins w4 inputs w5 conns w6
               outputs,
          hou_node hou path w = (Returned (Some n), w0)
          /\ node_info_head rt hou api n w0 = (Returned head, w1)
          /\ node_parms api n w1 = (Returned parms, w2)
          /\ collect_parameters rt hou api (enumerate parms) [] w2
             = (Returned parameters, w3)
          /\ node_inputs api n w3 = (Returned ins, w4)
          /\ collect_inputs hou (enumerate ins) [] w4
             = (Returned inputs, w5)
          /\ node_outputConnections api n w5 = (Returned conns, w6)
          /\ collect_outputs hou api (enumerate conns) [] w6
             = (Returned outputs, w')
          /\ v = JDict (head ++ [("parameters", JList parameters);
                                 ("inputs", JList inputs);
                                 ("outputs", JList outputs)])%list
          /\ List.length parameters = Nat.min 20 (List.length parms)
          /\ map (field "index") inputs
             = map (fun k => Some (py_int k)) (taken_from 0 ins)
          /\ map (field "index") outputs
             = map (fun k => Some (py_int k))
                 (seq 0 (List.length conns))).
Proof.
  split.
  - intros w' Hn. unfold get_node_info, bind. rewrite Hn. reflexivity.
  - intros v w' H. unfold get_node_info in H.
    invert_bind H. destruct a as [n|]; [|discriminate H].
    repeat invert_bind H.
    inversion H; subst; clear H.
    do 15 eexists.
    do 8 (split; [eassumption|]).
    split; [reflexivity|].
    unfold enumerate in *.
    repeat match goal with
    | Hp : collect_parameters _ _ _ _ _ _ = _ |- _ =>
        apply collect_parameters_length in Hp
    | Hi : collect_inputs _ _ _ _ = _ |- _ =>
        apply collect_inputs_indices in Hi
    | Ho : collect_outputs _ _ _ _ _ = _ |- _ =>
        apply collect_outputs_indices in Ho
    end.
    split; [|split]; assumption.
Qed.

End Reports.

Lemma scene_info_command_always_success_witness :
  exists v w',
    execute_command Demo.runtime
      (with_reports Demo.runtime demo_hou demo)
      (JDict [("type", JStr "get_scene_info")]) Demo.start
    = (Normal (Returned (JDict [("status", JStr "success");
                                ("result", v)])), w')
    /\ ((exists msg, v = JDict [("error", JStr msg)])
        \/ (exists fields nodes,
              v = JDict fields
              /\ assoc "error" fields = None
              /\ assoc "nodes" fields = Some (JList nodes)
              /\ (List.length nodes <= 10)%nat
              /\ Forall in_context nodes)).
Proof.
  apply (scene_info_command_always_success Demo.runtime demo_hou demo
           [("type", JStr "get_scene_info")] Demo.start);
    reflexivity.
Defined.

Lemma node_info_report_witness :
  exists n w0 head w1 parms w2 parameters w3 ins w4 inputs w5 conns w6
         outputs,
    hou_node demo_hou (JStr "/obj/geo1") Demo.start = (Returned (Some n), w0)
    /\ node_info_head Demo.runtime demo_hou demo n w0 = (Returned head, w1)
    /\ node_parms demo n w1 = (Returned parms, w2)
    /\ collect_parameters Demo.runtime demo_hou demo (enumerate parms) [] w2
       = (Returned parameters, w3)
    /\ node_inputs demo n w3 = (Returned ins, w4)
    /\ collect_inputs demo_hou (enumerate ins) [] w4 = (Returned inputs, w5)
    /\ node_outputConnections demo n w5 = (Returned conns, w6)
    /\ collect_outputs demo_hou demo (enumerate conns) [] w6
       = (Returned outputs, Demo.start)
    /\ geo1_report
       = JDict (head ++ [("parameters", JList parameters);
                         ("inputs", JList inputs);
                         ("outputs", JList outputs)])%list
    /\ List.length parameters = Nat.min 20 (List.length parms)
    /\ map (field "index") inputs
       = map (fun k => Some (py_int k)) (taken_from 0 ins)
    /\ map (field "index") outputs
       = map (fun k => Some (py_int k)) (seq 0 (List.length conns)).
Proof.
  apply (proj2 (node_info_report Demo.runtime demo_hou demo
                  (JStr "/obj/geo1") Demo.start)
           geo1_report Demo.start).
  vm_compute. reflexivity.
Defined.

End ReportProofs.
